(** * Omerta card-game engine: a shallow embedding and its verification

    The development follows the Python sources of the bot:
    - [game/core/state.py]   constants, the deck, dealing, hand scores;
    - [bot/keyboards.py]     the card-selection keyboard;
    - [simple_bot.py]        settlement, bottle matching, timers, abilities.

    Conventions of the embedding.
    - A Python list is a Rocq list in the same order: [l.append(x)] is
      [l ++ [x]], [l.pop()] removes the last element, [l[-1]] is [last l].
    - A player id is a Python [int] (a chat user) or a [str] (an AI player);
      dictionaries keyed by ids keep the two apart, as Python does.
    - A handler is a function from the session to the new session and the
      list of effects it emitted (keyboards, timers, notices and the calls
      that hand control to the turn engine).
    - [random] is an explicit tape of naturals handed to the function that
      draws from it. *)

From Stdlib Require Import ZArith String List Permutation Lia.
From stdpp Require Import gmap strings list fin_maps pretty.
Import ListNotations.
Local Open Scope string_scope.
Local Open Scope list_scope.
Local Open Scope nat_scope.
Local Open Scope stdpp_scope.

(** ** Python values *)

Module Py.

(** [l.pop()]: the last element and the list without it. *)
Definition pop {A} (l : list A) : option (A * list A) :=
  match last l with
  | Some x => Some (x, removelast l)
  | None => None
  end.


(** Truthiness of a list: [if l:]. *)
Definition nonempty {A} (l : list A) : bool :=
  match l with [] => false | _ => true end.

(** [x[i], x[j] = x[j], x[i]]. *)
Definition swap_items {A} (i j : nat) (x : list A) : list A :=
  match x !! i, x !! j with
  | Some a, Some b => <[j := a]> (<[i := b]> x)
  | _, _ => x
  end.

(** [random.shuffle(x)]:
    [for i in reversed(range(1, len(x))): j = randbelow(i + 1); swap x[i], x[j]].
    The tape [rng] supplies one draw per iteration, reduced below [i + 1]. *)
Fixpoint shuffle_from {A} (i : nat) (rng : list nat) (x : list A) : list A :=
  match i with
  | 0 => x
  | S i' => shuffle_from i' (tail rng) (swap_items i (hd 0 rng mod S i) x)
  end.

Definition shuffle {A} (rng : list nat) (x : list A) : list A :=
  shuffle_from (length x - 1) rng x.

(** [sorted(l, key=key)]: Python's sort is stable, and the stable sorted
    arrangement of a list is unique; insertion from the right computes it. *)
Fixpoint insert_by {A} (key : A → Z) (x : A) (l : list A) : list A :=
  match l with
  | [] => [x]
  | y :: l' => if (key x <=? key y)%Z then x :: l else y :: insert_by key x l'
  end.

Definition sorted {A} (key : A → Z) (l : list A) : list A :=
  foldr (insert_by key) [] l.

(** [needle in s] for strings. *)
Fixpoint contains (needle s : string) : bool :=
  String.prefix needle s ||
  match s with
  | EmptyString => false
  | String _ s' => contains needle s'
  end.

Definition startswith (s p : string) : bool := String.prefix p s.

Definition endswith (s p : string) : bool :=
  String.prefix (String.rev p) (String.rev s).

End Py.

(** ** Identifiers *)

(** [Union[int, str]]: a chat user's numeric id or an AI's synthetic name. *)
Inductive player_id :=
| IntId (n : Z)
| StrId (s : string).

#[global] Instance player_id_eq_dec : EqDecision player_id.
Proof. solve_decision. Defined.

#[global] Instance player_id_countable : Countable player_id.
Proof.
  refine (inj_countable'
    (λ i, match i with IntId n => inl n | StrId s => inr s end)
    (λ x, match x with inl n => IntId n | inr s => StrId s end) _).
  by intros [].
Defined.

(** Truthiness of an id: [0] and the empty string are falsy. *)
Definition truthy (i : player_id) : bool :=
  match i with
  | IntId n => negb (n =? 0)%Z
  | StrId s => negb (String.eqb s EmptyString)
  end.

(** [if x:] for an optional id ([None] is falsy). *)
Definition truthy_opt (o : option player_id) : bool :=
  match o with Some i => truthy i | None => false end.

(** [str(player_id)]. *)
Definition str (i : player_id) : player_id :=
  match i with
  | IntId n => StrId (pretty n)
  | StrId s => StrId s
  end.

(** ** [game/core/state.py]: constants and cards *)

Definition BOTTLE_MATCH_WINDOW_SECONDS : Z := 5.
Definition MIN_PLAYERS : nat := 3.
Definition MAX_PLAYERS : nat := 9.
Definition OMERTA_THRESHOLD : Z := 7.
Definition OMERTA_PENALTY : Z := 20.
Definition SAFE_CARDS_COUNT : nat := 4.
Definition HAND_CARDS_COUNT : nat := 4.

Inductive card_type := bottle | character.

#[global] Instance card_type_eq_dec : EqDecision card_type.
Proof. solve_decision. Defined.

(** A card dictionary: [{"type": "bottle", "value", "name", "points"}] or
    [{"type": "character", "name", "points", "ability", "ability_time"}]. *)
Inductive card :=
| Bottle (value : Z)
| Character (name : string) (points : Z) (ability : string) (ability_time : Z).

#[global] Instance card_eq_dec : EqDecision card.
Proof. solve_decision. Defined.

Definition card_kind (c : card) : card_type :=
  match c with Bottle _ => bottle | Character _ _ _ _ => character end.

(** [card.get('value')]. *)
Definition card_value (c : card) : option Z :=
  match c with Bottle v => Some v | Character _ _ _ _ => None end.

(** [card.get('name')]; a bottle is named [f"Bottle {value}"]. *)
Definition card_name (c : card) : string :=
  match c with
  | Bottle v => "Bottle " +:+ pretty v
  | Character n _ _ _ => n
  end.

(** [card.get('points', card.get('value', 0))]; a bottle's points are its value. *)
Definition card_points (c : card) : Z :=
  match c with Bottle v => v | Character _ p _ _ => p end.

Definition is_bottle (c : card) : bool :=
  match c with Bottle _ => true | Character _ _ _ _ => false end.

Record char_template := {
  t_name : string; t_points : Z; t_ability : string; t_ability_time : Z }.

Definition CHARACTER_CARDS : list char_template := [
  {| t_name := "The Lady"; t_points := 15; t_ability := "Shuffle an opponent's hand without looking"; t_ability_time := 20 |};
  {| t_name := "The Mole"; t_points := 15; t_ability := "Look at one of your own cards"; t_ability_time := 15 |};
  {| t_name := "The Gangster"; t_points := 15; t_ability := "Swap cards"; t_ability_time := 30 |};
  {| t_name := "The Snitch"; t_points := 20; t_ability := "Give deck cards to opponent(s)"; t_ability_time := 25 |};
  {| t_name := "The Driver"; t_points := 20; t_ability := "Discard own Bottle cards"; t_ability_time := 20 |};
  {| t_name := "The Safecracker"; t_points := 15; t_ability := "Interact with the Safe"; t_ability_time := 20 |};
  {| t_name := "The Killer"; t_points := 15; t_ability := "Counter an ability targeting you"; t_ability_time := 10 |};
  {| t_name := "The Witness"; t_points := 10; t_ability := "No special ability"; t_ability_time := 0 |};
  {| t_name := "The Alibi"; t_points := 0; t_ability := "No points"; t_ability_time := 0 |};
  {| t_name := "The Mamma"; t_points := 15; t_ability := "Make opponent skip turn & block Omerta"; t_ability_time := 20 |};
  {| t_name := "Police Patrol"; t_points := 15; t_ability := "Block an opponent's card"; t_ability_time := 30 |} ].

Definition card_of_template (t : char_template) : card :=
  Character (t_name t) (t_points t) (t_ability t) (t_ability_time t).

(** [3 if name in ["The Alibi", "The Witness"] else 2]. *)
Definition copies_of (t : char_template) : nat :=
  if bool_decide (t_name t ∈ ["The Alibi"; "The Witness"]) then 3 else 2.

(** [create_deck] up to the call of [random.shuffle]. *)
Definition deck_before_shuffle : list card :=
  flat_map (λ value, replicate 4 (Bottle (Z.of_nat value))) (seq 1 10)
  ++ flat_map (λ t, replicate (copies_of t) (card_of_template t)) CHARACTER_CARDS.

Definition create_deck (rng : list nat) : list card :=
  Py.shuffle rng deck_before_shuffle.

(** Number of copies of a card in a list. *)
Definition count_card (c : card) (l : list card) : nat :=
  length (filter (λ d, d = c) l).


(** ** Sessions *)

Inductive player_state := ACTIVE | INACTIVE | SKIPPED_TURN.

#[global] Instance player_state_eq_dec : EqDecision player_state.
Proof. solve_decision. Defined.

Inductive game_phase :=
| SETUP | JOINING | GANGSTER_ASSIGNMENT | WAIT_FOR_AL_CAPONE_CONTINUE
| DEALING_CARDS | VIEWING | PLAYING
| CHARACTER_ABILITY_TARGETING | CHARACTER_ABILITY_ACTION
| BOTTLE_MATCHING_WINDOW | OMERTA_CALLED | COMPLETED.

#[global] Instance game_phase_eq_dec : EqDecision game_phase.
Proof. solve_decision. Defined.

(** A player dictionary (the fields the engine reads or writes). *)
Record player := mk_player {
  p_id : player_id;
  p_hand : list card;
  p_viewed_card_indices : gset nat;
  p_status : player_state;
  p_join_time : Z;
  p_is_ai : bool;
  p_score_this_round : Z;
  p_cannot_call_omerta : bool }.

#[global] Instance player_eq_dec : EqDecision player.
Proof. solve_decision. Defined.

Definition set_hand (h : list card) (p : player) : player :=
  mk_player (p_id p) h (p_viewed_card_indices p) (p_status p) (p_join_time p)
    (p_is_ai p) (p_score_this_round p) (p_cannot_call_omerta p).
Definition set_viewed (v : gset nat) (p : player) : player :=
  mk_player (p_id p) (p_hand p) v (p_status p) (p_join_time p)
    (p_is_ai p) (p_score_this_round p) (p_cannot_call_omerta p).
Definition set_status (s : player_state) (p : player) : player :=
  mk_player (p_id p) (p_hand p) (p_viewed_card_indices p) s (p_join_time p)
    (p_is_ai p) (p_score_this_round p) (p_cannot_call_omerta p).
Definition set_score (z : Z) (p : player) : player :=
  mk_player (p_id p) (p_hand p) (p_viewed_card_indices p) (p_status p) (p_join_time p)
    (p_is_ai p) z (p_cannot_call_omerta p).
Definition set_cannot_call_omerta (b : bool) (p : player) : player :=
  mk_player (p_id p) (p_hand p) (p_viewed_card_indices p) (p_status p) (p_join_time p)
    (p_is_ai p) (p_score_this_round p) b.

(** The name of a scheduled job: its f-string prefix, the player it was
    made for (when the name carries one) and [int(time.time())]. *)
Record job_name := mk_job_name {
  job_prefix : string; job_player : option player_id; job_stamp : Z }.

(** An ability context dictionary. [ctx_obj] is the identity [id(ctx)] of
    the dictionary object; a deep copy is a new object with the same fields. *)
#[warnings="-register-all"]
Inductive ability_context := mk_ability_context {
  ctx_obj : positive;
  ctx_player_id : player_id;
  ctx_card_name : string;
  ctx_step : string;
  ctx_timeout_job_name : option job_name;
  ctx_targets_chosen : list player_id;
  ctx_cards_selected_indices : list nat;
  ctx_gangster_swap_type : option string;
  ctx_p1_id : option player_id;
  ctx_p1_card_idx : option nat;
  ctx_p2_id : option player_id;
  ctx_p2_card_idx : option nat;
  ctx_swap_count : option nat;
  ctx_original_ability_context_snapshot : option ability_context }.

(** A bottle-match context dictionary; [bc_obj] is its identity. *)
Record bottle_context := mk_bottle_context {
  bc_obj : positive;
  bc_discarded_card_value : option Z;
  bc_window_end_time : Z;
  bc_fastest_matcher_id : option player_id;
  bc_timeout_job_name : option job_name;
  bc_triggering_player_id : option player_id;
  bc_failed_matchers : gset player_id }.

(** [game['player_turn_context'][player_id]]. *)
Record turn_context := mk_turn_context {
  tc_drawn_card : option card;
  tc_draw_source : option string;
  tc_action : option string;
  tc_bottle_to_match_value : option Z }.

(** An entry of [game['final_scores_list']]. *)
Record final_score := mk_final_score {
  fs_id : player_id; fs_score : Z; fs_is_winner : bool; fs_is_ai : bool }.

(** The session dictionary of one chat. *)
Record game := mk_game {
  phase : game_phase;
  players : list player;
  ai_players : list player;
  deck : list card;
  discard_pile : list card;
  safe : list card;
  current_player_id : option player_id;
  al_capone_player_id : option player_id;
  turn_order : list player_id;
  cycle_count : Z;
  omerta_caller_id : option player_id;
  active_ability_context : option ability_context;
  bottle_match_context : option bottle_context;
  blocked_cards : gmap player_id (gmap nat Z);
  player_turn_context : gmap player_id turn_context;
  bottle_match_context_just_ended : bool;
  final_scores_list : option (list final_score) }.

(** Field updates, [game['field'] = v]. *)
Definition set_phase (v : game_phase) (g : game) : game :=
  mk_game v (players g) (ai_players g) (deck g) (discard_pile g) (safe g)
    (current_player_id g) (al_capone_player_id g) (turn_order g)
    (cycle_count g) (omerta_caller_id g) (active_ability_context g)
    (bottle_match_context g) (blocked_cards g) (player_turn_context g)
    (bottle_match_context_just_ended g) (final_scores_list g).
Definition set_players (v : list player) (g : game) : game :=
  mk_game (phase g) v (ai_players g) (deck g) (discard_pile g) (safe g)
    (current_player_id g) (al_capone_player_id g) (turn_order g)
    (cycle_count g) (omerta_caller_id g) (active_ability_context g)
    (bottle_match_context g) (blocked_cards g) (player_turn_context g)
    (bottle_match_context_just_ended g) (final_scores_list g).
Definition set_ai_players (v : list player) (g : game) : game :=
  mk_game (phase g) (players g) v (deck g) (discard_pile g) (safe g)
    (current_player_id g) (al_capone_player_id g) (turn_order g)
    (cycle_count g) (omerta_caller_id g) (active_ability_context g)
    (bottle_match_context g) (blocked_cards g) (player_turn_context g)
    (bottle_match_context_just_ended g) (final_scores_list g).
Definition set_deck (v : list card) (g : game) : game :=
  mk_game (phase g) (players g) (ai_players g) v (discard_pile g) (safe g)
    (current_player_id g) (al_capone_player_id g) (turn_order g)
    (cycle_count g) (omerta_caller_id g) (active_ability_context g)
    (bottle_match_context g) (blocked_cards g) (player_turn_context g)
    (bottle_match_context_just_ended g) (final_scores_list g).
Definition set_discard_pile (v : list card) (g : game) : game :=
  mk_game (phase g) (players g) (ai_players g) (deck g) v (safe g)
    (current_player_id g) (al_capone_player_id g) (turn_order g)
    (cycle_count g) (omerta_caller_id g) (active_ability_context g)
    (bottle_match_context g) (blocked_cards g) (player_turn_context g)
    (bottle_match_context_just_ended g) (final_scores_list g).
Definition set_safe (v : list card) (g : game) : game :=
  mk_game (phase g) (players g) (ai_players g) (deck g) (discard_pile g) v
    (current_player_id g) (al_capone_player_id g) (turn_order g)
    (cycle_count g) (omerta_caller_id g) (active_ability_context g)
    (bottle_match_context g) (blocked_cards g) (player_turn_context g)
    (bottle_match_context_just_ended g) (final_scores_list g).
Definition set_current_player_id (v : option player_id) (g : game) : game :=
  mk_game (phase g) (players g) (ai_players g) (deck g) (discard_pile g)
    (safe g) v (al_capone_player_id g) (turn_order g) (cycle_count g)
    (omerta_caller_id g) (active_ability_context g) (bottle_match_context g)
    (blocked_cards g) (player_turn_context g)
    (bottle_match_context_just_ended g) (final_scores_list g).
Definition set_turn_order (v : list player_id) (g : game) : game :=
  mk_game (phase g) (players g) (ai_players g) (deck g) (discard_pile g)
    (safe g) (current_player_id g) (al_capone_player_id g) v (cycle_count g)
    (omerta_caller_id g) (active_ability_context g) (bottle_match_context g)
    (blocked_cards g) (player_turn_context g)
    (bottle_match_context_just_ended g) (final_scores_list g).
Definition set_cycle_count (v : Z) (g : game) : game :=
  mk_game (phase g) (players g) (ai_players g) (deck g) (discard_pile g)
    (safe g) (current_player_id g) (al_capone_player_id g) (turn_order g) v
    (omerta_caller_id g) (active_ability_context g) (bottle_match_context g)
    (blocked_cards g) (player_turn_context g)
    (bottle_match_context_just_ended g) (final_scores_list g).
Definition set_omerta_caller_id (v : option player_id) (g : game) : game :=
  mk_game (phase g) (players g) (ai_players g) (deck g) (discard_pile g)
    (safe g) (current_player_id g) (al_capone_player_id g) (turn_order g)
    (cycle_count g) v (active_ability_context g) (bottle_match_context g)
    (blocked_cards g) (player_turn_context g)
    (bottle_match_context_just_ended g) (final_scores_list g).
Definition set_active_ability_context (v : option ability_context) (g : game) : game :=
  mk_game (phase g) (players g) (ai_players g) (deck g) (discard_pile g)
    (safe g) (current_player_id g) (al_capone_player_id g) (turn_order g)
    (cycle_count g) (omerta_caller_id g) v (bottle_match_context g)
    (blocked_cards g) (player_turn_context g)
    (bottle_match_context_just_ended g) (final_scores_list g).
Definition set_bottle_match_context (v : option bottle_context) (g : game) : game :=
  mk_game (phase g) (players g) (ai_players g) (deck g) (discard_pile g)
    (safe g) (current_player_id g) (al_capone_player_id g) (turn_order g)
    (cycle_count g) (omerta_caller_id g) (active_ability_context g) v
    (blocked_cards g) (player_turn_context g)
    (bottle_match_context_just_ended g) (final_scores_list g).
Definition set_blocked_cards (v : gmap player_id (gmap nat Z)) (g : game) : game :=
  mk_game (phase g) (players g) (ai_players g) (deck g) (discard_pile g)
    (safe g) (current_player_id g) (al_capone_player_id g) (turn_order g)
    (cycle_count g) (omerta_caller_id g) (active_ability_context g)
    (bottle_match_context g) v (player_turn_context g)
    (bottle_match_context_just_ended g) (final_scores_list g).
Definition set_player_turn_context (v : gmap player_id turn_context) (g : game) : game :=
  mk_game (phase g) (players g) (ai_players g) (deck g) (discard_pile g)
    (safe g) (current_player_id g) (al_capone_player_id g) (turn_order g)
    (cycle_count g) (omerta_caller_id g) (active_ability_context g)
    (bottle_match_context g) (blocked_cards g) v
    (bottle_match_context_just_ended g) (final_scores_list g).
Definition set_bottle_match_context_just_ended (v : bool) (g : game) : game :=
  mk_game (phase g) (players g) (ai_players g) (deck g) (discard_pile g)
    (safe g) (current_player_id g) (al_capone_player_id g) (turn_order g)
    (cycle_count g) (omerta_caller_id g) (active_ability_context g)
    (bottle_match_context g) (blocked_cards g) (player_turn_context g) v
    (final_scores_list g).
Definition set_final_scores_list (v : option (list final_score)) (g : game) : game :=
  mk_game (phase g) (players g) (ai_players g) (deck g) (discard_pile g)
    (safe g) (current_player_id g) (al_capone_player_id g) (turn_order g)
    (cycle_count g) (omerta_caller_id g) (active_ability_context g)
    (bottle_match_context g) (blocked_cards g) (player_turn_context g)
    (bottle_match_context_just_ended g) v.

(** [ctx['key'] = v]; deleting a key is setting it to [None]. *)
Definition ctx_set_obj (v : positive) (c : ability_context) : ability_context :=
  mk_ability_context v (ctx_player_id c) (ctx_card_name c) (ctx_step c)
    (ctx_timeout_job_name c) (ctx_targets_chosen c)
    (ctx_cards_selected_indices c) (ctx_gangster_swap_type c) (ctx_p1_id c)
    (ctx_p1_card_idx c) (ctx_p2_id c) (ctx_p2_card_idx c) (ctx_swap_count c)
    (ctx_original_ability_context_snapshot c).
Definition ctx_set_step (v : string) (c : ability_context) : ability_context :=
  mk_ability_context (ctx_obj c) (ctx_player_id c) (ctx_card_name c) v
    (ctx_timeout_job_name c) (ctx_targets_chosen c)
    (ctx_cards_selected_indices c) (ctx_gangster_swap_type c) (ctx_p1_id c)
    (ctx_p1_card_idx c) (ctx_p2_id c) (ctx_p2_card_idx c) (ctx_swap_count c)
    (ctx_original_ability_context_snapshot c).
Definition ctx_set_timeout_job_name (v : option job_name) (c : ability_context) : ability_context :=
  mk_ability_context (ctx_obj c) (ctx_player_id c) (ctx_card_name c)
    (ctx_step c) v (ctx_targets_chosen c) (ctx_cards_selected_indices c)
    (ctx_gangster_swap_type c) (ctx_p1_id c) (ctx_p1_card_idx c) (ctx_p2_id c)
    (ctx_p2_card_idx c) (ctx_swap_count c)
    (ctx_original_ability_context_snapshot c).
Definition ctx_set_targets_chosen (v : list player_id) (c : ability_context) : ability_context :=
  mk_ability_context (ctx_obj c) (ctx_player_id c) (ctx_card_name c)
    (ctx_step c) (ctx_timeout_job_name c) v (ctx_cards_selected_indices c)
    (ctx_gangster_swap_type c) (ctx_p1_id c) (ctx_p1_card_idx c) (ctx_p2_id c)
    (ctx_p2_card_idx c) (ctx_swap_count c)
    (ctx_original_ability_context_snapshot c).
Definition ctx_set_cards_selected_indices (v : list nat) (c : ability_context) : ability_context :=
  mk_ability_context (ctx_obj c) (ctx_player_id c) (ctx_card_name c)
    (ctx_step c) (ctx_timeout_job_name c) (ctx_targets_chosen c) v
    (ctx_gangster_swap_type c) (ctx_p1_id c) (ctx_p1_card_idx c) (ctx_p2_id c)
    (ctx_p2_card_idx c) (ctx_swap_count c)
    (ctx_original_ability_context_snapshot c).
Definition ctx_set_gangster_swap_type (v : option string) (c : ability_context) : ability_context :=
  mk_ability_context (ctx_obj c) (ctx_player_id c) (ctx_card_name c)
    (ctx_step c) (ctx_timeout_job_name c) (ctx_targets_chosen c)
    (ctx_cards_selected_indices c) v (ctx_p1_id c) (ctx_p1_card_idx c)
    (ctx_p2_id c) (ctx_p2_card_idx c) (ctx_swap_count c)
    (ctx_original_ability_context_snapshot c).
Definition ctx_set_p1_id (v : option player_id) (c : ability_context) : ability_context :=
  mk_ability_context (ctx_obj c) (ctx_player_id c) (ctx_card_name c)
    (ctx_step c) (ctx_timeout_job_name c) (ctx_targets_chosen c)
    (ctx_cards_selected_indices c) (ctx_gangster_swap_type c) v
    (ctx_p1_card_idx c) (ctx_p2_id c) (ctx_p2_card_idx c) (ctx_swap_count c)
    (ctx_original_ability_context_snapshot c).
Definition ctx_set_p1_card_idx (v : option nat) (c : ability_context) : ability_context :=
  mk_ability_context (ctx_obj c) (ctx_player_id c) (ctx_card_name c)
    (ctx_step c) (ctx_timeout_job_name c) (ctx_targets_chosen c)
    (ctx_cards_selected_indices c) (ctx_gangster_swap_type c) (ctx_p1_id c) v
    (ctx_p2_id c) (ctx_p2_card_idx c) (ctx_swap_count c)
    (ctx_original_ability_context_snapshot c).
Definition ctx_set_p2_id (v : option player_id) (c : ability_context) : ability_context :=
  mk_ability_context (ctx_obj c) (ctx_player_id c) (ctx_card_name c)
    (ctx_step c) (ctx_timeout_job_name c) (ctx_targets_chosen c)
    (ctx_cards_selected_indices c) (ctx_gangster_swap_type c) (ctx_p1_id c)
    (ctx_p1_card_idx c) v (ctx_p2_card_idx c) (ctx_swap_count c)
    (ctx_original_ability_context_snapshot c).
Definition ctx_set_p2_card_idx (v : option nat) (c : ability_context) : ability_context :=
  mk_ability_context (ctx_obj c) (ctx_player_id c) (ctx_card_name c)
    (ctx_step c) (ctx_timeout_job_name c) (ctx_targets_chosen c)
    (ctx_cards_selected_indices c) (ctx_gangster_swap_type c) (ctx_p1_id c)
    (ctx_p1_card_idx c) (ctx_p2_id c) v (ctx_swap_count c)
    (ctx_original_ability_context_snapshot c).
Definition ctx_set_swap_count (v : option nat) (c : ability_context) : ability_context :=
  mk_ability_context (ctx_obj c) (ctx_player_id c) (ctx_card_name c)
    (ctx_step c) (ctx_timeout_job_name c) (ctx_targets_chosen c)
    (ctx_cards_selected_indices c) (ctx_gangster_swap_type c) (ctx_p1_id c)
    (ctx_p1_card_idx c) (ctx_p2_id c) (ctx_p2_card_idx c) v
    (ctx_original_ability_context_snapshot c).
Definition bc_set_fastest_matcher_id (v : option player_id) (b : bottle_context) : bottle_context :=
  mk_bottle_context (bc_obj b) (bc_discarded_card_value b)
    (bc_window_end_time b) v (bc_timeout_job_name b)
    (bc_triggering_player_id b) (bc_failed_matchers b).
Definition bc_set_failed_matchers (v : gset player_id) (b : bottle_context) : bottle_context :=
  mk_bottle_context (bc_obj b) (bc_discarded_card_value b)
    (bc_window_end_time b) (bc_fastest_matcher_id b) (bc_timeout_job_name b)
    (bc_triggering_player_id b) v.

(** ** Effects *)

(** A button of an inline keyboard, by the callback data it carries. *)
Inductive button :=
| btn_select (purpose : string) (i : nat) (pid : player_id)
| btn_deselect (purpose : string) (i : nat) (pid : player_id)
| btn_no_action_card_blocked (i : nat) (pid : player_id)
| btn_no_action_max_selected (i : nat) (pid : player_id)
| btn_confirm (purpose : string) (pid : player_id)
| btn_cancel (data : string) (pid : player_id)
| btn_select_target (prefix : string) (target : player_id)
| btn_deselect_target (prefix : string) (target : player_id)
| btn_no_action_max_target_selected (target : player_id)
| btn_confirm_targets (prefix : string)
| btn_no_valid_targets
| btn_gangster_type_own (pid : player_id)
| btn_gangster_type_other (pid : player_id)
| btn_turn (action : string) (pid : player_id)
| btn_killer_activate (pid : player_id) (killer_context_signature : positive)
| btn_killer_decline (pid : player_id) (killer_context_signature : positive)
| btn_main_new_game.

#[global] Instance button_eq_dec : EqDecision button.
Proof. solve_decision. Defined.

(** The [data] of a scheduled job. *)
Inductive job_data :=
| character_ability_timeout_job_data (expected_context_signature : option positive)
| end_bottle_match_window_job_data (expected_bottle_ctx_signature : option positive)
| ai_attempt_bottle_match_job_data (ai_player_id : player_id)
    (ai_card_idx_to_match : nat) (expected_bottle_ctx_signature : positive).

(** What a handler sends out.  [send_message None] goes to the group chat;
    [send_keyboard] is a private message with a [reply_markup],
    [send_group_keyboard] a message to the group chat with one.  The last
    two are the awaited calls into the turn engine, which the handlers below
    end with. *)
Inductive effect :=
| send_message (to : option player_id) (text : string)
| send_keyboard (to : player_id) (text : string) (kbd : list button)
| send_group_keyboard (text : string) (kbd : list button)
| run_once (name : job_name) (delay : Z) (data : job_data)
| cancel_job (name : option job_name)
| update_player_stats (scores : list final_score)
| advance_turn_or_continue_sequence
| process_discarded_card (pid : player_id) (c : card).

Definition result : Type := game * list effect.

(** ** [game/core/state.py]: players, scores, dealing *)

Definition all_participants (g : game) : list player :=
  players g ++ ai_players g.

Definition has_id (pid : player_id) (p : player) : bool :=
  bool_decide (p_id p = pid).

(** [get_player_by_id]: the first dictionary with that id, humans first. *)
Definition get_player_by_id (g : game) (pid : player_id) : option player :=
  List.find (has_id pid) (all_participants g).

(** A write through the reference [get_player_by_id] returned. *)
Fixpoint update_first (pid : player_id) (f : player → player)
    (l : list player) : list player :=
  match l with
  | [] => []
  | p :: l' => if has_id pid p then f p :: l' else p :: update_first pid f l'
  end.

Definition update_player (pid : player_id) (f : player → player) (g : game) : game :=
  if existsb (has_id pid) (players g)
  then set_players (update_first pid f (players g)) g
  else set_ai_players (update_first pid f (ai_players g)) g.

(** [calculate_score_for_hand]. *)
Definition calculate_score_for_hand (hand : list card) : Z :=
  foldr (λ c acc, card_points c + acc)%Z 0%Z hand.

(** [[deck.pop() for _ in range(n)]] and the deck left. *)
Fixpoint pop_n (n : nat) (d : list card) : list card * list card :=
  match n with
  | 0 => ([], d)
  | S n' =>
      match Py.pop d with
      | Some (c, d') => let '(cs, d'') := pop_n n' d' in (c :: cs, d'')
      | None => ([], d)
      end
  end.

Definition deal_hand (d : list card) (p : player) : list card * player :=
  if decide (HAND_CARDS_COUNT ≤ length d)
  then let '(h, d') := pop_n HAND_CARDS_COUNT d in (d', set_hand h p)
  else (d, set_hand [] p).

Fixpoint deal_hands (d : list card) (ps : list player) : list card * list player :=
  match ps with
  | [] => (d, [])
  | p :: ps' =>
      let '(d1, p') := deal_hand d p in
      let '(d2, ps'') := deal_hands d1 ps' in
      (d2, p' :: ps'')
  end.

(** [deal_cards_to_players]; the boolean is the value returned. *)
Definition deal_cards_to_players (rng : list nat) (g : game) : game * bool :=
  let g := set_deck (create_deck rng) g in
  if negb (Py.nonempty (all_participants g)) then (g, false) else
  let '(d1, humans) := deal_hands (deck g) (players g) in
  let '(d2, ais) := deal_hands d1 (ai_players g) in
  let '(safe_cards, d3) :=
    if decide (SAFE_CARDS_COUNT ≤ length d2) then pop_n SAFE_CARDS_COUNT d2 else ([], d2) in
  let g := set_cycle_count 0 (set_discard_pile [] (set_safe safe_cards
             (set_deck d3 (set_ai_players ais (set_players humans g))))) in
  let order :=
    if truthy_opt (al_capone_player_id g) then
      match al_capone_player_id g with
      | Some ac_id =>
          option_list (get_player_by_id g ac_id)
          ++ Py.sorted p_join_time (filter (λ p, p_id p ≠ ac_id) (all_participants g))
      | None => []
      end
    else Py.sorted p_join_time (all_participants g) in
  let g := set_turn_order (p_id <$> order) g in
  match order with
  | first :: _ => (set_current_player_id (Some (p_id first)) g, true)
  | [] => (g, false)
  end.

(** ** [simple_bot.py]: Omerta settlement *)

Definition round_is_over (ph : game_phase) : bool :=
  bool_decide (ph ∈ [OMERTA_CALLED; COMPLETED]).

(** [p.get('status') == ACTIVE or p.get('id') == caller_id]. *)
Definition active_or_caller (caller_id : option player_id) (p : player) : bool :=
  bool_decide (p_status p = ACTIVE) || bool_decide (Some (p_id p) = caller_id).

(** The scoring loop over all participants: the hand value, or 999 for a
    participant who is neither active nor the caller. *)
Definition score_participant (caller_id : option player_id) (p : player) : player :=
  let hand_value := calculate_score_for_hand (p_hand p) in
  if negb (bool_decide (p_status p = ACTIVE))
     && negb (bool_decide (Some (p_id p) = caller_id))
  then set_score 999 p
  else set_score hand_value p.

(** [sorted(eligible_for_win, key=score)[0]]. *)
Definition lowest_scorer (eligible_for_win : list player) : option player :=
  head (Py.sorted p_score_this_round eligible_for_win).

(** The test of a perfect call: the caller heads the sorted list and is at
    or below the threshold. *)
Definition omerta_call_succeeds (eligible_for_win : list player) (caller : player) : bool :=
  match lowest_scorer eligible_for_win with
  | Some actual_lowest_scorer =>
      bool_decide (p_id caller = p_id actual_lowest_scorer)
      && (p_score_this_round caller <=? OMERTA_THRESHOLD)%Z
  | None => false
  end.

(** [caller_player_obj['score_this_round'] = caller_score + OMERTA_PENALTY],
    seen through the list that holds the same dictionary. *)
Definition apply_penalty (caller : player) (l : list player) : list player :=
  update_first (p_id caller)
    (set_score (p_score_this_round caller + OMERTA_PENALTY)%Z) l.

(** "Determine winner and apply Omerta penalty": the winner and whether the
    caller was penalised. *)
Definition determine_winner (eligible_for_win : list player)
    (caller_player_obj : option player) : option player * bool :=
  if negb (Py.nonempty eligible_for_win) then (None, false) else
  match caller_player_obj with
  | Some caller =>
      if bool_decide (caller ∈ eligible_for_win) then
        if omerta_call_succeeds eligible_for_win caller
        then (Some caller, false)
        else (lowest_scorer (apply_penalty caller eligible_for_win), true)
      else (lowest_scorer eligible_for_win, false)
  | None => (lowest_scorer eligible_for_win, false)
  end.

(** The participants the win is decided among. *)
Definition eligible_for_win (caller_id : option player_id)
    (caller_player_obj : option player) (all_participants_at_end : list player)
    : list player :=
  let active_players_for_scoring :=
    List.filter (active_or_caller caller_id) all_participants_at_end in
  let active_players_for_scoring :=
    if negb (Py.nonempty active_players_for_scoring) && truthy_opt caller_id then
      match caller_player_obj with
      | Some c =>
          if bool_decide (c ∈ active_players_for_scoring)
          then active_players_for_scoring
          else active_players_for_scoring ++ [c]
      | None => active_players_for_scoring
      end
    else active_players_for_scoring in
  let active_players_for_scoring :=
    if Py.nonempty active_players_for_scoring
    then active_players_for_scoring
    else all_participants_at_end in
  List.filter (active_or_caller caller_id) active_players_for_scoring.

Definition final_scores (winner_id_for_db : option player_id) (ps : list player)
    : list final_score :=
  (λ p, mk_final_score (p_id p) (p_score_this_round p)
          (bool_decide (Some (p_id p) = winner_id_for_db)) (p_is_ai p)) <$> ps.

(** "Cancel any ongoing ability timeouts or bottle matching": a context is
    dropped when it names a timeout job. *)
Definition cancel_pending_contexts (g : game) : result :=
  let '(g, e1) :=
    match active_ability_context g ≫= ctx_timeout_job_name with
    | Some n => (set_active_ability_context None g, [cancel_job (Some n)])
    | None => (g, [])
    end in
  let '(g, e2) :=
    match bottle_match_context g ≫= bc_timeout_job_name with
    | Some n => (set_bottle_match_context None g, [cancel_job (Some n)])
    | None => (g, [])
    end in
  (g, e1 ++ e2).

Definition score_all (caller_id : option player_id) (g : game) : game :=
  set_ai_players (score_participant caller_id <$> ai_players g)
    (set_players (score_participant caller_id <$> players g) g).

(** Scoring, the winner and the caller's penalty: the session with the
    final scores and [winner_obj]. *)
Definition settle_round (caller_id : option player_id) (g : game) : game * option player :=
  let g := score_all caller_id g in
  let caller_player_obj :=
    if truthy_opt caller_id then caller_id ≫= get_player_by_id g else None in
  let '(winner_obj, penalised) :=
    determine_winner
      (eligible_for_win caller_id caller_player_obj (all_participants g))
      caller_player_obj in
  match caller_player_obj with
  | Some caller =>
      if penalised
      then (update_player (p_id caller)
              (set_score (p_score_this_round caller + OMERTA_PENALTY)%Z) g, winner_obj)
      else (g, winner_obj)
  | None => (g, winner_obj)
  end.

(** [get_play_again_keyboard] of [bot/keyboards.py]. *)
Definition get_play_again_keyboard : list button := [btn_main_new_game].

(** [handle_omerta_call(chat_id, context, caller_id, ...)].  The two
    [forced_by_*] flags only choose the announcement. *)
Definition handle_omerta_call (caller_id : option player_id) (g : game) : result :=
  if round_is_over (phase g) then (g, []) else
  let '(g, e) := cancel_pending_contexts g in
  let g := set_omerta_caller_id caller_id (set_phase OMERTA_CALLED g) in
  let '(g, winner_obj) := settle_round caller_id g in
  let scores := final_scores (p_id <$> winner_obj) (all_participants g) in
  (set_phase COMPLETED (set_final_scores_list (Some scores) g),
   e ++ [send_message None "OMERTA CALLED!";
         send_message None "Final Scores & Hands:";
         update_player_stats scores;
         send_group_keyboard "The round has concluded. Wanna play another hand, boss?"
           get_play_again_keyboard]).

(** ** [simple_bot.py]: the bottle-match window *)

(** The branch [handle_bottle_match_attempt] takes, as its log lines name it. *)
Inductive attempt_outcome :=
| att_window_closed
| att_already_claimed
| att_already_failed
| att_invalid_index
| att_matched (c : card)
| att_failed (c : card).

#[global] Instance attempt_outcome_eq_dec : EqDecision attempt_outcome.
Proof. solve_decision. Defined.

(** The validation checks and the match test, in the order of the source. *)
Definition classify_attempt (g : game) (pid : player_id) (card_idx_to_discard : nat)
    : attempt_outcome :=
  match get_player_by_id g pid, bottle_match_context g with
  | Some player_data, Some bottle_context =>
      if negb (bool_decide (phase g = BOTTLE_MATCHING_WINDOW)) then att_window_closed
      else if truthy_opt (bc_fastest_matcher_id bottle_context) then att_already_claimed
      else if bool_decide (pid ∈ bc_failed_matchers bottle_context) then att_already_failed
      else
        match p_hand player_data !! card_idx_to_discard with
        | None => att_invalid_index
        | Some card_to_match_with =>
            if is_bottle card_to_match_with
               && bool_decide (card_value card_to_match_with
                               = bc_discarded_card_value bottle_context)
            then att_matched card_to_match_with
            else att_failed card_to_match_with
        end
  | _, _ => att_window_closed
  end.

Definition update_bottle_context (f : bottle_context → bottle_context) (g : game) : game :=
  set_bottle_match_context (f <$> bottle_match_context g) g.

(** [deck.pop()] into the hand of [pid], when the deck is not empty. *)
Definition draw_penalty_card (pid : player_id) (g : game) : game :=
  match Py.pop (deck g) with
  | Some (penalty_card, d) =>
      update_player pid (λ p, set_hand (p_hand p ++ [penalty_card]) p) (set_deck d g)
  | None => g
  end.

(** The handler up to its first [await] after the checks: on a match the
    winner is written into the context, the window's timer is cancelled and
    the card moves to the discard pile; on a failure the player joins
    [failed_matchers] and draws the penalty card. *)
Definition bottle_match_attempt_step (pid : player_id) (card_idx_to_discard : nat)
    (g : game) : result :=
  match classify_attempt g pid card_idx_to_discard with
  | att_matched matched_card_object =>
      let timeout := bottle_match_context g ≫= bc_timeout_job_name in
      let g := update_bottle_context (bc_set_fastest_matcher_id (Some pid)) g in
      let g := update_player pid (λ p, set_hand (delete card_idx_to_discard (p_hand p)) p) g in
      (set_discard_pile (discard_pile g ++ [matched_card_object]) g, [cancel_job timeout])
  | att_failed _ =>
      let g := update_bottle_context
                 (λ b, bc_set_failed_matchers ({[pid]} ∪ bc_failed_matchers b) b) g in
      (draw_penalty_card pid g, [])
  | _ => (g, [])
  end.

(** The end of the success branch, after the notifications: the window is
    closed and the turn engine resumes from the discarder.
    [bottle_context] is the handler's local reference. *)
Definition close_matched_window (bottle_context : bottle_context) (g : game) : result :=
  let triggering_player_id := bc_triggering_player_id bottle_context in
  (set_current_player_id triggering_player_id
     (set_bottle_match_context_just_ended true (set_bottle_match_context None g)),
   [advance_turn_or_continue_sequence]).

(** [handle_bottle_match_attempt(game, context, player_id, card_idx, is_ai)]. *)
Definition handle_bottle_match_attempt (pid : player_id) (card_idx_to_discard : nat)
    (g : game) : result :=
  let '(g1, e1) := bottle_match_attempt_step pid card_idx_to_discard g in
  match classify_attempt g pid card_idx_to_discard, bottle_match_context g with
  | att_matched _, Some bottle_context =>
      let '(g2, e2) := close_matched_window bottle_context g1 in
      (g2, e1 ++ [send_message None "Quick draw!"] ++ e2)
  | att_failed _, _ => (g1, e1 ++ [send_message None "tried to match but failed!"])
  | _, _ => (g1, e1)
  end.

(** [end_bottle_match_window_job]; [expected] is
    [job_data.get('expected_bottle_ctx_signature')]. *)
Definition end_bottle_match_window_job (expected : option positive) (g : game) : result :=
  match bottle_match_context g with
  | None => (g, [])
  | Some current_bottle_ctx =>
      if negb (bool_decide (phase g = BOTTLE_MATCHING_WINDOW))
         || match expected with
            | Some sig => negb (bool_decide (bc_obj current_bottle_ctx = sig))
            | None => false
            end
      then (g, [])
      else
        let triggering_player_id := bc_triggering_player_id current_bottle_ctx in
        let g := set_bottle_match_context_just_ended true
                   (set_bottle_match_context None g) in
        let g := if truthy_opt triggering_player_id
                 then set_current_player_id triggering_player_id g else g in
        ((g, (if truthy_opt (bc_fastest_matcher_id current_bottle_ctx) then []
              else [send_message None "Bottle matching window closed."])
             ++ [advance_turn_or_continue_sequence]))
  end.

(** [ai_attempt_bottle_match_job]. *)
Definition ai_attempt_bottle_match_job (ai_player_id : player_id)
    (ai_card_idx_to_match : nat) (expected_bottle_ctx_signature : positive)
    (g : game) : result :=
  if negb (bool_decide (phase g = BOTTLE_MATCHING_WINDOW)) then (g, []) else
  match bottle_match_context g with
  | None => (g, [])
  | Some current_bottle_ctx =>
      if negb (bool_decide (bc_obj current_bottle_ctx = expected_bottle_ctx_signature))
      then (g, [])
      else if truthy_opt (bc_fastest_matcher_id current_bottle_ctx) then (g, [])
      else handle_bottle_match_attempt ai_player_id ai_card_idx_to_match g
  end.

(** ** [bot/keyboards.py] *)

Definition nonempty_string (s : string) : bool := negb (String.eqb s EmptyString).

(** [x if x else d] for an optional string: [None] and the empty string
    give [d]. *)
Definition given_or (d : string) (x : option string) : string :=
  match x with
  | Some s => if nonempty_string s then s else d
  | None => d
  end.

(** [get_card_selection_keyboard]: one button per hand position, then the
    action row.  [facedown] only changes the labels. *)
Definition card_button (purpose_prefix : string) (pid : player_id)
    (num_to_select : nat) (currently_selected_indices : list nat)
    (blocked_card_indices : gset nat) (i : nat) : button :=
  if bool_decide (i ∈ blocked_card_indices) then btn_no_action_card_blocked i pid
  else if bool_decide (i ∈ currently_selected_indices) then btn_deselect purpose_prefix i pid
  else if bool_decide (num_to_select ≤ length currently_selected_indices)
          && bool_decide (0 < num_to_select)
       then btn_no_action_max_selected i pid
  else btn_select purpose_prefix i pid.

Definition get_card_selection_keyboard (purpose_prefix : string)
    (player_hand : list card) (player_id_context : player_id)
    (num_to_select min_to_select : nat) (currently_selected_indices : list nat)
    (allow_cancel : bool) (cancel_callback_data : option string)
    (blocked_card_indices : gset nat) : list button :=
  (card_button purpose_prefix player_id_context num_to_select
     currently_selected_indices blocked_card_indices <$> seq 0 (length player_hand))
  ++ (if bool_decide (0 < num_to_select)
         && bool_decide (min_to_select ≤ length currently_selected_indices)
         && bool_decide (length currently_selected_indices ≤ num_to_select)
      then [btn_confirm purpose_prefix player_id_context] else [])
  ++ (if allow_cancel
      then [btn_cancel (given_or (purpose_prefix +:+ "_cancel_overall") cancel_callback_data)
              player_id_context]
      else []).

(** The positions a keyboard lets the player pick. *)
Definition selectable (kbd : list button) (i : nat) : bool :=
  existsb (λ b, match b with btn_select _ j _ => bool_decide (i = j) | _ => false end) kbd.

(** [get_target_player_keyboard]; [None] for [already_selected_targets] is
    the empty list. *)
Definition get_target_player_keyboard (g : game) (ability_user_id : player_id)
    (prefix : string) (max_targets min_targets : nat)
    (already_selected_targets : list player_id) (exclude_ids : option (list player_id))
    (cancel_callback_data : option string) : list button :=
  let current_exclude_ids := default [] exclude_ids in
  let current_exclude_ids :=
    if bool_decide (ability_user_id ∈ current_exclude_ids) then current_exclude_ids
    else current_exclude_ids ++ [ability_user_id] in
  let potential_targets :=
    List.filter (λ p, negb (bool_decide (p_id p ∈ current_exclude_ids))
                      && bool_decide (p_status p = ACTIVE)) (all_participants g) in
  ((λ p, if bool_decide (p_id p ∈ already_selected_targets)
         then btn_deselect_target prefix (p_id p)
         else if bool_decide (max_targets ≤ length already_selected_targets)
         then btn_no_action_max_target_selected (p_id p)
         else btn_select_target prefix (p_id p)) <$> potential_targets)
  ++ (if Py.nonempty potential_targets then [] else [btn_no_valid_targets])
  ++ (if bool_decide (min_targets ≤ length already_selected_targets)
         && bool_decide (length already_selected_targets ≤ max_targets)
         && bool_decide (0 < length already_selected_targets)
      then [btn_confirm_targets prefix] else [])
  ++ [btn_cancel (given_or (prefix +:+ "_overall_cancel") cancel_callback_data)
        ability_user_id].

Definition get_gangster_action_type_keyboard (pid : player_id) : list button :=
  [btn_gangster_type_own pid; btn_gangster_type_other pid;
   btn_cancel "ability_gangster_overall_cancel" pid].

(** [set(game.get('blocked_cards', {}).get(key, {}).keys())]. *)
Definition blocked_indices (g : game) (key : player_id) : gset nat :=
  dom (default ∅ (blocked_cards g !! key)).

(** ** [simple_bot.py]: ability effects *)

(** [game['active_ability_context'] = None; await advance_turn_or_continue_sequence(...)]. *)
Definition finish_ability (g : game) : result :=
  (set_active_ability_context None g, [advance_turn_or_continue_sequence]).

(** [execute_the_mole_ability]. *)
Definition execute_the_mole_ability (mole_player_id : player_id)
    (card_idx_to_view : nat) (g : game) : result :=
  match get_player_by_id g mole_player_id with
  | None => finish_ability g
  | Some mole_player =>
      if bool_decide (card_idx_to_view < length (p_hand mole_player))
      then finish_ability
             (update_player mole_player_id
                (λ p, set_viewed ({[card_idx_to_view]} ∪ p_viewed_card_indices p) p) g)
      else finish_ability g
  end.

(** [execute_the_lady_ability]; [rng] feeds [random.shuffle]. *)
Definition execute_the_lady_ability (rng : list nat) (lady_player_id target_player_id : player_id)
    (g : game) : result :=
  match get_player_by_id g lady_player_id, get_player_by_id g target_player_id with
  | Some _, Some target_player =>
      if Py.nonempty (p_hand target_player)
      then finish_ability
             (update_player target_player_id
                (λ p, set_viewed ∅ (set_hand (Py.shuffle rng (p_hand p)) p)) g)
      else finish_ability g
  | _, _ => finish_ability g
  end.

(** [execute_the_mamma_ability]. *)
Definition execute_the_mamma_ability (mamma_player_id target_player_id : player_id)
    (g : game) : result :=
  match get_player_by_id g mamma_player_id, get_player_by_id g target_player_id with
  | Some _, Some _ =>
      finish_ability
        (update_player target_player_id
           (λ p, set_cannot_call_omerta true (set_status SKIPPED_TURN p)) g)
  | _, _ => finish_ability g
  end.

(** The loop of [execute_the_snitch_ability] over the targets: an unknown
    target is skipped, an empty deck ends the loop. *)
Fixpoint snitch_give (target_player_ids : list player_id) (g : game) : game :=
  match target_player_ids with
  | [] => g
  | target_id :: rest =>
      match get_player_by_id g target_id with
      | None => snitch_give rest g
      | Some _ =>
          match Py.pop (deck g) with
          | Some (card_to_give, d) =>
              snitch_give rest
                (update_player target_id
                   (λ p, set_hand (p_hand p ++ [card_to_give]) p) (set_deck d g))
          | None => g
          end
      end
  end.

Definition execute_the_snitch_ability (snitch_player_id : player_id)
    (target_player_ids : list player_id) (g : game) : result :=
  match get_player_by_id g snitch_player_id with
  | None => finish_ability g
  | Some _ => finish_ability (snitch_give target_player_ids g)
  end.

(** [execute_police_patrol_ability]: the block is stored under
    [str(target_player_id)] for two cycles. *)
Definition execute_police_patrol_ability (police_player_id target_player_id : player_id)
    (target_card_idx : nat) (g : game) : result :=
  match get_player_by_id g police_player_id, get_player_by_id g target_player_id with
  | Some _, Some target_player =>
      if bool_decide (target_card_idx < length (p_hand target_player)) then
        let target_player_id_str := str target_player_id in
        let blocked_map := default ∅ (blocked_cards g !! target_player_id_str) in
        finish_ability
          (set_blocked_cards
             (<[target_player_id_str := <[target_card_idx := 2%Z]> blocked_map]>
                (blocked_cards g)) g)
      else finish_ability g
  | _, _ => finish_ability g
  end.

(** [execute_gangster_swap]; the swap details are those the caller found
    complete. *)
Definition execute_gangster_swap (gangster_player_id : player_id)
    (swap_type : option string) (p1_id : player_id) (p1_idx : nat)
    (p2_id : player_id) (p2_idx : nat) (g : game) : result :=
  match get_player_by_id g gangster_player_id,
        get_player_by_id g p1_id, get_player_by_id g p2_id with
  | Some _, Some p1, Some p2 =>
      let g :=
        match p_hand p1 !! p1_idx, p_hand p2 !! p2_idx with
        | Some card_from_p1, Some card_from_p2 =>
            let g := update_player p1_id
                       (λ p, set_hand (<[p1_idx := card_from_p2]> (p_hand p)) p) g in
            let g := update_player p2_id
                       (λ p, set_hand (<[p2_idx := card_from_p1]> (p_hand p)) p) g in
            if bool_decide (swap_type = Some "own_vs_other") then
              if bool_decide (p1_id = gangster_player_id)
              then update_player p1_id
                     (λ p, set_viewed ({[p1_idx]} ∪ p_viewed_card_indices p) p) g
              else if bool_decide (p2_id = gangster_player_id)
              then update_player p2_id
                     (λ p, set_viewed ({[p2_idx]} ∪ p_viewed_card_indices p) p) g
              else g
            else
              update_player p2_id
                (λ p, set_viewed (p_viewed_card_indices p ∖ {[p2_idx]}) p)
                (update_player p1_id
                   (λ p, set_viewed (p_viewed_card_indices p ∖ {[p1_idx]}) p) g)
        | _, _ => g
        end in
      match active_ability_context g with
      | Some ability_ctx =>
          let n := S (default 0 (ctx_swap_count ability_ctx)) in
          let ability_ctx := ctx_set_swap_count (Some n) ability_ctx in
          if bool_decide (n < 2) then
            let ability_ctx :=
              ctx_set_step "gangster_select_action_type"
                (ctx_set_p2_card_idx None (ctx_set_p2_id None
                   (ctx_set_p1_card_idx None (ctx_set_p1_id None
                      (ctx_set_gangster_swap_type None ability_ctx))))) in
            (set_active_ability_context (Some ability_ctx) g,
             [send_keyboard gangster_player_id "First swap complete."
                (get_gangster_action_type_keyboard gangster_player_id)])
          else finish_ability g
      | None => (g, [advance_turn_or_continue_sequence])
      end
  | _, _, _ => finish_ability g
  end.




(** [execute_safecracker_exchange]. *)
Definition execute_safecracker_exchange (safecracker_player_id : player_id)
    (safe_card_idx_to_take hand_card_idx_to_give : nat) (g : game) : result :=
  match get_player_by_id g safecracker_player_id with
  | None => finish_ability g
  | Some safecracker_player =>
      match p_hand safecracker_player !! hand_card_idx_to_give,
            safe g !! safe_card_idx_to_take with
      | Some card_from_hand, Some card_from_safe =>
          finish_ability
            (set_safe (<[safe_card_idx_to_take := card_from_hand]> (safe g))
               (update_player safecracker_player_id
                  (λ p, set_viewed ({[hand_card_idx_to_give]} ∪ p_viewed_card_indices p)
                          (set_hand (<[hand_card_idx_to_give := card_from_safe]> (p_hand p)) p))
                  g))
      | _, _ => finish_ability g
      end
  end.

(** ** [simple_bot.py]: the Killer interrupt *)

(** [next((c for c in CHARACTER_CARDS if c['name'] == name), None)] and its
    [ability_time], 20 when there is no such card. *)
Definition ability_time_of (name : string) : Z :=
  match List.find (λ t, String.eqb (t_name t) name) CHARACTER_CARDS with
  | Some t => t_ability_time t
  | None => 20
  end.

(** The two tests of "Specific Resumption Logic" on the step's name. *)
Definition is_final_confirmation_step (original_step : string) : bool :=
  Py.contains "_confirm_target" original_step
  || Py.contains "_confirm_swap" original_step
  || Py.contains "_confirmed_block_target" original_step.

Definition is_selection_step (original_step : string) : bool :=
  Py.endswith original_step "_select_target"
  || Py.endswith original_step "_select_targets"
  || Py.endswith original_step "_select_own_card"
  || Py.endswith original_step "_select_opponent_card"
  || Py.startswith original_step "gangster_others_select_".

(** [reschedule_original_timeout_for_resumed_step]. *)
Definition reschedule_original_timeout_for_resumed_step (now : Z)
    (resuming_ability_ctx : ability_context) (g : game) : result :=
  let new_timeout_job_name :=
    mk_job_name "ability_timeout_RESUMED" (Some (ctx_player_id resuming_ability_ctx)) now in
  (set_active_ability_context
     (Some (ctx_set_timeout_job_name (Some new_timeout_job_name) resuming_ability_ctx)) g,
   [run_once new_timeout_job_name (ability_time_of (ctx_card_name resuming_ability_ctx))
      (character_ability_timeout_job_data (Some (ctx_obj resuming_ability_ctx)))]).

(** The fizzle of an ability the resumption cannot place. *)
Definition fizzle (text : string) (original_player_id : player_id) (g : game) : result :=
  (set_active_ability_context None g,
   [send_message (Some original_player_id) text; advance_turn_or_continue_sequence]).

(** [resume_original_ability_after_killer_interaction]. *)
Definition resume_original_ability_after_killer_interaction (rng : list nat) (now : Z)
    (original_ability_ctx_snapshot : ability_context) (g : game) : result :=
  let g := set_active_ability_context (Some original_ability_ctx_snapshot) g in
  let resuming_ability_ctx := original_ability_ctx_snapshot in
  let original_ability_name := ctx_card_name resuming_ability_ctx in
  let original_player_id := ctx_player_id resuming_ability_ctx in
  let original_step := ctx_step resuming_ability_ctx in
  let targets := ctx_targets_chosen resuming_ability_ctx in
  if negb (nonempty_string original_ability_name && truthy original_player_id
           && nonempty_string original_step
           && bool_decide (is_Some (get_player_by_id g original_player_id)))
  then finish_ability g
  else if is_final_confirmation_step original_step then
    match original_ability_name, targets, ctx_cards_selected_indices resuming_ability_ctx with
    | "The Lady", target :: _, _ =>
        execute_the_lady_ability rng original_player_id target g
    | "The Mamma", target :: _, _ =>
        execute_the_mamma_ability original_player_id target g
    | "The Snitch", _ :: _, _ =>
        execute_the_snitch_ability original_player_id targets g
    | "Police Patrol", target :: _, card_idx :: _ =>
        execute_police_patrol_ability original_player_id target card_idx g
    | "The Gangster", _, _ =>
        match ctx_p1_id resuming_ability_ctx, ctx_p1_card_idx resuming_ability_ctx,
              ctx_p2_id resuming_ability_ctx, ctx_p2_card_idx resuming_ability_ctx with
        | Some p1, Some i1, Some p2, Some i2 =>
            if truthy p1 && truthy p2
            then execute_gangster_swap original_player_id
                   (ctx_gangster_swap_type resuming_ability_ctx) p1 i1 p2 i2 g
            else fizzle "Flow was interrupted." original_player_id g
        | _, _, _, _ => fizzle "Flow was interrupted." original_player_id g
        end
    | _, _, _ => fizzle "Flow was interrupted." original_player_id g
    end
  else if is_selection_step original_step then
    let again := send_message (Some original_player_id) "Please make your selection again." in
    let reprompt (ctx : ability_context) (text : string) (kbd : list button) : result :=
      let '(g, e) := reschedule_original_timeout_for_resumed_step now ctx g in
      (g, [again; send_keyboard original_player_id text kbd] ++ e) in
    match original_ability_name with
    | "The Lady" =>
        reprompt (ctx_set_targets_chosen [] (ctx_set_step "lady_select_target" resuming_ability_ctx))
          "Resuming The Lady: Choose opponent to shuffle:"
          (get_target_player_keyboard g original_player_id "ability_lady_target" 1 1 [] None
             (Some "ability_lady_overall_cancel"))
    | "The Mamma" =>
        reprompt (ctx_set_targets_chosen [] (ctx_set_step "mamma_select_target" resuming_ability_ctx))
          "Resuming The Mamma: Choose player to skip:"
          (get_target_player_keyboard g original_player_id "ability_mamma_target" 1 1 [] None
             (Some "ability_mamma_overall_cancel"))
    | "The Snitch" =>
        reprompt (ctx_set_targets_chosen [] (ctx_set_step "snitch_select_targets" resuming_ability_ctx))
          "Resuming The Snitch: Choose 1 or 2 players:"
          (get_target_player_keyboard g original_player_id "ability_snitch_target" 2 1 [] None
             (Some "ability_snitch_overall_cancel"))
    | "Police Patrol" =>
        reprompt (ctx_set_cards_selected_indices [] (ctx_set_targets_chosen []
                    (ctx_set_step "police_select_target_player" resuming_ability_ctx)))
          "Resuming Police Patrol: Choose opponent to target:"
          (get_target_player_keyboard g original_player_id "ability_police_player" 1 1 [] None
             (Some "ability_police_overall_cancel"))
    | "The Gangster" =>
        reprompt (ctx_set_cards_selected_indices [] (ctx_set_targets_chosen []
                    (ctx_set_p2_card_idx None (ctx_set_p2_id None
                       (ctx_set_p1_card_idx None (ctx_set_p1_id None
                          (ctx_set_gangster_swap_type None
                             (ctx_set_step "gangster_select_action_type"
                                resuming_ability_ctx))))))))
          "Resuming The Gangster: What's your play?"
          (get_gangster_action_type_keyboard original_player_id)
    | _ =>
        let '(g, e) := fizzle "It may not complete as expected." original_player_id g in
        (g, again :: e)
    end
  else
    let '(g, e) :=
      fizzle "could not be resumed from its current state. The effect is lost."
        original_player_id g in
    (set_current_player_id (Some original_player_id) g, e).

(** [character_ability_timeout_job]; [expected] is
    [job_data.get('expected_context_signature')]. *)
Definition character_ability_timeout_job (rng : list nat) (now : Z)
    (expected : option positive) (g : game) : result :=
  match active_ability_context g with
  | None => (g, [])
  | Some current_active_ability_ctx =>
      if negb (bool_decide (Some (ctx_obj current_active_ability_ctx) = expected))
      then (g, [])
      else
        let ability_name := ctx_card_name current_active_ability_ctx in
        let original_snapshot :=
          if String.eqb ability_name "The Killer"
          then ctx_original_ability_context_snapshot current_active_ability_ctx
          else None in
        let g := set_active_ability_context None g in
        let '(g, e) :=
          match original_snapshot with
          | Some snapshot =>
              resume_original_ability_after_killer_interaction rng now snapshot g
          | None => (g, [advance_turn_or_continue_sequence])
          end in
        (g, send_message None "ran out of time" :: e)
  end.

(** [copy.deepcopy(ctx)]: the same fields in a new object. *)
Definition deepcopy (new_obj : positive) (c : ability_context) : ability_context :=
  mk_ability_context new_obj (ctx_player_id c) (ctx_card_name c) (ctx_step c)
    (ctx_timeout_job_name c) (ctx_targets_chosen c) (ctx_cards_selected_indices c)
    (ctx_gangster_swap_type c) (ctx_p1_id c) (ctx_p1_card_idx c) (ctx_p2_id c)
    (ctx_p2_card_idx c) (ctx_swap_count c) (ctx_original_ability_context_snapshot c).

(** [check_for_killer_reaction]; the boolean is the value returned.
    [snapshot_obj] and [killer_obj] are the identities of the two
    dictionaries the call creates. *)
Definition check_for_killer_reaction (now : Z) (snapshot_obj killer_obj : positive)
    (original_ability_user_id player_being_targeted_id : player_id)
    (original_ability_context_signature_at_snapshot : positive) (g : game)
    : result * bool :=
  match active_ability_context g with
  | None => ((g, []), false)
  | Some original_ability_full_context =>
      if negb (bool_decide (ctx_obj original_ability_full_context
                            = original_ability_context_signature_at_snapshot))
      then ((g, []), false)
      else
        match get_player_by_id g player_being_targeted_id with
        | None => ((g, []), false)
        | Some player_being_targeted =>
            if p_is_ai player_being_targeted then ((g, []), false) else
            let e1 :=
              match ctx_timeout_job_name original_ability_full_context with
              | Some n => [cancel_job (Some n)]
              | None => []
              end in
            let snapshotted_original_context :=
              deepcopy snapshot_obj
                (ctx_set_timeout_job_name None original_ability_full_context) in
            let killer_timeout_job_name :=
              mk_job_name "killer_react_timeout" (Some player_being_targeted_id) now in
            let killer_ctx :=
              mk_ability_context killer_obj player_being_targeted_id "The Killer"
                "killer_prompt_for_use" (Some killer_timeout_job_name) [] []
                None None None None None None (Some snapshotted_original_context) in
            ((set_active_ability_context (Some killer_ctx) g,
              e1 ++ [send_keyboard player_being_targeted_id
                       "Do you want to try and use 'The Killer' to counter this?"
                       [btn_killer_activate player_being_targeted_id killer_obj;
                        btn_killer_decline player_being_targeted_id killer_obj];
                     run_once killer_timeout_job_name (ability_time_of "The Killer")
                       (character_ability_timeout_job_data (Some killer_obj))]),
             true)
        end
  end.

(** The [killer_decline_] branch of [handle_callback_query], for the
    callback of [user] carrying the signature [sig]. *)
Definition callback_killer_decline (rng : list nat) (now : Z) (user : player_id)
    (sig : positive) (g : game) : result :=
  match active_ability_context g with
  | None => (g, [])
  | Some active_ability_ctx =>
      if negb (bool_decide (ctx_player_id active_ability_ctx = user)
               && String.eqb (ctx_card_name active_ability_ctx) "The Killer"
               && String.eqb (ctx_step active_ability_ctx) "killer_prompt_for_use"
               && bool_decide (ctx_obj active_ability_ctx = sig))
      then (g, [])
      else
        let e1 := [cancel_job (ctx_timeout_job_name active_ability_ctx)] in
        match ctx_original_ability_context_snapshot active_ability_ctx with
        | None => let '(g, e) := finish_ability g in (g, e1 ++ e)
        | Some original_ability_snapshot =>
            let '(g, e) :=
              resume_original_ability_after_killer_interaction rng now
                original_ability_snapshot (set_active_ability_context None g) in
            (g, e1 ++ send_message None "declined to use Killer." :: e)
        end
  end.

(** The confirmation branch [ability_snitch_target_confirm_targets] of
    [handle_callback_query], for the Snitch [user]. *)
Definition callback_snitch_confirm_targets (now : Z) (copy_obj snapshot_obj killer_obj : positive)
    (user : player_id) (g : game) : result :=
  match active_ability_context g with
  | None => (g, [])
  | Some active_ability_ctx =>
      if negb (bool_decide (ctx_player_id active_ability_ctx = user)
               && String.eqb (ctx_card_name active_ability_ctx) "The Snitch"
               && String.eqb (ctx_step active_ability_ctx) "snitch_select_targets")
      then (g, [])
      else
        let selected_targets := ctx_targets_chosen active_ability_ctx in
        if negb (bool_decide (1 ≤ length selected_targets ≤ 2)) then (g, []) else
        let active_ability_ctx := ctx_set_step "snitch_confirmed_targets" active_ability_ctx in
        let g := set_active_ability_context (Some active_ability_ctx) g in
        let snitch_context_snapshot_for_killer := deepcopy copy_obj active_ability_ctx in
        let proceed (g : game) : result :=
          let '(g, e) :=
            execute_the_snitch_ability user selected_targets
              (set_active_ability_context (Some snitch_context_snapshot_for_killer) g) in
          (g, cancel_job (ctx_timeout_job_name snitch_context_snapshot_for_killer) :: e) in
        match selected_targets with
        | [target_id_for_killer_check] =>
            let '((g', e), killer_initiated) :=
              check_for_killer_reaction now snapshot_obj killer_obj user
                target_id_for_killer_check (ctx_obj active_ability_ctx) g in
            if killer_initiated then (g', e)
            else let '(g'', e') := proceed g' in (g'', e ++ e')
        | _ => proceed g
        end
  end.

(** ** [simple_bot.py]: drawing and replacing *)

(** [get_player_turn_actions_keyboard]. *)
Definition top_is_takeable (g : game) : bool :=
  match last (discard_pile g) with
  | Some top_discard =>
      is_bottle top_discard || String.eqb (card_name top_discard) "The Alibi"
  | None => false
  end.

Definition top_is_bottle (g : game) : bool :=
  match last (discard_pile g) with
  | Some top_discard => is_bottle top_discard
  | None => false
  end.

Definition get_player_turn_actions_keyboard (g : game) (current_player_data : player)
    (is_first_cycle_al_capone : bool) : list button :=
  let pid := p_id current_player_data in
  (if negb (p_cannot_call_omerta current_player_data)
      && negb (bool_decide (p_status current_player_data = SKIPPED_TURN))
   then [btn_turn "turn_call_omerta" pid] else [])
  ++ [btn_turn "turn_draw_deck" pid]
  ++ (if negb is_first_cycle_al_capone && top_is_takeable g
      then [btn_turn "turn_draw_discard" pid] else [])
  ++ (if negb is_first_cycle_al_capone && top_is_bottle g
      then [btn_turn "turn_match_discarded_bottle" pid] else []).

Definition is_f_cycle_ac (g : game) (pid : player_id) : bool :=
  bool_decide (cycle_count g = 1%Z) && bool_decide (Some pid = al_capone_player_id g).

(** The reshuffle of an empty deck: the top discard stays, the rest of the
    pile is copied to the deck and shuffled. *)
Definition reshuffle_discard_pile (rng : list nat) (g : game) : game :=
  match Py.pop (discard_pile g) with
  | Some (top_discard, rest) =>
      set_discard_pile [top_discard] (set_deck (Py.shuffle rng rest) g)
  | None => g
  end.

(** [setdefault(player_id, {})['drawn_card'] = c; [...]['draw_source'] = src]. *)
Definition remember_drawn_card (pid : player_id) (c : card) (src : string) (g : game) : game :=
  let tc := default (mk_turn_context None None None None) (player_turn_context g !! pid) in
  set_player_turn_context
    (<[pid := mk_turn_context (Some c) (Some src) (tc_action tc) (tc_bottle_to_match_value tc)]>
       (player_turn_context g)) g.

(** The prompt both draw handlers end with; the blocked positions are
    looked up under the id as the handler received it. *)
Definition replacement_prompt (g : game) (pid : player_id) (player_data : player)
    : list button :=
  get_card_selection_keyboard "replace_hand_card" (p_hand player_data) pid 1 1 []
    true (Some "replace_hand_card_cancel_overall") (blocked_indices g pid).

(** [handle_player_action_draw_deck]. *)
Definition handle_player_action_draw_deck (rng : list nat) (pid : player_id) (g : game)
    : result :=
  match get_player_by_id g pid with
  | None => (g, [])
  | Some player_data =>
      let '(g, e1) :=
        if Py.nonempty (deck g) then (g, [])
        else if Py.nonempty (discard_pile g)
        then (reshuffle_discard_pile rng g,
              [send_message None "notes the deck was empty; discard pile reshuffled."])
        else (g, []) in
      match Py.pop (deck g) with
      | None =>
          let first := is_f_cycle_ac g pid in
          (g, e1 ++ [send_message (Some pid) "The deck is completely empty! You cannot draw from it.";
                     send_keyboard pid "Deck empty. Choose another action:"
                       ([btn_turn "turn_call_omerta" pid]
                        ++ (if negb first && top_is_takeable g
                            then [btn_turn "turn_draw_discard" pid] else [])
                        ++ (if negb first && top_is_bottle g
                            then [btn_turn "turn_match_discarded_bottle" pid] else []))])
      | Some (drawn_card, d) =>
          let g := remember_drawn_card pid drawn_card "deck" (set_deck d g) in
          (g, e1 ++ [send_keyboard pid "You drew:" (replacement_prompt g pid player_data);
                     send_message None "drew a card from the deck and is choosing a card to replace."])
      end
  end.

(** [handle_player_action_draw_discard]. *)
Definition handle_player_action_draw_discard (pid : player_id) (g : game) : result :=
  match get_player_by_id g pid with
  | None => (g, [])
  | Some player_data =>
      let turn_options text :=
        [send_message (Some pid) text;
         send_keyboard pid "Choose another action:"
           (get_player_turn_actions_keyboard g player_data (is_f_cycle_ac g pid))] in
      match Py.pop (discard_pile g) with
      | None => (g, turn_options "The discard pile is empty. Cannot draw from it.")
      | Some (drawn_card, rest) =>
          if negb (top_is_takeable g)
          then (g, turn_options "Only Bottles or Alibi are allowed.")
          else
            let g := remember_drawn_card pid drawn_card "discard" (set_discard_pile rest g) in
            (g, [send_keyboard pid "You took" (replacement_prompt g pid player_data);
                 send_message None "took a card from the discard pile and is choosing a card to replace."])
      end
  end.

(** [process_card_replacement]. *)
Definition process_card_replacement (pid : player_id) (card_idx_to_replace : nat)
    (new_card : card) (g : game) : result :=
  match get_player_by_id g pid with
  | None => (g, [])
  | Some player_data =>
      match p_hand player_data !! card_idx_to_replace with
      | None => (g, [send_message (Some pid) "Invalid card selection for replacement."])
      | Some old_card_replaced =>
          let g := update_player pid
                     (λ p, set_viewed (p_viewed_card_indices p ∖ {[card_idx_to_replace]})
                             (set_hand (<[card_idx_to_replace := new_card]> (p_hand p)) p)) g in
          (set_discard_pile (discard_pile g ++ [old_card_replaced]) g,
           [send_message (Some pid) "You replaced your card.";
            send_message None "drew, replaced a card and discarded.";
            process_discarded_card pid old_card_replaced])
      end
  end.

Definition forget_turn_context (user : player_id) (g : game) : game :=
  set_player_turn_context (delete user (player_turn_context g)) g.


(** The [replace_hand_card_cancel_overall_] branch of [handle_callback_query].
    The keyboard is built from the user's player record; the source raises
    there, after the state change, when the user is no participant. *)
Definition callback_replace_hand_card_cancel (user : player_id) (g : game) : result :=
  if negb (bool_decide (phase g = PLAYING)
           && bool_decide (Some user = current_player_id g))
  then (g, [])
  else
    let '(g, e) :=
      match player_turn_context g !! user ≫= tc_drawn_card with
      | Some drawn_card_info =>
          (set_discard_pile (discard_pile g ++ [drawn_card_info]) g,
           [send_message None "cancelled replacement. Drawn card discarded."])
      | None => (g, [])
      end in
    let g := forget_turn_context user g in
    (g,
     [send_message (Some user) "Card replacement cancelled. Your hand is unchanged."]
     ++ e
     ++ match get_player_by_id g user with
        | Some current_player_obj =>
            [send_keyboard user "Your turn continues. Choose an action:"
               (get_player_turn_actions_keyboard g current_player_obj
                  (is_f_cycle_ac g user))]
        | None => []
        end).

(** A handler's result after the messages already sent. *)
Definition after (before : list effect) (r : result) : result :=
  (r.1, before ++ r.2).

(** [handle_ai_player_turn]; [choice] feeds [random.randrange]. *)
Definition handle_ai_player_turn (rng : list nat) (choice : nat) (ai_player_id : player_id)
    (g : game) : result :=
  match get_player_by_id g ai_player_id with
  | None => (g, [advance_turn_or_continue_sequence])
  | Some ai_player =>
      if negb (p_is_ai ai_player) then (g, [advance_turn_or_continue_sequence])
      else
      let pondering := [send_message None "is pondering their next move..."] in
      if negb (Py.nonempty (p_hand ai_player))
      then after pondering (handle_omerta_call (Some ai_player_id) g)
      else
        let '(g, e_reshuffle) :=
          if Py.nonempty (deck g) then (g, [])
          else if Py.nonempty (discard_pile g)
          then
            let g := reshuffle_discard_pile rng g in
            (g, [send_message None
                   ("Deck was empty. AI observes as the discard pile is reshuffled."
                    +:+ (if Py.nonempty (deck g) then EmptyString
                         else " Still no cards to draw!"))])
          else (g, []) in
        match Py.pop (deck g) with
        | None =>
            after (pondering ++ e_reshuffle) (handle_omerta_call (Some ai_player_id) g)
        | Some (drawn_card, d) =>
            let card_to_replace_idx := choice mod length (p_hand ai_player) in
            let discarded :=
              send_message None "drew from the deck, replaced a card, and discarded" in
            match p_hand ai_player !! card_to_replace_idx with
            | Some replaced_card =>
                let g := update_player ai_player_id
                           (λ p, set_hand (<[card_to_replace_idx := drawn_card]> (p_hand p)) p)
                           (set_deck d g) in
                (set_discard_pile (discard_pile g ++ [replaced_card]) g,
                 pondering ++ e_reshuffle
                 ++ [discarded; process_discarded_card ai_player_id replaced_card])
            | None =>
                (set_discard_pile (discard_pile g ++ [drawn_card]) (set_deck d g),
                 pondering ++ e_reshuffle
                 ++ [discarded; process_discarded_card ai_player_id drawn_card])
            end
        end
  end.

(** ** [simple_bot.py]: Police Patrol blocks *)

(** One pass of [decrement_blocked_cards_at_cycle_start] over a player's map. *)
Definition decrement_blocked_map (blocked_map : gmap nat Z) : gmap nat Z :=
  omap (λ cycles_left, if (cycles_left - 1 <=? 0)%Z then None else Some (cycles_left - 1)%Z)
    blocked_map.

Definition decrement_blocked_cards_at_cycle_start (g : game) : game :=
  set_blocked_cards
    (omap (λ blocked_map,
             let m := decrement_blocked_map blocked_map in
             if decide (m = ∅) then None else Some m)
       (blocked_cards g)) g.
(** ** [game/core/state.py]: the lobby *)

(** [add_game]: the session shell of a chat. *)
Definition add_game : game :=
  mk_game SETUP [] [] [] [] [] None None [] 0 None None None ∅ ∅ false None.

(** [add_player_to_game]; [now] is [time.time()].  The value returned is the
    player's dictionary, or [None] when the game is full. *)
Definition add_player_to_game (now : Z) (user_id : player_id) (g : game)
    : game * option player :=
  if decide (MAX_PLAYERS ≤ length (players g) + length (ai_players g)) then (g, None)
  else if existsb (has_id user_id) (players g)
  then (g, List.find (has_id user_id) (players g))
  else
    let player_data := mk_player user_id [] ∅ ACTIVE now false 0 false in
    (set_players (players g ++ [player_data]) g, Some player_data).

(** [add_ai_player_to_game]; [r] is the value of [random.randint(1000, 9999)]. *)
Definition add_ai_player_to_game (now : Z) (r : Z) (g : game) : game * option player :=
  if decide (MAX_PLAYERS ≤ length (players g) + length (ai_players g)) then (g, None)
  else
    let ai_id := StrId ("ai_" +:+ pretty (length (ai_players g) + 1) +:+ "_" +:+ pretty r) in
    let ai_player_data := mk_player ai_id [] ∅ ACTIVE now true 0 false in
    (set_ai_players (ai_players g ++ [ai_player_data]) g, Some ai_player_data).

(** The loop of the [ai_add_count_] branch of [handle_callback_query]:
    [for _ in range(count): if add_ai_player_to_game(...): added_ai_count += 1],
    with the time and the random number of each round; the value is the
    session and [added_ai_count]. *)
Fixpoint add_ai_players (rounds : list (Z * Z)) (g : game) : game * nat :=
  match rounds with
  | [] => (g, 0)
  | (now, r) :: rest =>
      let '(g, ai_player_data) := add_ai_player_to_game now r g in
      let '(g, added_ai_count) := add_ai_players rest g in
      (g, if ai_player_data is Some _ then S added_ai_count else added_ai_count)
  end.

Definition FAMOUS_GANGSTERS : list string :=
  ["Al Capone"; "Bugsy Siegel"; "Lucky Luciano"; "Dutch Schultz"; "Meyer Lansky";
   "Pablo Escobar"; "John Gotti"; "Frank Costello"; "Whitey Bulger"].

(** [l.remove(x)] when [x] is in [l]: its first occurrence goes. *)
Fixpoint remove_first (x : string) (l : list string) : list string :=
  match l with
  | [] => []
  | y :: l' => if decide (y = x) then l' else y :: remove_first x l'
  end.

(** The name appended while the list is shorter than the participants. *)
Definition rookie_name (num_participants len : nat) : string :=
  "Rookie " +:+ pretty (Z.of_nat len - Z.of_nat num_participants + 1
                        + (Z.of_nat num_participants - Z.of_nat (length FAMOUS_GANGSTERS)))%Z.

(** The gangster pool of [assign_gangsters_to_players]: [rng1] and [rng2]
    feed its two shuffles.  The repair of a pool without Al Capone is left
    out: [FAMOUS_GANGSTERS] holds the name. *)
Definition assigned_gangsters_list (rng1 rng2 : list nat) (num_participants : nat)
    : list string :=
  let available_gangsters := Py.shuffle rng1 FAMOUS_GANGSTERS in
  let assigned_gangsters_list :=
    if bool_decide (0 < num_participants) then
      if bool_decide ("Al Capone" ∈ take num_participants available_gangsters)
      then take num_participants available_gangsters
      else Py.shuffle rng2
             (take (num_participants - 1) (remove_first "Al Capone" available_gangsters)
              ++ ["Al Capone"])
    else [] in
  assigned_gangsters_list
  ++ (rookie_name num_participants
        <$> seq (length assigned_gangsters_list)
              (num_participants - length assigned_gangsters_list)).

(** The assignment loop from position [i] on: the state is
    [game['gangster_assignments']] and [game['al_capone_player_id']]. *)
Fixpoint assign_loop (assigned_gangsters_list : list string) (i : nat)
    (participants : list player) (st : gmap player_id string * option player_id)
    : gmap player_id string * option player_id :=
  match participants with
  | [] => st
  | participant_obj :: rest =>
      let '(gangster_assignments, al_capone) := st in
      assign_loop assigned_gangsters_list (S i) rest
        match assigned_gangsters_list !! i with
        | Some gangster_name =>
            (<[p_id participant_obj := gangster_name]> gangster_assignments,
             if decide (gangster_name = "Al Capone") then Some (p_id participant_obj)
             else al_capone)
        | None =>
            (<[p_id participant_obj := "Default Gangster " +:+ pretty i]> gangster_assignments,
             al_capone)
        end
  end.

Definition set_al_capone_player_id (v : option player_id) (g : game) : game :=
  mk_game (phase g) (players g) (ai_players g) (deck g) (discard_pile g) (safe g)
    (current_player_id g) v (turn_order g) (cycle_count g) (omerta_caller_id g)
    (active_ability_context g) (bottle_match_context g) (blocked_cards g)
    (player_turn_context g) (bottle_match_context_just_ended g) (final_scores_list g).

(** [assign_gangsters_to_players]; [rng3] feeds the shuffle of the
    participants.  The value is the session, [game['gangster_assignments']]
    and the boolean returned; the ['gangster'] key the loop also writes into
    each participant is not a field of the player record. *)
Definition assign_gangsters_to_players (rng1 rng2 rng3 : list nat)
    (gangster_assignments : gmap player_id string) (g : game)
    : game * gmap player_id string * bool :=
  if negb (Py.nonempty (all_participants g)) then (g, gangster_assignments, false) else
  let num_participants := length (all_participants g) in
  let assigned_gangsters_list := assigned_gangsters_list rng1 rng2 num_participants in
  let all_participants := Py.shuffle rng3 (all_participants g) in
  let '(gangster_assignments, al_capone) :=
    assign_loop assigned_gangsters_list 0 all_participants (gangster_assignments, None) in
  let '(gangster_assignments, al_capone) :=
    if negb (truthy_opt al_capone) then
      match all_participants with
      | first_participant :: _ =>
          (<[p_id first_participant := "Al Capone"]>
             ((λ g_name, if decide (g_name = "Al Capone") then "Rookie Reassigned" else g_name)
                <$> gangster_assignments),
           Some (p_id first_participant))
      | [] => (gangster_assignments, al_capone)
      end
    else (gangster_assignments, al_capone) in
  (set_al_capone_player_id al_capone g, gangster_assignments, true).

(** The dictionaries of [game['turn_order']].  The source's list holds the
    participants' dictionaries themselves; the session record holds their
    ids, and a dictionary is read through [get_player_by_id]. *)
Definition turn_order_players (g : game) : list player :=
  omap (get_player_by_id g) (turn_order g).

(** [get_active_players_in_turn_order]. *)
Definition get_active_players_in_turn_order (g : game) : list player :=
  let active_ids_in_game :=
    p_id <$> filter (λ p, p_status p = ACTIVE) (all_participants g) in
  filter (λ p, p_id p ∈ active_ids_in_game ∧ p_status p = ACTIVE) (turn_order_players g).

(** ** [bot/keyboards.py]: the lobby *)

(** A button of the AI-count keyboard: [ai_add_count_{i}],
    [no_action_dummy_ai_full], [ai_add_cancel]. *)
Inductive ai_option_button :=
| ai_add_count (i : nat)
| no_action_dummy_ai_full
| ai_add_cancel.

(** [get_add_ai_options_keyboard]. *)
Definition get_add_ai_options_keyboard (current_total_players max_players : nat)
    : list ai_option_button :=
  let max_ai_can_add := (6 `min` (Z.of_nat max_players - Z.of_nat current_total_players))%Z in
  (if decide (max_ai_can_add ≤ 0)%Z then [no_action_dummy_ai_full]
   else ai_add_count <$> seq 1 (Z.to_nat max_ai_can_add))
  ++ [ai_add_cancel].

(** ** [bot/keyboards.py]: the bottle-match prompt *)

(** A button of the prompt, by its callback data:
    [bottle_match_do_discard_{i}_{pid}], [no_action_card_blocked_{i}_{pid}],
    [bottle_match_skip_own_{pid}]. *)
Inductive prompt_button :=
| bottle_match_do_discard (i : nat) (pid : player_id)
| prompt_no_action_card_blocked (i : nat) (pid : player_id)
| bottle_match_skip_own (pid : player_id).

#[global] Instance prompt_button_eq_dec : EqDecision prompt_button.
Proof. solve_decision. Defined.

(** [get_bottle_match_prompt_keyboard]. *)
Definition get_bottle_match_prompt_keyboard (player_id : player_id) (hand : list card)
    (blocked_card_indices : gset nat) : list prompt_button :=
  ((λ i, if bool_decide (i ∈ blocked_card_indices)
         then prompt_no_action_card_blocked i player_id
         else bottle_match_do_discard i player_id) <$> seq 0 (length hand))
  ++ [bottle_match_skip_own player_id].

(** ** [simple_bot.py]: the turn engine *)

Module Engine.

(** The session with the two keys only the turn engine uses. *)
Record session := mk_session {
  s_game : game;
  current_player_id_just_before_cycle_check : option player_id;
  al_capone_first_turn_taken : bool }.

(** What the engine sends out: a handler's effect, and the calls it makes
    into code kept outside the engine.
    - [decrement_blocked_cards_notices]: the notices of
      [decrement_blocked_cards_at_cycle_start] (its state change is applied);
    - [run_skip_adv pid]: [run_once(start_next_player_turn, 0.2,
      name=f"skip_adv_{chat_id}_{pid}")];
    - [end_game]: [game_state_manager.end_game(chat_id)];
    - [send_bottle_match_prompt]: the private prompt of a bottle-match
      window with its keyboard;
    - [initiate_character_ability]: the awaited call. *)
Inductive turn_effect :=
| emit (e : effect)
| decrement_blocked_cards_notices
| run_skip_adv (pid : player_id)
| end_game
| send_bottle_match_prompt (to : player_id) (kbd : list prompt_button)
| initiate_character_ability (pid : player_id) (c : card).

Definition turn_result : Type := session * list turn_effect.

Definition with_game (s : session) (g : game) : session :=
  mk_session g (current_player_id_just_before_cycle_check s) (al_capone_first_turn_taken s).

(** A handler called by the engine, with what the engine sent before. *)
Definition call (s : session) (before : list turn_effect) (r : result) : turn_result :=
  (with_game s r.1, before ++ (emit <$> r.2)).

(** [s.isdigit()] and [int(s)] for a string of ASCII digits. *)
Definition digit_value (a : Ascii.ascii) : option Z :=
  let n := Z.of_nat (Ascii.nat_of_ascii a) in
  if ((48 <=? n) && (n <=? 57))%Z then Some (n - 48)%Z else None.

Fixpoint int_of_digits (acc : Z) (s : string) : option Z :=
  match s with
  | EmptyString => Some acc
  | String a s' =>
      match digit_value a with
      | Some d => int_of_digits (10 * acc + d)%Z s'
      | None => None
      end
  end.

(** [int(id) if isinstance(id, str) and id.isdigit() else id]. *)
Definition pm_player_id (i : player_id) : player_id :=
  match i with
  | IntId n => IntId n
  | StrId EmptyString => i
  | StrId s => match int_of_digits 0 s with Some n => IntId n | None => i end
  end.

(** [next(i for i, p in enumerate(order) if p['id'] == current)], then one
    step on; 0 when there is no current player or it is not in the order. *)
Definition start_index (order : list player) (current : option player_id) : nat :=
  match current with
  | None => 0
  | Some c =>
      match list_find (λ p, p_id p = c) order with
      | Some (current_idx_in_original_list, _) =>
          (current_idx_in_original_list + 1) mod length order
      | None => 0
      end
  end.

(** The loop [for i in range(num_total_in_order)] looking for a player who
    is not inactive. *)
Fixpoint find_candidate (order : list player) (start_index : nat) (range : list nat)
    : option player :=
  match range with
  | [] => None
  | i :: range' =>
      match order !! ((start_index + i) mod length order) with
      | Some player_to_check =>
          if decide (p_status player_to_check = INACTIVE)
          then find_candidate order start_index range'
          else Some player_to_check
      | None => None
      end
  end.

(** The Hand-O-Meter announcement, when somebody is listed in it. *)
Definition hand_o_meter (g : game) : list turn_effect :=
  if Py.nonempty (filter (λ p, p_status p ∈ [ACTIVE; SKIPPED_TURN]) (all_participants g))
  then [emit (send_message None "Hand-O-Meter")] else [].

(** The cycle bookkeeping of [start_next_player_turn] once the next player
    is chosen; [previous] is the player whose turn just ended. *)
Definition starts_new_cycle (s : session) (order : list player) (previous : option player_id)
    (next_player_obj : player) : bool :=
  let g := s_game s in
  bool_decide (Some (p_id next_player_obj) = al_capone_player_id g)
  && (bool_decide (0 < cycle_count g)%Z
      || (bool_decide (previous ≠ None)
          && bool_decide (Some (p_id next_player_obj) ≠ p_id <$> head order)))
  && (bool_decide (current_player_id_just_before_cycle_check s ≠ Some (p_id next_player_obj))
      || bool_decide (0 < cycle_count g)%Z).

(** The turn of a player who is not skipped: the announcement, then the
    AI's move or the human's action keyboard.  [guarded] tells whether the
    first-turn test also reads [al_capone_first_turn_taken]. *)
Definition announce_turn (rng : list nat) (choice : nat) (guarded : bool)
    (before : list turn_effect) (player_obj : player) (s : session) : turn_result :=
  let g := s_game s in
  let before := before ++ [emit (send_message None "Turn for")] in
  if p_is_ai player_obj
  then call s before (handle_ai_player_turn rng choice (p_id player_obj) g)
  else
    let is_al_capone_first_ever_turn :=
      bool_decide (cycle_count g = 1%Z)
      && bool_decide (Some (p_id player_obj) = al_capone_player_id g)
      && negb (guarded && al_capone_first_turn_taken s) in
    (mk_session g (current_player_id_just_before_cycle_check s)
       (if is_al_capone_first_ever_turn then true else al_capone_first_turn_taken s),
     before ++ [emit (send_keyboard (pm_player_id (p_id player_obj))
                        "It's your turn! Choose an action:"
                        (get_player_turn_actions_keyboard g player_obj
                           is_al_capone_first_ever_turn))]).

(** [start_next_player_turn] from "Now, process the found candidate" on;
    [g] has the phase set, [previous] is the player whose turn just ended. *)
Definition process_candidate (rng : list nat) (choice : nat)
    (original_turn_order_list : list player) (previous : option player_id)
    (next_player_obj : player) (s : session) (g : game) : turn_result :=
  let new_cycle :=
    starts_new_cycle (with_game s g) original_turn_order_list previous next_player_obj in
  let g := set_current_player_id (Some (p_id next_player_obj)) g in
  let '(g, e_cycle) :=
    if new_cycle then
      let g := decrement_blocked_cards_at_cycle_start
                 (set_cycle_count (cycle_count g + 1) g) in
      (g, decrement_blocked_cards_notices
          :: (if decide (2 < cycle_count g)%Z then hand_o_meter g else []))
    else (g, []) in
  let g := if decide (cycle_count g = 0%Z) then set_cycle_count 1 g else g in
  let s := mk_session g (Some (p_id next_player_obj)) (al_capone_first_turn_taken s) in
  if decide (p_status next_player_obj = SKIPPED_TURN) then
    (with_game s
       (update_player (p_id next_player_obj)
          (λ p, set_cannot_call_omerta false (set_status ACTIVE p)) g),
     e_cycle ++ [emit (send_message None "turn is skipped (Mamma's orders!).");
                 run_skip_adv (p_id next_player_obj)])
  else announce_turn rng choice true e_cycle next_player_obj s.

(** [start_next_player_turn].  [rng] and [choice] feed the move of an AI
    player.  The second test of an empty turn order repeats the first. *)
Definition start_next_player_turn (rng : list nat) (choice : nat) (s : session)
    : turn_result :=
  let g := s_game s in
  let g := if decide (phase g = PLAYING) then g else set_phase PLAYING g in
  let original_turn_order_list := turn_order_players g in
  if negb (Py.nonempty original_turn_order_list)
  then call s [emit (send_message None "Error: Turn order is missing. The game will now end.")]
         (handle_omerta_call None g)
  else
    let current_player_id_for_finding_next := current_player_id g in
    let num_total_in_order := length original_turn_order_list in
    let start_index := start_index original_turn_order_list current_player_id_for_finding_next in
    match find_candidate original_turn_order_list start_index (seq 0 num_total_in_order) with
    | None =>
        call s [emit (send_message None
                        "No active players left to take a turn. The game will now end.")]
          (handle_omerta_call None g)
    | Some next_player_obj =>
        process_candidate rng choice original_turn_order_list
          current_player_id_for_finding_next next_player_obj s g
    end.

(** [_start_turn_for_current_player], the first turn of the game. *)
Definition _start_turn_for_current_player (rng : list nat) (choice : nat) (s : session)
    : turn_result :=
  let g := s_game s in
  if negb (truthy_opt (current_player_id g))
  then (s, [emit (send_message None "Critical error: No starting player found. Game ended.");
            end_game])
  else
    match current_player_id g ≫= get_player_by_id g with
    | None => start_next_player_turn rng choice s
    | Some player_obj => announce_turn rng choice false [] player_obj s
    end.

(** [advance_turn_or_continue_sequence]. *)
Definition advance_turn_or_continue_sequence (rng : list nat) (choice : nat) (s : session)
    : turn_result :=
  let g := s_game s in
  match List.find (λ player, bool_decide (p_status player = ACTIVE)
                             && negb (Py.nonempty (p_hand player)))
          (all_participants g) with
  | Some player =>
      call s [emit (send_message None
                      "has discarded all of their cards! This forces an OMERTA call!")]
        (handle_omerta_call (Some (p_id player)) g)
  | None =>
      if round_is_over (phase g)
      then (with_game s (set_bottle_match_context_just_ended false g), [])
      else if bottle_match_context_just_ended g
      then start_next_player_turn rng choice
             (with_game s (set_phase PLAYING (set_bottle_match_context_just_ended false g)))
      else
        match active_ability_context g with
        | Some _ => (s, [])
        | None =>
            start_next_player_turn rng choice
              (with_game s (if decide (phase g = PLAYING) then g else set_phase PLAYING g))
        end
  end.

(** What [random] returns to an AI player with a matching bottle when a
    window opens: whether [random.random() < 0.6], the index
    [random.choice] draws and the delay of [random.uniform], to the second. *)
Record ai_roll := mk_ai_roll { roll_attempts : bool; roll_choice : nat; roll_delay : Z }.

(** The test of a card for a match: a bottle of the value to match that is
    not blocked; blocks are looked up under [str(id)]. *)
Definition is_matchable (g : game) (p_data : player) (bottle_value_to_match : option Z)
    (idx : nat) : bool :=
  match p_hand p_data !! idx with
  | Some card =>
      bool_decide (card_kind card = bottle)
      && bool_decide (card_value card = bottle_value_to_match)
      && negb (bool_decide (idx ∈ blocked_indices g (str (p_id p_data))))
  | None => false
  end.

Definition matchable_indices (g : game) (p_data : player) (bottle_value_to_match : option Z)
    : list nat :=
  List.filter (is_matchable g p_data bottle_value_to_match) (seq 0 (length (p_hand p_data))).

(** The loop of [initiate_bottle_matching_window] over the active players
    in turn order. *)
Fixpoint prompt_players (now : Z) (current_bottle_ctx_signature : positive)
    (bottle_value_to_match : option Z) (g : game) (all_active_players : list player)
    (rolls : list ai_roll) : list turn_effect :=
  match all_active_players with
  | [] => []
  | p_data :: rest =>
      let matchable_indices := matchable_indices g p_data bottle_value_to_match in
      if p_is_ai p_data then
        if Py.nonempty matchable_indices then
          let roll := default (mk_ai_roll false 0 0) (head rolls) in
          (if roll_attempts roll then
             match matchable_indices !! (roll_choice roll mod length matchable_indices) with
             | Some ai_chosen_card_idx_to_match =>
                 [emit (run_once (mk_job_name "ai_bottle_match" (Some (p_id p_data)) now)
                          (roll_delay roll)
                          (ai_attempt_bottle_match_job_data (p_id p_data)
                             ai_chosen_card_idx_to_match current_bottle_ctx_signature))]
             | None => []
             end
           else [])
          ++ prompt_players now current_bottle_ctx_signature bottle_value_to_match g rest
               (tail rolls)
        else prompt_players now current_bottle_ctx_signature bottle_value_to_match g rest rolls
      else if negb (Py.nonempty (p_hand p_data))
      then prompt_players now current_bottle_ctx_signature bottle_value_to_match g rest rolls
      else
        send_bottle_match_prompt (pm_player_id (p_id p_data))
          (get_bottle_match_prompt_keyboard (p_id p_data) (p_hand p_data)
             (blocked_indices g (str (p_id p_data))))
        :: prompt_players now current_bottle_ctx_signature bottle_value_to_match g rest rolls
  end.

(** [initiate_bottle_matching_window]; [now] is [time.time()], [new_obj] the
    identity of the context dictionary it makes. *)
Definition initiate_bottle_matching_window (now : Z) (new_obj : positive)
    (rolls : list ai_roll) (discarded_bottle_card : card) (s : session) : turn_result :=
  let g := s_game s in
  if bool_decide (phase g = BOTTLE_MATCHING_WINDOW)
     && bool_decide (is_Some (bottle_match_context g))
  then (s, [])
  else
    let bottle_value_to_match := card_value discarded_bottle_card in
    let discarder_id := current_player_id g in
    let timeout_job_name := mk_job_name "bottle_match_timeout" None now in
    let current_bottle_match_context :=
      mk_bottle_context new_obj bottle_value_to_match (now + BOTTLE_MATCH_WINDOW_SECONDS)
        None (Some timeout_job_name) discarder_id ∅ in
    let g := set_bottle_match_context (Some current_bottle_match_context)
               (set_phase BOTTLE_MATCHING_WINDOW g) in
    (with_game s g,
     [emit (send_message None "Bottle card discarded!")]
     ++ prompt_players now new_obj bottle_value_to_match g
          (get_active_players_in_turn_order g) rolls
     ++ [emit (run_once timeout_job_name BOTTLE_MATCH_WINDOW_SECONDS
                 (end_bottle_match_window_job_data (Some new_obj)))]).

(** [process_discarded_card]; [now], [new_obj] and [rolls] are for the
    window a bottle opens. *)
Definition process_discarded_card (rng : list nat) (choice : nat)
    (now : Z) (new_obj : positive) (rolls : list ai_roll)
    (player_id_who_discarded : player_id) (discarded_card : card) (s : session)
    : turn_result :=
  let g := s_game s in
  let pass_the_turn :=
    advance_turn_or_continue_sequence rng choice
      (with_game s (set_current_player_id (Some player_id_who_discarded) g)) in
  match get_player_by_id g player_id_who_discarded with
  | None => pass_the_turn
  | Some _ =>
      match discarded_card with
      | Bottle _ => initiate_bottle_matching_window now new_obj rolls discarded_card s
      | Character ability_name _ _ _ =>
          let is_killer_card := bool_decide (ability_name = "The Killer") in
          let is_killer_being_used_reactively :=
            match active_ability_context g with
            | Some ctx =>
                bool_decide (ctx_card_name ctx = "The Killer")
                && bool_decide (ctx_player_id ctx = player_id_who_discarded)
                && bool_decide (ctx_step ctx = "killer_select_killer_card")
            | None => false
            end in
          if bool_decide (ability_name ∈ ["The Witness"; "The Alibi"])
             || (is_killer_card && negb is_killer_being_used_reactively)
          then pass_the_turn
          else (s, [initiate_character_ability player_id_who_discarded discarded_card])
      end
  end.

End Engine.

(** ** Notions the properties are stated with *)

(** Number of character cards of a given name in a list. *)
Definition count_named (n : string) (l : list card) : nat :=
  length (filter (λ d, card_kind d = character ∧ card_name d = n) l).

(** [x] is the first entry of [l] with the least key: strictly below every
    entry before it, at or below every entry after it. *)
Definition first_minimum {A} (key : A → Z) (l : list A) (x : A) : Prop :=
  ∃ l1 l2, l = l1 ++ x :: l2
    ∧ Forall (λ y, key x < key y)%Z l1 ∧ Forall (λ y, key x ≤ key y)%Z l2.

(** A hand's value. *)
Definition hand_value (p : player) : Z := calculate_score_for_hand (p_hand p).

(** What the settlement hands to the statistics: the winners' ids and a
    participant's final score. *)
Definition recorded_winners (g : game) : list player_id :=
  fs_id <$> List.filter fs_is_winner (default [] (final_scores_list g)).

Definition recorded_score (g : game) (pid : player_id) : option Z :=
  fs_score <$> List.find (λ s, bool_decide (fs_id s = pid)) (default [] (final_scores_list g)).

(** A perfect call, for the caller [c0] standing between [l1] and [l2] in
    the list of eligible participants: at or below the threshold, strictly
    below everyone listed before, at or below everyone listed after. *)
Definition perfect_call (l1 : list player) (c0 : player) (l2 : list player) : Prop :=
  (hand_value c0 ≤ OMERTA_THRESHOLD)%Z
  ∧ Forall (λ p, hand_value c0 < hand_value p)%Z l1
  ∧ Forall (λ p, hand_value c0 ≤ hand_value p)%Z l2.

(** The score a participant is ranked by once the caller is penalised. *)
Definition penalised_score (cid : player_id) (p : player) : Z :=
  if bool_decide (p_id p = cid) then (hand_value p + OMERTA_PENALTY)%Z else hand_value p.

(** The claim's "strict minimum among all scored participants". *)
Definition strict_minimum (caller : player) (scored : list player) : bool :=
  forallb (λ p, bool_decide (p_id p = p_id caller)
                || (hand_value caller <? hand_value p)%Z) scored.

(** [settle_round] read on the list of all participants. *)
Definition settle_list (caller_id : option player_id) (hs : list player)
    : list player * option player :=
  let scored := score_participant caller_id <$> hs in
  let caller_player_obj :=
    if truthy_opt caller_id then caller_id ≫= (λ pid, List.find (has_id pid) scored) else None in
  let '(winner_obj, penalised) :=
    determine_winner (eligible_for_win caller_id caller_player_obj scored) caller_player_obj in
  match caller_player_obj with
  | Some caller =>
      if penalised
      then (update_first (p_id caller)
              (set_score (p_score_this_round caller + OMERTA_PENALTY)%Z) scored, winner_obj)
      else (scored, winner_obj)
  | None => (scored, winner_obj)
  end.

(** A hand and a player for the examples. *)
Definition example_player (i : player_id) (h : list card) (ai : bool) : player :=
  mk_player i h ∅ ACTIVE 0 ai 0 false.

Definition example_game (humans ais : list player) (d discard : list card) : game :=
  mk_game PLAYING humans ais d discard [] None None [] 1 None None None ∅ ∅ false None.

(** Two humans tied at 5 points, the first of them calling. *)
Definition tie_game : game :=
  example_game
    [example_player (IntId 1) [Bottle 2; Bottle 3] false;
     example_player (IntId 2) [Bottle 1; Bottle 4] false]
    [example_player (StrId "ai_1_1000") [Bottle 9] true] [Bottle 8] [Bottle 7].

(** A caller over the threshold whose penalised score is still the lowest. *)
Definition high_call_game : game :=
  example_game
    [example_player (IntId 1) [Bottle 8] false;
     example_player (IntId 2) [Bottle 10; Bottle 10; Bottle 10] false] [] [] [].

(** [tie_game] once its round has been settled. *)
Definition settled_game : game := (handle_omerta_call (Some (IntId 1)) tie_game).1.

(** ** Timers and windows *)

(** A timer is stale when the context it guards is gone or is another object. *)
Definition stale_ability_timer (tag : positive) (g : game) : bool :=
  match active_ability_context g with
  | Some c => negb (bool_decide (ctx_obj c = tag))
  | None => true
  end.

Definition stale_bottle_timer (tag : positive) (g : game) : bool :=
  match bottle_match_context g with
  | Some b => negb (bool_decide (bc_obj b = tag))
  | None => true
  end.

(** What can happen to one window, in any order: an attempt runs up to its
    first [await]; the handler of a matched attempt resumes and closes the
    window; the window's timer fires.  None of them opens a window. *)
Inductive window_event :=
| ev_attempt (pid : player_id) (card_idx : nat)
| ev_resume_after_match (bottle_context : bottle_context)
| ev_window_expiry (expected : option positive).

Definition run_window_event (ev : window_event) (g : game) : game :=
  match ev with
  | ev_attempt pid card_idx => (bottle_match_attempt_step pid card_idx g).1
  | ev_resume_after_match bottle_context => (close_matched_window bottle_context g).1
  | ev_window_expiry expected => (end_bottle_match_window_job expected g).1
  end.

(** The attempts of a run, each with the branch it took. *)
Fixpoint window_trace (evs : list window_event) (g : game)
    : list (player_id * attempt_outcome) :=
  match evs with
  | [] => []
  | ev :: evs' =>
      match ev with
      | ev_attempt pid card_idx => [(pid, classify_attempt g pid card_idx)]
      | _ => []
      end ++ window_trace evs' (run_window_event ev g)
  end.

Definition is_match (o : player_id * attempt_outcome) : bool :=
  match o.2 with att_matched _ => true | _ => false end.

Definition is_failure_of (pid : player_id) (o : player_id * attempt_outcome) : bool :=
  bool_decide (o.1 = pid) && match o.2 with att_failed _ => true | _ => false end.

Definition attempt_by_truthy_id (ev : window_event) : Prop :=
  match ev with
  | ev_attempt pid _ => truthy pid = true
  | _ => True
  end.

(** A window on bottles of value 5, opened by player 1, with nobody
    recorded yet; player 2 holds a 5 and a 3. *)
Definition open_window (obj : positive) : bottle_context :=
  mk_bottle_context obj (Some 5%Z) 100 None
    (Some (mk_job_name "bottle_match_timeout" None 95)) (Some (IntId 1)) ∅.

Definition window_game : game :=
  set_bottle_match_context (Some (open_window 7%positive))
    (set_phase BOTTLE_MATCHING_WINDOW
       (example_game
          [example_player (IntId 1) [Bottle 2; Bottle 3; Bottle 4; Bottle 6] false;
           example_player (IntId 2) [Bottle 5; Bottle 3; Bottle 1; Bottle 1] false]
          [example_player (StrId "ai_1_1000") [Bottle 5; Bottle 9; Bottle 9; Bottle 9] true]
          [Bottle 8; Bottle 10] [Bottle 5])).

(** No attempt can match: the window is gone or has its winner. *)
Definition window_claimed (g : game) : Prop :=
  match bottle_match_context g with
  | Some b => truthy_opt (bc_fastest_matcher_id b) = true
  | None => True
  end.

(** [pid] cannot fail again: the window is gone or lists the player. *)
Definition window_bars (pid : player_id) (g : game) : Prop :=
  match bottle_match_context g with
  | Some b => pid ∈ bc_failed_matchers b
  | None => True
  end.

(** The number of cards a player holds. *)
Definition hand_size (g : game) (pid : player_id) : option nat :=
  (λ p, length (p_hand p)) <$> get_player_by_id g pid.

Definition hand_sizes (g : game) : list nat :=
  (λ p, length (p_hand p)) <$> all_participants g.

(** ** Drawing from an empty deck *)

(** A table of three whose deck has run out, the discard pile holding
    [pile]. *)
Definition drained_game (pile : list card) : game :=
  example_game
    [example_player (IntId 1) [Bottle 2; Bottle 3; Bottle 4; Bottle 6] false;
     example_player (IntId 2) [Bottle 5; Bottle 3; Bottle 1; Bottle 1] false]
    [example_player (StrId "ai_1_1000") [Bottle 5; Bottle 9; Bottle 9; Bottle 9] true]
    [] pile.

(** ** The cards of a session *)

(** The cards held by the participants, humans first. *)
Definition hands (g : game) : list card :=
  concat (p_hand <$> all_participants g).

(** Deck, hands, discard pile and safe, as one list. *)
Definition all_cards (g : game) : list card :=
  deck g ++ hands g ++ discard_pile g ++ safe g.

(** The card a player has drawn and not yet placed. *)
Definition pending_draw (g : game) (pid : player_id) : option card :=
  player_turn_context g !! pid ≫= tc_drawn_card.

Definition no_pending_draw (g : game) : Prop :=
  ∀ pid, pending_draw g pid = None.







(** What a draw handler leaves behind: the participants, the phase and the
    turn as they were; either nothing drawn, or one card taken out of the
    containers and pending for the player. *)
Definition draw_outcome (g g1 : game) (pid : player_id) : Prop :=
  all_participants g1 = all_participants g
  ∧ phase g1 = phase g
  ∧ current_player_id g1 = current_player_id g
  ∧ (∀ who, who ≠ pid → pending_draw g1 who = pending_draw g who)
  ∧ ((pending_draw g1 pid = pending_draw g pid ∧ all_cards g1 ≡ₚ all_cards g)
     ∨ (∃ c, pending_draw g1 pid = Some c ∧ c :: all_cards g1 ≡ₚ all_cards g)).

(** A round in play, on the turn of player 1, the deck run out. *)
Definition round_game : game :=
  set_safe [Bottle 0; Character "The Mole" 10 "peek_own" 15; Bottle 4; Bottle 4]
    (set_current_player_id (Some (IntId 1))
       (drained_game [Bottle 1; Character "The Alibi" 0 "none" 0; Bottle 2; Bottle 7])).


(** ** The Killer interrupt and the Police block, on examples *)

(** The Snitch of player 1 waiting for its confirmation, player 2 chosen. *)
Definition snitch_context : ability_context :=
  mk_ability_context 11 (IntId 1) "The Snitch" "snitch_select_targets"
    (Some (mk_job_name "ability_timeout" (Some (IntId 1)) 40)) [IntId 2] []
    None None None None None None None.

Definition snitch_game : game :=
  set_active_ability_context (Some snitch_context)
    (set_phase CHARACTER_ABILITY_TARGETING
       (set_current_player_id (Some (IntId 1))
          (example_game
             [example_player (IntId 1) [Bottle 2; Bottle 3; Bottle 4; Bottle 6] false;
              example_player (IntId 2) [Bottle 5; Bottle 3; Bottle 1; Bottle 1] false]
             [example_player (StrId "ai_1_1000") [Bottle 5; Bottle 9; Bottle 9; Bottle 9] true]
             [Bottle 8; Bottle 10] [Bottle 7]))).

(** The Snitch confirms; player 2 is asked about the Killer. *)
Definition snitch_interrupted : game :=
  (callback_snitch_confirm_targets 50 12 13 14 (IntId 1) snitch_game).1.

(** The step held by the snapshot inside the Killer's context. *)
Definition suspended_step (g : game) : option string :=
  ctx_step <$> (active_ability_context g ≫= ctx_original_ability_context_snapshot).

(** The keyboard of the first prompt among the effects. *)
Definition prompted_keyboard (e : list effect) : list button :=
  match List.find (λ x, match x with send_keyboard _ _ _ => true | _ => false end) e with
  | Some (send_keyboard _ _ kbd) => kbd
  | _ => []
  end.

(** Player 1 blocks position 1 of player 2, who then draws on their turn. *)
Definition patrolled_game : game :=
  set_current_player_id (Some (IntId 2))
    (execute_police_patrol_ability (IntId 1) (IntId 2) 1
       (example_game
          [example_player (IntId 1) [Bottle 2; Bottle 3; Bottle 4; Bottle 6] false;
           example_player (IntId 2) [Bottle 5; Bottle 3; Bottle 1; Bottle 1] false]
          [example_player (StrId "ai_1_1000") [Bottle 5; Bottle 9; Bottle 9; Bottle 9] true]
          [Bottle 8; Bottle 10] [Bottle 7])).1.

(** ** Notions for the further properties *)

(** The cycles left on the block of a position, under a key of
    [game['blocked_cards']]. *)
Definition block_counter (g : game) (key : player_id) (idx : nat) : option Z :=
  default ∅ (blocked_cards g !! key) !! idx.

(** A list in ascending order of a key. *)
Fixpoint ordered_by {A} (key : A → Z) (l : list A) : Prop :=
  match l with
  | [] => True
  | x :: l' => Forall (λ y, (key x ≤ key y)%Z) l' ∧ ordered_by key l'
  end.

(** The Lady of player 1 at her confirmation, player 2 chosen. *)
Definition lady_context : ability_context :=
  mk_ability_context 21 (IntId 1) "The Lady" "lady_confirm_target"
    (Some (mk_job_name "ability_timeout" (Some (IntId 1)) 40)) [IntId 2] []
    None None None None None None None.

Definition lady_game : game :=
  set_active_ability_context (Some lady_context)
    (set_phase CHARACTER_ABILITY_TARGETING round_game).

(** A request to join the lobby, by a chat user or for an AI player. *)
Inductive join :=
| human_joins (now : Z) (user_id : Z)
| ai_joins (now : Z) (r : Z).

Definition run_join (g : game) (j : join) : game :=
  match j with
  | human_joins now user_id => (add_player_to_game now (IntId user_id) g).1
  | ai_joins now r => (add_ai_player_to_game now r g).1
  end.

Definition run_joins (js : list join) (g : game) : game := foldl run_join g js.

(** The ids of the participants, humans first. *)
Definition participant_ids (g : game) : list player_id := p_id <$> all_participants g.

(** The name of the [k]-th AI player starts with [ai_k_]; within the
    capacity of a game, [k] is one digit. *)
Definition ai_id_rank (i : player_id) : option nat :=
  match i with
  | StrId s =>
      if String.prefix "ai_" s
         && bool_decide (Ascii.nat_of_ascii <$> String.get 4 s = Some 95)
      then (λ d, Ascii.nat_of_ascii d - 48) <$> String.get 3 s
      else None
  | IntId _ => None
  end.

(** What every lobby reached by joins satisfies. *)
Definition lobby_invariant (g : game) : Prop :=
  length (all_participants g) ≤ MAX_PLAYERS
  ∧ NoDup (p_id <$> players g)
  ∧ Forall (λ p, ∃ n, p_id p = IntId n) (players g)
  ∧ (∀ k p, ai_players g !! k = Some p → ai_id_rank (p_id p) = Some (S k)).

(** The fields the turn engine keeps for itself: no handler it calls
    writes them. *)
Definition turn_fields (g : game)
    : option player_id * option player_id * list player_id * Z * gmap player_id (gmap nat Z) :=
  (current_player_id g, al_capone_player_id g, turn_order g, cycle_count g, blocked_cards g).

(** [q] is the first player after position [i] of the turn order, going
    round, who is not inactive. *)
Definition next_in_turn (order : list player) (i : nat) (q : player) : Prop :=
  ∃ k, k < length order
    ∧ order !! ((i + 1 + k) mod length order) = Some q
    ∧ p_status q ≠ INACTIVE
    ∧ ∀ k', k' < k →
        ∃ q', order !! ((i + 1 + k') mod length order) = Some q' ∧ p_status q' = INACTIVE.

(** A keyboard sent to a player is among the effects. *)
Definition sends_keyboard (es : list Engine.turn_effect) : Prop :=
  ∃ to text kbd, Engine.emit (send_keyboard to text kbd) ∈ es.

(** The keyboards of the handlers' messages among the effects, in the order
    sent, each with the chat it goes to: a player's, or [None] for the group
    chat.  The prompt of a bottle-match window is an effect of its own. *)
Definition keyboards_sent (es : list Engine.turn_effect)
    : list (option player_id * list button) :=
  omap (λ e, match e with
             | Engine.emit (send_keyboard to _ kbd) => Some (Some to, kbd)
             | Engine.emit (send_group_keyboard _ kbd) => Some (None, kbd)
             | _ => None
             end) es.

(** A table of three in play: player 1 is Al Capone and has the turn, the
    second cycle is running. *)
Definition table_game : game :=
  mk_game PLAYING
    [example_player (IntId 1) [Bottle 2; Bottle 3; Bottle 4; Bottle 6] false;
     example_player (IntId 2) [Bottle 5; Bottle 3; Bottle 1; Bottle 1] false]
    [example_player (StrId "ai_1_1000") [Bottle 5; Bottle 9; Bottle 9; Bottle 9] true]
    [Bottle 8; Bottle 10] [Bottle 7] [Bottle 0; Bottle 4; Bottle 4; Bottle 6]
    (Some (IntId 1)) (Some (IntId 1)) [IntId 1; IntId 2; StrId "ai_1_1000"] 2
    None None None ∅ ∅ false None.

Definition table_session : Engine.session :=
  Engine.mk_session table_game (Some (IntId 1)) true.

(** The table after player 1 used the Mamma on player 2. *)
Definition mamma_session : Engine.session :=
  Engine.mk_session (execute_the_mamma_ability (IntId 1) (IntId 2) table_game).1
    (Some (IntId 1)) true.

(** The table after every player has left the round. *)
Definition deserted_session : Engine.session :=
  Engine.mk_session
    (update_player (IntId 1) (set_status INACTIVE)
       (update_player (IntId 2) (set_status INACTIVE)
          (update_player (StrId "ai_1_1000") (set_status INACTIVE) table_game)))
    (Some (IntId 1)) true.

(** The table with player 2 left without a card. *)
Definition emptied_session : Engine.session :=
  Engine.mk_session (update_player (IntId 2) (set_hand []) table_game) (Some (IntId 1)) true.

(** A lobby of two chat users and an AI player. *)
Definition lobby_game : game :=
  run_joins [human_joins 10 1; human_joins 11 2; ai_joins 12 1000] add_game.

(** * Properties *)

(** ** Shuffling and the deck *)

Section shuffle.
Context {A : Type}.
Implicit Types x : list A.

Lemma swap_items_perm i j x : Py.swap_items i j x ≡ₚ x.
Proof.
  unfold Py.swap_items.
  destruct (x !! i) as [a|] eqn:Hi; [|done].
  destruct (x !! j) as [b|] eqn:Hj; [|done].
  by apply Permutation_insert_swap.
Qed.

Lemma shuffle_from_perm i rng x : Py.shuffle_from i rng x ≡ₚ x.
Proof.
  revert rng x. induction i as [|i IH]; intros rng x; simpl; [done|].
  rewrite IH. apply swap_items_perm.
Qed.

Lemma shuffle_perm rng x : Py.shuffle rng x ≡ₚ x.
Proof. apply shuffle_from_perm. Qed.

Lemma shuffle_length rng x : length (Py.shuffle rng x) = length x.
Proof. by rewrite shuffle_perm. Qed.

End shuffle.

Lemma count_card_perm c l k : l ≡ₚ k → count_card c l = count_card c k.
Proof. intros H. unfold count_card. by rewrite H. Qed.

Lemma count_named_perm n l k : l ≡ₚ k → count_named n l = count_named n k.
Proof. intros H. unfold count_named. by rewrite H. Qed.

(** C10. Every deck [create_deck] produces has exactly 64 cards: four
    bottles of each value 1 to 10, each worth its value in points, three
    copies each of The Alibi and The Witness, and two copies of each of the
    other nine characters; the shuffle only permutes the cards built before
    it, whatever the random draws. *)
Theorem create_deck_composition (rng : list nat) :
  length (create_deck rng) = 64
  ∧ Forall (λ v, count_card (Bottle v) (create_deck rng) = 4
                 ∧ card_points (Bottle v) = v)
      [1; 2; 3; 4; 5; 6; 7; 8; 9; 10]%Z
  ∧ Forall (λ n, count_named n (create_deck rng) = 3) ["The Alibi"; "The Witness"]
  ∧ Forall (λ n, count_named n (create_deck rng) = 2)
      ["The Lady"; "The Mole"; "The Gangster"; "The Snitch"; "The Driver";
       "The Safecracker"; "The Killer"; "The Mamma"; "Police Patrol"]
  ∧ create_deck rng ≡ₚ deck_before_shuffle.
Proof.
  assert (Hp : create_deck rng ≡ₚ deck_before_shuffle) by apply shuffle_perm.
  split_and!.
  - by rewrite Hp.
  - repeat (apply Forall_cons; split; [split; [|done]|]);
      by rewrite ?(count_card_perm _ _ _ Hp).
  - repeat (apply Forall_cons; split);
      by rewrite ?(count_named_perm _ _ _ Hp).
  - repeat (apply Forall_cons; split);
      by rewrite ?(count_named_perm _ _ _ Hp).
  - done.
Qed.

(** ** Stable sorting *)

Section sorted.
Context {A : Type} (key : A → Z).
Implicit Types l : list A.

Lemma insert_by_perm x l : Py.insert_by key x l ≡ₚ x :: l.
Proof.
  induction l as [|y l IH]; simpl; [done|].
  destruct (key x <=? key y)%Z; [done|].
  by rewrite IH, Permutation_swap.
Qed.

Lemma sorted_perm l : Py.sorted key l ≡ₚ l.
Proof.
  induction l as [|x l IH]; simpl; [done|].
  by rewrite insert_by_perm, IH.
Qed.

Lemma head_insert_by x l :
  head (Py.insert_by key x l)
  = match head l with
    | Some y => if (key x <=? key y)%Z then Some x else Some y
    | None => Some x
    end.
Proof. destruct l as [|y l]; simpl; [done|]. by destruct (key x <=? key y)%Z. Qed.

(** The head of the sorted list is the first entry with the least key. *)
Lemma head_sorted_first_minimum l x :
  head (Py.sorted key l) = Some x → first_minimum key l x.
Proof.
  revert x. induction l as [|a l IH]; intros x; simpl; [done|].
  rewrite head_insert_by.
  destruct (head (Py.sorted key l)) as [y|] eqn:Hy.
  - destruct (IH y eq_refl) as (l1 & l2 & -> & H1 & H2).
    destruct (key a <=? key y)%Z eqn:Hle; intros [= <-].
    + apply Z.leb_le in Hle. exists [], (l1 ++ y :: l2). split_and!; [done|done|].
      apply Forall_app; split; [|apply Forall_cons; split].
      * eapply Forall_impl; [exact H1|]. intros z Hz; simpl in Hz. lia.
      * done.
      * eapply Forall_impl; [exact H2|]. intros z Hz; simpl in Hz. lia.
    + apply Z.leb_gt in Hle. exists (a :: l1), l2. split_and!; [done| |done].
      apply Forall_cons; split; [lia|done].
  - intros [= <-]. destruct (Py.sorted key l) as [|? ?] eqn:Hs; [|done].
    assert (l = []) as ->.
    { apply Permutation_nil_r. by rewrite <-(sorted_perm l), Hs. }
    by exists [], [].
Qed.

Lemma first_minimum_head_sorted l x :
  first_minimum key l x → head (Py.sorted key l) = Some x.
Proof.
  intros (l1 & l2 & -> & H1 & H2).
  induction l1 as [|a l1 IH]; simpl.
  - rewrite head_insert_by.
    destruct (head (Py.sorted key l2)) as [y|] eqn:Hy; [|done].
    assert (y ∈ l2) as Hin.
    { rewrite <-(sorted_perm l2). destruct (Py.sorted key l2); simplify_eq/=. by left. }
    rewrite Forall_forall in H2. specialize (H2 y Hin).
    by destruct (Z.leb_spec (key x) (key y)); [|lia].
  - apply Forall_cons in H1 as [Ha H1].
    rewrite head_insert_by, (IH H1).
    by destruct (Z.leb_spec (key a) (key x)); [lia|].
Qed.

Lemma sorted_nonempty l : l ≠ [] → ∃ x, head (Py.sorted key l) = Some x.
Proof.
  intros Hl. destruct (Py.sorted key l) as [|x s] eqn:Hs; [|by exists x].
  destruct Hl. apply Permutation_nil_r. by rewrite <-(sorted_perm l), Hs.
Qed.

End sorted.

(** A list without repetition splits around an entry in one way only. *)
Lemma NoDup_split_unique {A} (l1 l2 k1 k2 : list A) x :
  NoDup (l1 ++ x :: l2) → l1 ++ x :: l2 = k1 ++ x :: k2 → l1 = k1 ∧ l2 = k2.
Proof.
  revert k1. induction l1 as [|a l1 IH]; intros k1 Hnd Heq.
  - destruct k1 as [|b k1]; simplify_eq/=; [done|].
    apply NoDup_cons in Hnd as [Hx _]. destruct Hx.
    apply elem_of_app. right. by left.
  - destruct k1 as [|b k1]; simplify_eq/=.
    + apply NoDup_cons in Hnd as [Hx _]. destruct Hx.
      apply elem_of_app. right. by left.
    + apply NoDup_cons in Hnd as [_ Hnd].
      destruct (IH k1 Hnd) as [-> ->]; done.
Qed.

(** ** Participants and their identifiers *)

Lemma has_id_true pid p : has_id pid p = true ↔ p_id p = pid.
Proof. unfold has_id. by rewrite bool_decide_eq_true. Qed.

Lemma find_has_id_fmap (f : player → player) pid l :
  (∀ p, p_id (f p) = p_id p) →
  List.find (has_id pid) (f <$> l) = f <$> List.find (has_id pid) l.
Proof.
  intros Hf. induction l as [|a l IH]; simpl; [done|].
  unfold has_id at 1 3. rewrite Hf. by case_bool_decide.
Qed.

Lemma find_has_id_NoDup l c :
  NoDup (p_id <$> l) → c ∈ l → List.find (has_id (p_id c)) l = Some c.
Proof.
  induction l as [|a l IH]; simpl; intros Hnd Hc; [by apply elem_of_nil in Hc|].
  apply NoDup_cons in Hnd as [Ha Hnd].
  unfold has_id at 1. case_bool_decide as Hid.
  - apply elem_of_cons in Hc as [->|Hc]; [done|].
    destruct Ha. rewrite Hid. apply list_elem_of_fmap. by exists c.
  - apply elem_of_cons in Hc as [->|Hc]; [done|]. by apply IH.
Qed.

Lemma find_has_id_Some pid l p :
  List.find (has_id pid) l = Some p → p ∈ l ∧ p_id p = pid.
Proof.
  intros H. apply find_some in H as [Hin Hid].
  split; [by apply list_elem_of_In|by apply has_id_true].
Qed.

Lemma update_first_split pid f l1 c l2 :
  Forall (λ p, p_id p ≠ pid) l1 → p_id c = pid →
  update_first pid f (l1 ++ c :: l2) = l1 ++ f c :: l2.
Proof.
  intros H1 Hc. induction l1 as [|a l1 IH]; simpl.
  - unfold has_id. by rewrite bool_decide_eq_true_2.
  - apply Forall_cons in H1 as [Ha H1].
    unfold has_id at 1. rewrite bool_decide_eq_false_2 by done. by rewrite IH.
Qed.

Lemma update_first_absent pid f l :
  existsb (has_id pid) l = false → update_first pid f l = l.
Proof.
  induction l as [|a l IH]; simpl; [done|].
  destruct (has_id pid a); simpl; [done|]. intros H. by rewrite IH.
Qed.

Lemma update_first_app pid f l k :
  update_first pid f (l ++ k)
  = if existsb (has_id pid) l then update_first pid f l ++ k
    else l ++ update_first pid f k.
Proof.
  induction l as [|a l IH]; simpl; [done|].
  destruct (has_id pid a); simpl; [done|].
  rewrite IH. by destruct (existsb (has_id pid) l).
Qed.

Lemma all_participants_update_player pid f g :
  all_participants (update_player pid f g) = update_first pid f (all_participants g).
Proof.
  unfold update_player, all_participants. rewrite update_first_app.
  by destruct (existsb (has_id pid) (players g)).
Qed.

Lemma NoDup_ids_split (l1 l2 : list player) c :
  NoDup (p_id <$> (l1 ++ c :: l2)) → Forall (λ p, p_id p ≠ p_id c) l1.
Proof.
  rewrite fmap_app, fmap_cons. intros Hnd.
  apply NoDup_app in Hnd as (_ & Hd & _).
  apply Forall_forall. intros p Hp Heq.
  apply (Hd (p_id p)); [apply list_elem_of_fmap; by exists p|].
  rewrite Heq. by left.
Qed.

(** ** Scoring *)

Lemma filter_fmap_commute {A} (P : A → bool) (f : A → A) l :
  (∀ x, P (f x) = P x) → List.filter P (f <$> l) = f <$> List.filter P l.
Proof.
  intros Hf. induction l as [|a l IH]; csimpl; [done|].
  rewrite Hf, IH. by destruct (P a).
Qed.

Lemma filter_idempotent {A} (P : A → bool) l :
  List.filter P (List.filter P l) = List.filter P l.
Proof.
  induction l as [|a l IH]; simpl; [done|].
  destruct (P a) eqn:Ha; simpl; [rewrite Ha|]; by rewrite IH.
Qed.

Lemma score_participant_id c p : p_id (score_participant c p) = p_id p.
Proof. unfold score_participant. by destruct (_ && _). Qed.

Lemma active_or_caller_score c p :
  active_or_caller c (score_participant c p) = active_or_caller c p.
Proof. unfold score_participant, active_or_caller. by destruct (_ && _). Qed.

Lemma score_participant_eligible c p :
  active_or_caller c p = true →
  p_score_this_round (score_participant c p) = hand_value p.
Proof.
  unfold active_or_caller, score_participant. intros H.
  apply orb_true_iff in H. destruct H as [H|H]; rewrite H; simpl; [done|].
  by rewrite andb_false_r.
Qed.

Lemma all_participants_score_all c g :
  all_participants (score_all c g) = score_participant c <$> all_participants g.
Proof. unfold all_participants, score_all. simpl. by rewrite fmap_app. Qed.

Lemma eligible_for_win_filter c co l :
  List.filter (active_or_caller c) l ≠ [] →
  eligible_for_win c co l = List.filter (active_or_caller c) l.
Proof.
  intros Hne. unfold eligible_for_win.
  pose proof (filter_idempotent (active_or_caller c) l) as Hi.
  destruct (List.filter (active_or_caller c) l) as [|a k] eqn:Hf; [done|].
  exact Hi.
Qed.

(** ** The settlement on the list of participants *)

Lemma settle_round_list c g :
  all_participants (settle_round c g).1 = (settle_list c (all_participants g)).1
  ∧ (settle_round c g).2 = (settle_list c (all_participants g)).2.
Proof.
  unfold settle_round, settle_list, get_player_by_id.
  rewrite all_participants_score_all.
  set (co := if truthy_opt c then _ else None).
  destruct (determine_winner _ co) as [w pen].
  destruct co as [caller|]; [destruct pen|]; simpl;
    rewrite ?all_participants_update_player, ?all_participants_score_all; done.
Qed.

Lemma cancel_pending_contexts_participants g :
  all_participants (cancel_pending_contexts g).1 = all_participants g.
Proof.
  unfold cancel_pending_contexts.
  destruct (active_ability_context g ≫= ctx_timeout_job_name);
    destruct (bottle_match_context _ ≫= bc_timeout_job_name); done.
Qed.

Lemma handle_omerta_call_scores c g :
  round_is_over (phase g) = false →
  final_scores_list (handle_omerta_call c g).1
  = Some (final_scores (p_id <$> (settle_list c (all_participants g)).2)
            (settle_list c (all_participants g)).1).
Proof.
  intros Hph. unfold handle_omerta_call. rewrite Hph.
  pose proof (cancel_pending_contexts_participants g) as Hc.
  destruct (cancel_pending_contexts g) as [g1 e]. simpl in Hc.
  set (g2 := set_omerta_caller_id c (set_phase OMERTA_CALLED g1)).
  assert (all_participants g2 = all_participants g) as H2 by done.
  destruct (settle_round_list c g2) as [Hp Hw].
  destruct (settle_round c g2) as [g3 w]. simpl in *.
  by rewrite Hp, Hw, H2.
Qed.

Lemma first_minimum_fmap {A B} (key : B → Z) (f : A → B) l y :
  first_minimum key (f <$> l) y → ∃ w, y = f w ∧ first_minimum (key ∘ f) l w.
Proof.
  intros (k1 & k2 & Heq & H1 & H2).
  apply fmap_app_inv in Heq as (l1 & l' & -> & Heq & ->).
  symmetry in Heq. apply fmap_cons_inv in Heq as (w & l2 & -> & -> & ->).
  exists w. split; [done|]. exists l1, l2. split_and!; [done| |].
  - exact (proj1 (Forall_fmap _ _ _) H1).
  - exact (proj1 (Forall_fmap _ _ _) H2).
Qed.

Lemma first_minimum_ext {A} (key1 key2 : A → Z) l x :
  Forall (λ y, key1 y = key2 y) l → first_minimum key1 l x → first_minimum key2 l x.
Proof.
  intros He (l1 & l2 & -> & H1 & H2).
  apply Forall_app in He as [He1 He2]. apply Forall_cons in He2 as [Hx He2].
  exists l1, l2. split_and!; [done| |].
  - assert (Forall (λ y, (key1 x < key1 y)%Z ∧ key1 y = key2 y) l1) as H
      by by apply Forall_and.
    eapply Forall_impl; [exact H|]. intros y [Hy Hk]; simpl in *. by rewrite <-Hx, <-Hk.
  - assert (Forall (λ y, (key1 x ≤ key1 y)%Z ∧ key1 y = key2 y) l2) as H
      by by apply Forall_and.
    eapply Forall_impl; [exact H|]. intros y [Hy Hk]; simpl in *. by rewrite <-Hx, <-Hk.
Qed.

Lemma first_minimum_elem {A} (key : A → Z) l x : first_minimum key l x → x ∈ l.
Proof. intros (l1 & l2 & -> & _). apply elem_of_app. right. by left. Qed.

Lemma NoDup_fmap_filter {A B} `{EqDecision B} (f : A → B) (P : A → bool) l :
  NoDup (f <$> l) → NoDup (f <$> List.filter P l).
Proof.
  induction l as [|a l IH]; csimpl; [done|].
  intros [Ha Hnd]%NoDup_cons. destruct (P a); csimpl; [|by apply IH].
  apply NoDup_cons. split; [|by apply IH].
  intros (x & Hx & Hin)%list_elem_of_fmap. apply Ha.
  apply list_elem_of_fmap. exists x. split; [done|].
  apply list_elem_of_In. apply list_elem_of_In in Hin. by apply filter_In in Hin as [? _].
Qed.

Section settlement.
Context (hs : list player) (cid : player_id) (c0 : player) (l1 l2 : list player).
Hypothesis Htruthy : truthy cid = true.
Hypothesis Hnd : NoDup (p_id <$> hs).
Hypothesis Hsplit : List.filter (active_or_caller (Some cid)) hs = l1 ++ c0 :: l2.
Hypothesis Hc0 : p_id c0 = cid.

Local Abbreviation sc := (score_participant (Some cid)).
Local Abbreviation E := (l1 ++ c0 :: l2).

Local Lemma c0_participant : c0 ∈ hs.
Proof.
  apply list_elem_of_In. apply (filter_In (active_or_caller (Some cid))).
  rewrite Hsplit. apply in_or_app. right. by left.
Qed.

Local Lemma E_eligible : Forall (λ p, active_or_caller (Some cid) p = true) E.
Proof.
  apply Forall_forall. intros p Hp. rewrite <-Hsplit in Hp.
  apply list_elem_of_In in Hp. by apply filter_In in Hp as [_ ?].
Qed.

Local Lemma E_NoDup_ids : NoDup (p_id <$> E).
Proof. rewrite <-Hsplit. by apply NoDup_fmap_filter. Qed.

Local Lemma E_NoDup : NoDup E.
Proof. eapply NoDup_fmap_1. apply E_NoDup_ids. Qed.

Local Lemma E_scores : Forall (λ p, p_score_this_round (sc p) = hand_value p) E.
Proof.
  eapply Forall_impl; [apply E_eligible|]. intros p Hp. by apply score_participant_eligible.
Qed.

Local Lemma caller_found :
  List.find (has_id cid) (sc <$> hs) = Some (sc c0).
Proof.
  rewrite find_has_id_fmap by apply score_participant_id.
  rewrite <-Hc0, find_has_id_NoDup; [done|done|apply c0_participant].
Qed.

Local Lemma eligible_scored :
  eligible_for_win (Some cid) (Some (sc c0)) (sc <$> hs) = sc <$> E.
Proof.
  assert (List.filter (active_or_caller (Some cid)) (sc <$> hs) = sc <$> E) as Hf.
  { rewrite filter_fmap_commute by apply active_or_caller_score. by rewrite Hsplit. }
  rewrite eligible_for_win_filter; [done|].
  rewrite Hf, fmap_app. by destruct l1.
Qed.

Local Lemma first_minimum_scored_iff :
  first_minimum p_score_this_round (sc <$> E) (sc c0) ↔
  Forall (λ p, hand_value c0 < hand_value p)%Z l1
  ∧ Forall (λ p, hand_value c0 ≤ hand_value p)%Z l2.
Proof.
  pose proof E_scores as Hs.
  apply Forall_app in Hs as [Hs1 Hs2]. apply Forall_cons in Hs2 as [Hsc Hs2].
  split.
  - intros (k1 & k2 & Heq & H1 & H2).
    rewrite fmap_app, fmap_cons in Heq.
    apply NoDup_split_unique in Heq as [<- <-].
    2:{ rewrite <-fmap_cons, <-fmap_app. eapply NoDup_fmap_1.
        rewrite <-list_fmap_compose.
        erewrite (list_fmap_ext _ p_id); [apply E_NoDup_ids|].
        intros ? p _. apply score_participant_id. }
    split.
    + apply (proj1 (Forall_fmap _ _ _)) in H1.
      assert (Forall (λ p, (p_score_this_round (sc c0) < p_score_this_round (sc p))%Z
                           ∧ p_score_this_round (sc p) = hand_value p) l1) as H
        by by apply Forall_and.
      eapply Forall_impl; [exact H|]. intros p [Hp Hv]; simpl in *. lia.
    + apply (proj1 (Forall_fmap _ _ _)) in H2.
      assert (Forall (λ p, (p_score_this_round (sc c0) ≤ p_score_this_round (sc p))%Z
                           ∧ p_score_this_round (sc p) = hand_value p) l2) as H
        by by apply Forall_and.
      eapply Forall_impl; [exact H|]. intros p [Hp Hv]; simpl in *. lia.
  - intros [H1 H2]. exists (sc <$> l1), (sc <$> l2).
    split_and!; [by rewrite fmap_app| |].
    + apply Forall_fmap.
      assert (Forall (λ p, (hand_value c0 < hand_value p)%Z
                           ∧ p_score_this_round (sc p) = hand_value p) l1) as H
        by by apply Forall_and.
      eapply Forall_impl; [exact H|]. intros p [Hp Hv]; simpl in *. lia.
    + apply Forall_fmap.
      assert (Forall (λ p, (hand_value c0 ≤ hand_value p)%Z
                           ∧ p_score_this_round (sc p) = hand_value p) l2) as H
        by by apply Forall_and.
      eapply Forall_impl; [exact H|]. intros p [Hp Hv]; simpl in *. lia.
Qed.

Local Lemma sc_c0_score : p_score_this_round (sc c0) = hand_value c0.
Proof.
  pose proof E_scores as Hs.
  apply Forall_app in Hs as [_ Hs]. by apply Forall_cons in Hs as [? _].
Qed.

Local Lemma sc_E_NoDup_ids : NoDup (p_id <$> (sc <$> E)).
Proof.
  rewrite <-list_fmap_compose.
  erewrite (list_fmap_ext _ p_id); [apply E_NoDup_ids|].
  intros ? p _. apply score_participant_id.
Qed.

(** The test of the source succeeds exactly on a perfect call. *)
Local Lemma call_succeeds_iff :
  omerta_call_succeeds (sc <$> E) (sc c0) = true ↔ perfect_call l1 c0 l2.
Proof.
  unfold omerta_call_succeeds, lowest_scorer, perfect_call. split.
  - destruct (head _) as [y|] eqn:Hy; [|done].
    intros [Hid Hle]%andb_true_iff.
    apply bool_decide_eq_true in Hid. apply Z.leb_le in Hle.
    rewrite sc_c0_score in Hle. split; [done|].
    apply first_minimum_scored_iff.
    apply head_sorted_first_minimum in Hy.
    assert (y = sc c0) as ->; [|done].
    pose proof (first_minimum_elem _ _ _ Hy) as Hin.
    assert (sc c0 ∈ sc <$> E) as Hin0.
    { apply list_elem_of_fmap. exists c0. split; [done|].
      apply elem_of_app. right. by left. }
    pose proof sc_E_NoDup_ids as Hnd'.
    apply list_elem_of_lookup in Hin as [i Hi].
    apply list_elem_of_lookup in Hin0 as [j Hj].
    assert (i = j) as ->; [|congruence].
    eapply NoDup_lookup; [exact Hnd'| |].
    + rewrite list_lookup_fmap, Hi. done.
    + rewrite list_lookup_fmap, Hj. simpl. by rewrite Hid.
  - intros (Hle & H12).
    apply first_minimum_scored_iff in H12.
    apply first_minimum_head_sorted in H12. rewrite H12.
    rewrite bool_decide_eq_true_2 by done. simpl.
    apply Z.leb_le. by rewrite sc_c0_score.
Qed.

(** The penalised list, as the map of one function over [E]. *)
Local Lemma apply_penalty_scored :
  apply_penalty (sc c0) (sc <$> E)
  = (λ p, if bool_decide (p_id p = cid)
          then set_score (hand_value c0 + OMERTA_PENALTY)%Z (sc p) else sc p) <$> E.
Proof.
  unfold apply_penalty. rewrite score_participant_id, Hc0, sc_c0_score.
  pose proof (NoDup_ids_split _ _ _ E_NoDup_ids) as H1. rewrite Hc0 in H1.
  assert (Forall (λ p, p_id p ≠ cid) l2) as H2.
  { pose proof E_NoDup_ids as Hd. rewrite fmap_app, fmap_cons in Hd.
    apply NoDup_app in Hd as (_ & _ & Hd). apply NoDup_cons in Hd as [Hd _].
    apply Forall_forall. intros p Hp Heq. apply Hd. rewrite Hc0, <-Heq.
    apply list_elem_of_fmap. by exists p. }
  rewrite !fmap_app, !fmap_cons.
  rewrite update_first_split; [|apply Forall_fmap; eapply Forall_impl; [exact H1|];
    by intros p Hp; simpl; rewrite score_participant_id|by rewrite score_participant_id].
  rewrite (bool_decide_eq_true_2 (p_id c0 = cid)) by done.
  f_equal; [|f_equal]; apply Forall_fmap_ext_1.
  - eapply Forall_impl; [exact H1|]. intros p Hp; simpl. by rewrite bool_decide_eq_false_2.
  - eapply Forall_impl; [exact H2|]. intros p Hp; simpl. by rewrite bool_decide_eq_false_2.
Qed.

Local Lemma penalised_scores :
  Forall (λ p, p_score_this_round
                 (if bool_decide (p_id p = cid)
                  then set_score (hand_value c0 + OMERTA_PENALTY)%Z (sc p) else sc p)
               = penalised_score cid p) E.
Proof.
  apply Forall_forall. intros p Hp. unfold penalised_score.
  case_bool_decide as Hid.
  - simpl. assert (p = c0) as ->; [|done].
    apply list_elem_of_lookup in Hp as [i Hi].
    assert (E !! length l1 = Some c0) as Hj by by rewrite list_lookup_middle.
    assert (i = length l1) as ->; [|congruence].
    eapply NoDup_lookup; [exact E_NoDup_ids| |].
    + by rewrite list_lookup_fmap, Hi.
    + rewrite list_lookup_fmap, Hj. simpl. congruence.
  - pose proof E_scores as Hs. rewrite Forall_forall in Hs. by apply Hs.
Qed.

(** The outcome of the settlement on the participants. *)
Local Lemma settle_list_perfect :
  perfect_call l1 c0 l2 →
  settle_list (Some cid) hs = (sc <$> hs, Some (sc c0)).
Proof.
  intros Hp. unfold settle_list. simpl. rewrite Htruthy. simpl.
  rewrite caller_found, eligible_scored. unfold determine_winner.
  rewrite fmap_app, fmap_cons.
  replace (Py.nonempty _) with true by by destruct l1.
  simpl. rewrite bool_decide_eq_true_2 by (apply elem_of_app; right; by left).
  rewrite <-fmap_cons, <-fmap_app.
  by rewrite (proj2 call_succeeds_iff Hp).
Qed.

Local Lemma settle_list_penalised :
  ¬ perfect_call l1 c0 l2 →
  ∃ w, first_minimum (penalised_score cid) E w
    ∧ settle_list (Some cid) hs
      = (update_first cid (set_score (hand_value c0 + OMERTA_PENALTY)%Z) (sc <$> hs),
         Some (if bool_decide (p_id w = cid)
               then set_score (hand_value c0 + OMERTA_PENALTY)%Z (sc w) else sc w)).
Proof.
  intros Hp. unfold settle_list. simpl. rewrite Htruthy. simpl.
  rewrite caller_found, eligible_scored. unfold determine_winner.
  rewrite fmap_app, fmap_cons.
  replace (Py.nonempty _) with true by by destruct l1.
  simpl. rewrite bool_decide_eq_true_2 by (apply elem_of_app; right; by left).
  rewrite <-fmap_cons, <-fmap_app.
  destruct (omerta_call_succeeds _ _) eqn:Hs; [by apply call_succeeds_iff in Hs|].
  rewrite apply_penalty_scored. unfold lowest_scorer.
  destruct (sorted_nonempty p_score_this_round
    ((λ p, if bool_decide (p_id p = cid)
           then set_score (hand_value c0 + OMERTA_PENALTY)%Z (sc p) else sc p) <$> E))
    as [y Hy]; [by destruct l1|].
  rewrite Hy. apply head_sorted_first_minimum in Hy.
  apply first_minimum_fmap in Hy as (w & -> & Hw).
  exists w. split.
  - eapply first_minimum_ext; [|exact Hw]. apply penalised_scores.
  - by rewrite score_participant_id, Hc0, sc_c0_score.
Qed.

End settlement.

(** ** What the settlement records *)

Lemma final_scores_winners wid ps :
  NoDup (p_id <$> ps) → wid ∈ p_id <$> ps →
  fs_id <$> List.filter fs_is_winner (final_scores (Some wid) ps) = [wid].
Proof.
  unfold final_scores. induction ps as [|a ps IH]; csimpl; intros Hnd Hin.
  { by apply elem_of_nil in Hin. }
  apply NoDup_cons in Hnd as [Ha Hnd].
  case_bool_decide as Hid; csimpl.
  - simplify_eq. f_equal.
    assert (∀ l, p_id a ∉ p_id <$> l →
      fs_id <$> List.filter fs_is_winner
        ((λ p, mk_final_score (p_id p) (p_score_this_round p)
                 (bool_decide (Some (p_id p) = Some (p_id a))) (p_is_ai p)) <$> l) = []) as Hnone.
    { induction l as [|b l IHl]; csimpl; [done|]. intros Hb.
      apply not_elem_of_cons in Hb as [Hb Hl].
      rewrite bool_decide_eq_false_2 by congruence. by apply IHl. }
    by apply Hnone.
  - apply elem_of_cons in Hin as [->|Hin]; [done|]. by apply IH.
Qed.

Lemma final_scores_find w pid ps :
  fs_score <$> List.find (λ s, bool_decide (fs_id s = pid)) (final_scores w ps)
  = p_score_this_round <$> List.find (has_id pid) ps.
Proof.
  unfold final_scores, has_id. induction ps as [|a ps IH]; csimpl; [done|].
  by case_bool_decide.
Qed.

Lemma find_update_first pid f l :
  (∀ p, p_id (f p) = p_id p) →
  List.find (has_id pid) (update_first pid f l) = f <$> List.find (has_id pid) l.
Proof.
  intros Hf. induction l as [|a l IH]; simpl; [done|].
  destruct (has_id pid a) eqn:Ha; simpl.
  - unfold has_id in *. by rewrite Hf, Ha.
  - by rewrite Ha.
Qed.

Lemma update_first_ids pid f l :
  (∀ p, p_id (f p) = p_id p) → p_id <$> update_first pid f l = p_id <$> l.
Proof.
  intros Hf. induction l as [|a l IH]; csimpl; [done|].
  destruct (has_id pid a); csimpl; by rewrite ?Hf, ?IH.
Qed.

(** C1 (amended). For a settlement with a truthy caller id among the
    eligible (active-or-caller) participants, whose ids are pairwise
    distinct: the call is perfect -- the caller is recorded as the only
    winner with the unpenalised hand value -- if and only if the caller's
    hand value is at or below the threshold 7, strictly below every eligible
    participant listed before the caller and at or below every one listed
    after; otherwise the caller's recorded score is the hand value plus
    exactly 20, and the recorded winner is the first eligible participant of
    least score once the penalty is applied. *)
Theorem omerta_caller_settlement (g : game) (cid : player_id) (c0 : player)
    (l1 l2 : list player) :
  round_is_over (phase g) = false →
  truthy cid = true →
  NoDup (p_id <$> all_participants g) →
  List.filter (active_or_caller (Some cid)) (all_participants g) = l1 ++ c0 :: l2 →
  p_id c0 = cid →
  (perfect_call l1 c0 l2 ↔
     recorded_winners (handle_omerta_call (Some cid) g).1 = [cid]
     ∧ recorded_score (handle_omerta_call (Some cid) g).1 cid = Some (hand_value c0))
  ∧ (¬ perfect_call l1 c0 l2 →
     recorded_score (handle_omerta_call (Some cid) g).1 cid
       = Some (hand_value c0 + OMERTA_PENALTY)%Z
     ∧ ∃ w, first_minimum (penalised_score cid) (l1 ++ c0 :: l2) w
         ∧ recorded_winners (handle_omerta_call (Some cid) g).1 = [p_id w]).
Proof.
  intros Hph Htr Hnd Hsplit Hc0.
  unfold recorded_winners, recorded_score.
  rewrite (handle_omerta_call_scores _ _ Hph). simpl.
  pose proof (caller_found _ _ _ _ _ Hnd Hsplit Hc0) as Hfind.
  assert (Hperf : perfect_call l1 c0 l2 →
    fs_id <$> List.filter fs_is_winner
      (final_scores (p_id <$> (settle_list (Some cid) (all_participants g)).2)
         (settle_list (Some cid) (all_participants g)).1) = [cid]
    ∧ fs_score <$> List.find (λ s, bool_decide (fs_id s = cid))
        (final_scores (p_id <$> (settle_list (Some cid) (all_participants g)).2)
           (settle_list (Some cid) (all_participants g)).1) = Some (hand_value c0)).
  { intros Hp.
    rewrite (settle_list_perfect _ _ _ _ _ Htr Hnd Hsplit Hc0 Hp). simpl.
    rewrite score_participant_id, Hc0. split.
    - apply final_scores_winners.
      + rewrite <-list_fmap_compose.
        erewrite (list_fmap_ext _ p_id); [done|]. intros ? p _. apply score_participant_id.
      + apply list_elem_of_fmap. exists (score_participant (Some cid) c0).
        split; [by rewrite score_participant_id|].
        apply list_elem_of_fmap. exists c0. split; [done|].
        by apply (c0_participant _ _ _ _ _ Hsplit).
    - rewrite final_scores_find, Hfind. simpl.
      by rewrite (sc_c0_score _ _ _ _ _ Hsplit). }
  assert (Hpen : ¬ perfect_call l1 c0 l2 →
    fs_score <$> List.find (λ s, bool_decide (fs_id s = cid))
        (final_scores (p_id <$> (settle_list (Some cid) (all_participants g)).2)
           (settle_list (Some cid) (all_participants g)).1)
      = Some (hand_value c0 + OMERTA_PENALTY)%Z
    ∧ ∃ w, first_minimum (penalised_score cid) (l1 ++ c0 :: l2) w
        ∧ fs_id <$> List.filter fs_is_winner
            (final_scores (p_id <$> (settle_list (Some cid) (all_participants g)).2)
               (settle_list (Some cid) (all_participants g)).1) = [p_id w]).
  { intros Hp.
    destruct (settle_list_penalised _ _ _ _ _ Htr Hnd Hsplit Hc0 Hp) as (w & Hw & ->).
    simpl. split.
    - rewrite final_scores_find, find_update_first by done. by rewrite Hfind.
    - exists w. split; [done|].
      replace (p_id (if bool_decide (p_id w = cid) then _ else _)) with (p_id w)
        by (case_bool_decide; simpl; by rewrite score_participant_id).
      apply final_scores_winners.
      + rewrite update_first_ids by done. rewrite <-list_fmap_compose.
        erewrite (list_fmap_ext _ p_id); [done|]. intros ? p _. apply score_participant_id.
      + rewrite update_first_ids by done. rewrite <-list_fmap_compose.
        erewrite (list_fmap_ext _ p_id); [|intros ? p _; apply score_participant_id].
        apply list_elem_of_fmap. exists w. split; [done|].
        apply first_minimum_elem in Hw. rewrite <-Hsplit in Hw.
        apply list_elem_of_In. apply list_elem_of_In in Hw.
        by apply filter_In in Hw as [? _]. }
  split; [split; [exact Hperf|]|exact Hpen].
  intros [_ Hscore].
  destruct (decide (perfect_call l1 c0 l2)) as [|Hn]; [done|].
  destruct (Hpen Hn) as [Hscore' _]. rewrite Hscore' in Hscore.
  unfold OMERTA_PENALTY in Hscore. simplify_eq. lia.
Qed.

Lemma omerta_caller_settlement_witness :
  (perfect_call [] (example_player (IntId 1) [Bottle 2; Bottle 3] false)
     [example_player (IntId 2) [Bottle 1; Bottle 4] false;
      example_player (StrId "ai_1_1000") [Bottle 9] true] ↔
     recorded_winners (handle_omerta_call (Some (IntId 1)) tie_game).1 = [IntId 1]
     ∧ recorded_score (handle_omerta_call (Some (IntId 1)) tie_game).1 (IntId 1)
       = Some (hand_value (example_player (IntId 1) [Bottle 2; Bottle 3] false)))
  ∧ (¬ perfect_call [] (example_player (IntId 1) [Bottle 2; Bottle 3] false)
         [example_player (IntId 2) [Bottle 1; Bottle 4] false;
          example_player (StrId "ai_1_1000") [Bottle 9] true] →
     recorded_score (handle_omerta_call (Some (IntId 1)) tie_game).1 (IntId 1)
       = Some (hand_value (example_player (IntId 1) [Bottle 2; Bottle 3] false)
               + OMERTA_PENALTY)%Z
     ∧ ∃ w, first_minimum (penalised_score (IntId 1))
              ([] ++ example_player (IntId 1) [Bottle 2; Bottle 3] false
                  :: [example_player (IntId 2) [Bottle 1; Bottle 4] false;
                      example_player (StrId "ai_1_1000") [Bottle 9] true]) w
         ∧ recorded_winners (handle_omerta_call (Some (IntId 1)) tie_game).1 = [p_id w]).
Proof.
  apply (omerta_caller_settlement tie_game (IntId 1)
           (example_player (IntId 1) [Bottle 2; Bottle 3] false) []
           [example_player (IntId 2) [Bottle 1; Bottle 4] false;
            example_player (StrId "ai_1_1000") [Bottle 9] true]).
  - reflexivity.
  - reflexivity.
  - apply (bool_decide_unpack _). vm_compute. exact I.
  - reflexivity.
  - reflexivity.
Defined.

(** C1, as stated, fails twice over.  In [tie_game] the caller and another
    participant both hold 5 points: the caller is recorded as the winner
    although the score is not a strict minimum.  In [high_call_game] the
    caller holds 8 points, above the threshold, and is still recorded as the
    winner, with the penalised score 28, because the only other participant
    holds 30. *)
Lemma omerta_strict_minimum_counterexample :
  (recorded_winners (handle_omerta_call (Some (IntId 1)) tie_game).1 = [IntId 1]
   ∧ recorded_score (handle_omerta_call (Some (IntId 1)) tie_game).1 (IntId 1) = Some 5%Z
   ∧ strict_minimum (example_player (IntId 1) [Bottle 2; Bottle 3] false)
       (all_participants tie_game) = false)
  ∧ (recorded_winners (handle_omerta_call (Some (IntId 1)) high_call_game).1 = [IntId 1]
     ∧ recorded_score (handle_omerta_call (Some (IntId 1)) high_call_game).1 (IntId 1)
       = Some 28%Z
     ∧ (hand_value (example_player (IntId 1) [Bottle 8] false) <=? OMERTA_THRESHOLD)%Z
       = false).
Proof. split; split_and!; reflexivity. Qed.

(** ** Re-entry of the settlement *)

Lemma handle_omerta_call_over caller_id g :
  round_is_over (phase g) = true → handle_omerta_call caller_id g = (g, []).
Proof. intros H. unfold handle_omerta_call. by rewrite H. Qed.

Lemma handle_omerta_call_phase caller_id g :
  round_is_over (phase (handle_omerta_call caller_id g).1) = true.
Proof.
  unfold handle_omerta_call.
  destruct (round_is_over (phase g)) eqn:H; [done|].
  destruct (cancel_pending_contexts g) as [g1 e].
  by destruct (settle_round _ _) as [g2 w].
Qed.

(** C9. When the phase is already [omerta_called] or [completed], the
    settlement handler returns the session as it is and emits nothing: no
    hand is revealed, no score recomputed, the phase stays, no result is
    recorded.  In particular a second call after any call is such a no-op. *)
Theorem handle_omerta_call_reentry (caller_id : option player_id) (g : game) :
  (phase g = OMERTA_CALLED ∨ phase g = COMPLETED →
   handle_omerta_call caller_id g = (g, []))
  ∧ ∀ again, handle_omerta_call again (handle_omerta_call caller_id g).1
             = ((handle_omerta_call caller_id g).1, []).
Proof.
  split.
  - intros H. apply handle_omerta_call_over. unfold round_is_over.
    apply bool_decide_eq_true. destruct H as [-> | ->]; set_solver.
  - intros again. apply handle_omerta_call_over, handle_omerta_call_phase.
Qed.

Lemma handle_omerta_call_reentry_witness :
  handle_omerta_call (Some (IntId 2)) settled_game = (settled_game, []).
Proof.
  apply (proj1 (handle_omerta_call_reentry (Some (IntId 2)) settled_game)).
  right. reflexivity.
Defined.

(** ** Stale timers *)

Lemma character_ability_timeout_job_stale rng now tag g :
  stale_ability_timer tag g = true →
  character_ability_timeout_job rng now (Some tag) g = (g, []).
Proof.
  unfold stale_ability_timer, character_ability_timeout_job.
  destruct (active_ability_context g) as [c|]; [|done].
  intros Hne%negb_true_iff%bool_decide_eq_false.
  rewrite bool_decide_eq_false_2; [done|]. by intros [= ?].
Qed.

Lemma end_bottle_match_window_job_stale tag g :
  stale_bottle_timer tag g = true →
  end_bottle_match_window_job (Some tag) g = (g, []).
Proof.
  unfold stale_bottle_timer, end_bottle_match_window_job.
  destruct (bottle_match_context g) as [b|]; [|done].
  intros ->. by rewrite orb_true_r.
Qed.

Lemma ai_attempt_bottle_match_job_stale ai_player_id card_idx tag g :
  stale_bottle_timer tag g = true →
  ai_attempt_bottle_match_job ai_player_id card_idx tag g = (g, []).
Proof.
  unfold stale_bottle_timer, ai_attempt_bottle_match_job.
  destruct (negb (bool_decide (phase g = BOTTLE_MATCHING_WINDOW))); [done|].
  destruct (bottle_match_context g) as [b|]; [|done]. by intros ->.
Qed.

(** C4. A timer that fires when the context it was scheduled for is gone,
    or when the session's current context is another object than the one
    whose identity the timer captured, changes nothing and emits nothing:
    this holds for the ability timeout, for the expiry of the bottle window
    and for an AI's scheduled match attempt. *)
Theorem stale_timer_is_noop (rng : list nat) (now : Z) (tag : positive) (g : game) :
  (stale_ability_timer tag g = true →
   character_ability_timeout_job rng now (Some tag) g = (g, []))
  ∧ (stale_bottle_timer tag g = true →
     end_bottle_match_window_job (Some tag) g = (g, [])
     ∧ ∀ ai_player_id card_idx,
         ai_attempt_bottle_match_job ai_player_id card_idx tag g = (g, [])).
Proof.
  split; [apply character_ability_timeout_job_stale|].
  intros H. split; [by apply end_bottle_match_window_job_stale|].
  intros. by apply ai_attempt_bottle_match_job_stale.
Qed.

Lemma stale_timer_is_noop_witness :
  character_ability_timeout_job [] 0 (Some 3%positive) window_game = (window_game, [])
  ∧ end_bottle_match_window_job (Some 3%positive) window_game = (window_game, [])
  ∧ ai_attempt_bottle_match_job (StrId "ai_1_1000") 0 3%positive window_game
    = (window_game, []).
Proof.
  destruct (stale_timer_is_noop [] 0 3%positive window_game) as [Ha Hb].
  split; [apply Ha; reflexivity|].
  destruct (Hb eq_refl) as [Hc Hd]. split; [exact Hc|apply Hd].
Defined.

(** ** The bottle-match window *)

Lemma get_player_by_id_update_player pid f g :
  (∀ p, p_id (f p) = p_id p) →
  get_player_by_id (update_player pid f g) pid = f <$> get_player_by_id g pid.
Proof.
  intros Hf. unfold get_player_by_id.
  by rewrite all_participants_update_player, find_update_first.
Qed.

Lemma update_player_frame pid f g :
  phase (update_player pid f g) = phase g
  ∧ deck (update_player pid f g) = deck g
  ∧ discard_pile (update_player pid f g) = discard_pile g
  ∧ safe (update_player pid f g) = safe g
  ∧ bottle_match_context (update_player pid f g) = bottle_match_context g
  ∧ active_ability_context (update_player pid f g) = active_ability_context g
  ∧ blocked_cards (update_player pid f g) = blocked_cards g.
Proof. unfold update_player. by destruct (existsb _ _). Qed.

Lemma draw_penalty_card_frame pid g :
  phase (draw_penalty_card pid g) = phase g
  ∧ bottle_match_context (draw_penalty_card pid g) = bottle_match_context g.
Proof.
  unfold draw_penalty_card. destruct (Py.pop (deck g)) as [[c d]|]; [|done].
  destruct (update_player_frame pid (λ p, set_hand (p_hand p ++ [c]) p) (set_deck d g))
    as (-> & _ & _ & _ & -> & _). done.
Qed.

(** The context and the phase after an attempt's step. *)
Lemma attempt_step_context pid idx g :
  phase (bottle_match_attempt_step pid idx g).1 = phase g
  ∧ bottle_match_context (bottle_match_attempt_step pid idx g).1
    = match classify_attempt g pid idx with
      | att_matched _ => bc_set_fastest_matcher_id (Some pid) <$> bottle_match_context g
      | att_failed _ =>
          (λ b, bc_set_failed_matchers ({[pid]} ∪ bc_failed_matchers b) b)
            <$> bottle_match_context g
      | _ => bottle_match_context g
      end.
Proof.
  unfold bottle_match_attempt_step.
  destruct (classify_attempt g pid idx); try done; simpl.
  - destruct (update_player_frame pid (λ p, set_hand (delete idx (p_hand p)) p)
      (update_bottle_context (bc_set_fastest_matcher_id (Some pid)) g))
      as (-> & _ & _ & _ & -> & _). done.
  - destruct (draw_penalty_card_frame pid
      (update_bottle_context
         (λ b, bc_set_failed_matchers ({[pid]} ∪ bc_failed_matchers b) b) g))
      as (-> & ->). done.
Qed.

(** What the classification means for the context. *)
Lemma classify_matched_inv g pid idx c :
  classify_attempt g pid idx = att_matched c →
  ∃ p b, get_player_by_id g pid = Some p ∧ bottle_match_context g = Some b
    ∧ phase g = BOTTLE_MATCHING_WINDOW
    ∧ truthy_opt (bc_fastest_matcher_id b) = false
    ∧ (pid ∉ bc_failed_matchers b)
    ∧ p_hand p !! idx = Some c
    ∧ c = Bottle (default 0%Z (card_value c))
    ∧ card_value c = bc_discarded_card_value b.
Proof.
  unfold classify_attempt.
  destruct (get_player_by_id g pid) as [p|]; [|done].
  destruct (bottle_match_context g) as [b|]; [|done].
  case_bool_decide as Hph; [|done]. simpl.
  destruct (truthy_opt _) eqn:Ht; [done|].
  case_bool_decide as Hf; [done|].
  destruct (p_hand p !! idx) as [c'|] eqn:Hc; [|done].
  destruct (andb (is_bottle c') _) eqn:Hm; [|done].
  intros [= <-]. apply andb_true_iff in Hm as [Hb Hv].
  apply bool_decide_eq_true in Hv.
  exists p, b. split_and!; try done. by destruct c'.
Qed.

Lemma classify_failed_inv g pid idx c :
  classify_attempt g pid idx = att_failed c →
  ∃ p b, get_player_by_id g pid = Some p ∧ bottle_match_context g = Some b
    ∧ phase g = BOTTLE_MATCHING_WINDOW
    ∧ truthy_opt (bc_fastest_matcher_id b) = false
    ∧ (pid ∉ bc_failed_matchers b)
    ∧ p_hand p !! idx = Some c.
Proof.
  unfold classify_attempt.
  destruct (get_player_by_id g pid) as [p|]; [|done].
  destruct (bottle_match_context g) as [b|]; [|done].
  case_bool_decide as Hph; [|done]. simpl.
  destruct (truthy_opt _) eqn:Ht; [done|].
  case_bool_decide as Hf; [done|].
  destruct (p_hand p !! idx) as [c'|] eqn:Hc; [|done].
  destruct (andb (is_bottle c') _) eqn:Hm; [done|].
  intros [= <-]. by exists p, b.
Qed.

(** An attempt is turned away once a winner is recorded, and once the
    player is in [failed_matchers]. *)
Lemma classify_claimed g pid idx b :
  bottle_match_context g = Some b → truthy_opt (bc_fastest_matcher_id b) = true →
  classify_attempt g pid idx = att_window_closed
  ∨ classify_attempt g pid idx = att_already_claimed.
Proof.
  intros Hb Ht. unfold classify_attempt. rewrite Hb.
  destruct (get_player_by_id g pid); [|by left].
  case_bool_decide; simpl; [|by left]. rewrite Ht. by right.
Qed.

Lemma classify_barred g pid idx b :
  bottle_match_context g = Some b → pid ∈ bc_failed_matchers b →
  classify_attempt g pid idx = att_window_closed
  ∨ classify_attempt g pid idx = att_already_claimed
  ∨ classify_attempt g pid idx = att_already_failed.
Proof.
  intros Hb Hf. unfold classify_attempt. rewrite Hb.
  destruct (get_player_by_id g pid); [|by left].
  case_bool_decide; simpl; [|by left].
  destruct (truthy_opt _); [by right; left|].
  rewrite bool_decide_eq_true_2 by done. by right; right.
Qed.

Lemma classify_no_window g pid idx :
  bottle_match_context g = None → classify_attempt g pid idx = att_window_closed.
Proof. intros Hb. unfold classify_attempt. rewrite Hb. by destruct (get_player_by_id g pid). Qed.

Lemma handler_rejects g pid idx :
  classify_attempt g pid idx = att_window_closed
  ∨ classify_attempt g pid idx = att_already_claimed
  ∨ classify_attempt g pid idx = att_already_failed →
  handle_bottle_match_attempt pid idx g = (g, []).
Proof.
  unfold handle_bottle_match_attempt, bottle_match_attempt_step.
  intros [-> | [-> | ->]]; done.
Qed.

(** *** Runs of a window *)

Lemma run_window_event_context ev g :
  bottle_match_context (run_window_event ev g) = None
  ∨ bottle_match_context (run_window_event ev g)
    = match ev with
      | ev_attempt pid idx => bottle_match_context (bottle_match_attempt_step pid idx g).1
      | _ => bottle_match_context g
      end.
Proof.
  destruct ev as [pid idx|bc|expected]; simpl.
  - by right.
  - by left.
  - unfold end_bottle_match_window_job.
    destruct (bottle_match_context g) as [b|] eqn:Hb; simpl; [|by right].
    destruct (_ || _); simpl; [by right|left].
    by destruct (truthy_opt (bc_triggering_player_id b)).
Qed.

Lemma window_claimed_preserved ev g :
  window_claimed g → window_claimed (run_window_event ev g).
Proof.
  unfold window_claimed. intros Hc.
  destruct (run_window_event_context ev g) as [-> | ->]; [done|].
  destruct ev as [pid idx| |]; try done.
  destruct (attempt_step_context pid idx g) as [_ ->].
  destruct (bottle_match_context g) as [b|] eqn:Hb.
  - by destruct (classify_claimed g pid idx b Hb Hc) as [-> | ->].
  - by rewrite (classify_no_window g pid idx Hb).
Qed.

Lemma window_bars_preserved pid ev g :
  window_bars pid g → window_bars pid (run_window_event ev g).
Proof.
  unfold window_bars. intros Hc.
  destruct (run_window_event_context ev g) as [-> | ->]; [done|].
  destruct ev as [pid' idx| |]; try done.
  destruct (attempt_step_context pid' idx g) as [_ ->].
  destruct (bottle_match_context g) as [b|] eqn:Hb.
  - destruct (classify_attempt g pid' idx); simpl; try done. set_solver.
  - by rewrite (classify_no_window g pid' idx Hb).
Qed.

Lemma window_trace_claimed evs g :
  window_claimed g → List.filter is_match (window_trace evs g) = [].
Proof.
  revert g. induction evs as [|ev evs IH]; intros g Hc; simpl; [done|].
  rewrite List.filter_app, (IH _ (window_claimed_preserved ev g Hc)), app_nil_r.
  destruct ev as [pid idx| |]; try done. simpl.
  unfold window_claimed in Hc.
  destruct (bottle_match_context g) as [b|] eqn:Hb.
  - by destruct (classify_claimed g pid idx b Hb Hc) as [-> | ->].
  - by rewrite (classify_no_window g pid idx Hb).
Qed.

Lemma window_trace_barred pid evs g :
  window_bars pid g → List.filter (is_failure_of pid) (window_trace evs g) = [].
Proof.
  revert g. induction evs as [|ev evs IH]; intros g Hc; simpl; [done|].
  rewrite List.filter_app, (IH _ (window_bars_preserved pid ev g Hc)), app_nil_r.
  destruct ev as [pid' idx| |]; try done. simpl.
  unfold is_failure_of. simpl. case_bool_decide as Hp; [subst pid'|done]. simpl.
  unfold window_bars in Hc.
  destruct (bottle_match_context g) as [b|] eqn:Hb.
  - by destruct (classify_barred g pid idx b Hb Hc) as [-> | [-> | ->]].
  - by rewrite (classify_no_window g pid idx Hb).
Qed.

Lemma window_trace_one_match evs g :
  Forall attempt_by_truthy_id evs →
  length (List.filter is_match (window_trace evs g)) ≤ 1.
Proof.
  revert g. induction evs as [|ev evs IH]; intros g Ht; simpl; [lia|].
  apply Forall_cons in Ht as [Hev Ht].
  rewrite List.filter_app, length_app.
  destruct ev as [pid idx|bc|expected]; simpl; try by apply IH.
  unfold is_match at 1. simpl.
  destruct (classify_attempt g pid idx) as [| | | |c|c] eqn:Hcl; simpl;
    try by apply IH.
  rewrite window_trace_claimed; [simpl; lia|].
  unfold window_claimed.
  destruct (attempt_step_context pid idx g) as [_ ->]. rewrite Hcl.
  apply classify_matched_inv in Hcl as (p & b & _ & -> & _). simpl. exact Hev.
Qed.

Lemma window_trace_one_failure pid evs g :
  length (List.filter (is_failure_of pid) (window_trace evs g)) ≤ 1.
Proof.
  revert g. induction evs as [|ev evs IH]; intros g; simpl; [lia|].
  rewrite List.filter_app, length_app.
  destruct ev as [pid' idx|bc|expected]; simpl; try by apply IH.
  unfold is_failure_of at 1. simpl.
  case_bool_decide as Hp; [subst pid'|by apply IH]. simpl.
  destruct (classify_attempt g pid idx) as [| | | |c|c] eqn:Hcl; simpl;
    try by apply IH.
  rewrite window_trace_barred; [simpl; lia|].
  unfold window_bars.
  destruct (attempt_step_context pid idx g) as [_ ->]. rewrite Hcl.
  apply classify_failed_inv in Hcl as (p & b & _ & -> & _). simpl. set_solver.
Qed.

(** *** A failed attempt *)

Lemma failed_attempt_effect g pid idx c p b :
  classify_attempt g pid idx = att_failed c →
  get_player_by_id g pid = Some p → bottle_match_context g = Some b →
  bottle_match_context (handle_bottle_match_attempt pid idx g).1
    = Some (bc_set_failed_matchers ({[pid]} ∪ bc_failed_matchers b) b)
  ∧ match Py.pop (deck g) with
    | Some (penalty_card, d) =>
        deck (handle_bottle_match_attempt pid idx g).1 = d
        ∧ p_hand <$> get_player_by_id (handle_bottle_match_attempt pid idx g).1 pid
          = Some (p_hand p ++ [penalty_card])
    | None =>
        deck (handle_bottle_match_attempt pid idx g).1 = deck g
        ∧ p_hand <$> get_player_by_id (handle_bottle_match_attempt pid idx g).1 pid
          = Some (p_hand p)
    end.
Proof.
  intros Hcl Hp Hb.
  unfold handle_bottle_match_attempt, bottle_match_attempt_step. rewrite Hcl. simpl.
  set (g1 := update_bottle_context _ g).
  assert (get_player_by_id g1 pid = Some p) as Hp1 by done.
  assert (deck g1 = deck g) as Hd1 by done.
  split.
  - destruct (draw_penalty_card_frame pid g1) as [_ ->]. unfold g1. simpl. by rewrite Hb.
  - unfold draw_penalty_card. rewrite Hd1.
    destruct (Py.pop (deck g)) as [[x d]|]; [|by rewrite Hd1, Hp1].
    destruct (update_player_frame pid (λ q, set_hand (p_hand q ++ [x]) q) (set_deck d g1))
      as (_ & -> & _). split; [done|].
    rewrite get_player_by_id_update_player by done.
    replace (get_player_by_id (set_deck d g1) pid) with (Some p) by done. done.
Qed.

Lemma failed_attempt_bars g pid idx c idx' :
  classify_attempt g pid idx = att_failed c →
  handle_bottle_match_attempt pid idx' (handle_bottle_match_attempt pid idx g).1
  = ((handle_bottle_match_attempt pid idx g).1, []).
Proof.
  intros Hcl.
  destruct (classify_failed_inv _ _ _ _ Hcl) as (p & b & Hp & Hb & _).
  destruct (failed_attempt_effect _ _ _ _ _ _ Hcl Hp Hb) as [Hb' _].
  apply handler_rejects. eapply classify_barred; [exact Hb'|]. simpl. set_solver.
Qed.

(** C2. In a bottle-match window:
    - an attempt made when a winner is already recorded is turned away and
      changes nothing;
    - an attempt is recorded as the winner only when the window had none;
    - a failed attempt puts the player into the window's failed set and
      moves exactly one card from the deck to the end of the player's hand
      when the deck is not empty, none when it is empty, and every further
      attempt of that player in the window is turned away;
    - over any run of attempts, resumptions and timer expiries on the
      window, at most one attempt matches (the attempting ids being truthy,
      as the ids of chat users and AI players are) and no player fails
      twice. *)
Theorem bottle_window_first_match_wins (g : game) (pid : player_id) (idx : nat) :
  (∀ b, bottle_match_context g = Some b →
        truthy_opt (bc_fastest_matcher_id b) = true →
        handle_bottle_match_attempt pid idx g = (g, []))
  ∧ (∀ c, classify_attempt g pid idx = att_matched c →
       ∃ b, bottle_match_context g = Some b
         ∧ truthy_opt (bc_fastest_matcher_id b) = false
         ∧ bottle_match_context (bottle_match_attempt_step pid idx g).1
           = Some (bc_set_fastest_matcher_id (Some pid) b))
  ∧ (∀ c, classify_attempt g pid idx = att_failed c →
       ∃ p b, get_player_by_id g pid = Some p ∧ bottle_match_context g = Some b
         ∧ bottle_match_context (handle_bottle_match_attempt pid idx g).1
           = Some (bc_set_failed_matchers ({[pid]} ∪ bc_failed_matchers b) b)
         ∧ match Py.pop (deck g) with
           | Some (penalty_card, d) =>
               deck (handle_bottle_match_attempt pid idx g).1 = d
               ∧ p_hand <$> get_player_by_id (handle_bottle_match_attempt pid idx g).1 pid
                 = Some (p_hand p ++ [penalty_card])
           | None =>
               deck (handle_bottle_match_attempt pid idx g).1 = deck g
               ∧ p_hand <$> get_player_by_id (handle_bottle_match_attempt pid idx g).1 pid
                 = Some (p_hand p)
           end
         ∧ ∀ idx', handle_bottle_match_attempt pid idx'
                     (handle_bottle_match_attempt pid idx g).1
                   = ((handle_bottle_match_attempt pid idx g).1, []))
  ∧ (∀ evs, Forall attempt_by_truthy_id evs →
       length (List.filter is_match (window_trace evs g)) ≤ 1)
  ∧ (∀ evs player, length (List.filter (is_failure_of player) (window_trace evs g)) ≤ 1).
Proof.
  split_and!.
  - intros b Hb Ht. apply handler_rejects.
    destruct (classify_claimed g pid idx b Hb Ht) as [-> | ->]; auto.
  - intros c Hcl.
    destruct (classify_matched_inv _ _ _ _ Hcl) as (p & b & _ & Hb & _ & Ht & _).
    exists b. split_and!; [done|done|].
    destruct (attempt_step_context pid idx g) as [_ ->]. by rewrite Hcl, Hb.
  - intros c Hcl.
    destruct (classify_failed_inv _ _ _ _ Hcl) as (p & b & Hp & Hb & _).
    exists p, b. split_and!; [done|done| | |].
    + by apply (failed_attempt_effect _ _ _ _ _ _ Hcl Hp Hb).
    + by apply (failed_attempt_effect _ _ _ _ _ _ Hcl Hp Hb).
    + intros idx'. by eapply failed_attempt_bars.
  - intros evs. apply window_trace_one_match.
  - intros evs player. apply window_trace_one_failure.
Qed.

(** On [window_game]: player 2 fails with the 3 at position 1 and draws the
    top of the deck; a run in which player 2 and the AI both hold the
    matching bottle has one match only. *)
Lemma bottle_window_first_match_wins_witness :
  (p_hand <$> get_player_by_id (handle_bottle_match_attempt (IntId 2) 1 window_game).1 (IntId 2)
   = Some [Bottle 5; Bottle 3; Bottle 1; Bottle 1; Bottle 10])
  ∧ length (List.filter is_match
      (window_trace [ev_attempt (IntId 2) 0; ev_attempt (StrId "ai_1_1000") 0;
                     ev_resume_after_match (open_window 7%positive);
                     ev_attempt (StrId "ai_1_1000") 0] window_game)) ≤ 1.
Proof.
  destruct (bottle_window_first_match_wins window_game (IntId 2) 1)
    as (_ & _ & Hfail & Hone & _).
  split.
  - destruct (Hfail (Bottle 3) eq_refl) as (p & b & Hp & Hb & _ & Hdraw & _).
    vm_compute in Hp. injection Hp as <-. exact (proj2 Hdraw).
  - apply Hone. repeat constructor.
Defined.

(** ** Dealing and the size of a hand *)

Lemma pop_Some {A} (l : list A) x d : Py.pop l = Some (x, d) → l = d ++ [x].
Proof.
  unfold Py.pop. destruct (last l) as [y|] eqn:Hl; [|done]. intros [= <- <-].
  destruct l as [|a l] using rev_ind; [done|].
  rewrite last_snoc in Hl. injection Hl as <-. by rewrite removelast_last.
Qed.

Lemma pop_snoc {A} (d : list A) x : Py.pop (d ++ [x]) = Some (x, d).
Proof. unfold Py.pop. by rewrite last_snoc, removelast_last. Qed.

Lemma pop_None {A} (l : list A) : Py.pop l = None → l = [].
Proof.
  destruct l as [|a l] using rev_ind; [done|]. by rewrite pop_snoc.
Qed.

Lemma pop_n_length n d :
  n ≤ length d →
  length (pop_n n d).1 = n ∧ length (pop_n n d).2 = length d - n.
Proof.
  revert d. induction n as [|n IH]; intros d Hn; simpl; [split; [done|lia]|].
  destruct d as [|a d] using rev_ind; [simpl in Hn; lia|].
  rewrite pop_snoc. rewrite length_app in Hn. simpl in Hn.
  destruct (IH d ltac:(lia)) as [H1 H2].
  destruct (pop_n n d) as [cs d']. simpl in *.
  rewrite length_app. simpl. split; lia.
Qed.

Lemma deal_hands_length d ps :
  HAND_CARDS_COUNT * length ps ≤ length d →
  Forall (λ p, length (p_hand p) = HAND_CARDS_COUNT) (deal_hands d ps).2
  ∧ length (deal_hands d ps).1 = length d - HAND_CARDS_COUNT * length ps
  ∧ length (deal_hands d ps).2 = length ps.
Proof.
  revert d. induction ps as [|p ps IH]; intros d Hd; simpl.
  { split_and!; [done|lia|done]. }
  simpl in Hd. unfold deal_hand.
  destruct (decide (HAND_CARDS_COUNT ≤ length d)) as [Hle|Hgt]; [|unfold HAND_CARDS_COUNT in *; lia].
  destruct (pop_n_length HAND_CARDS_COUNT d Hle) as [Hh Hd'].
  destruct (pop_n HAND_CARDS_COUNT d) as [h d']. simpl in Hh, Hd'.
  destruct (IH d') as (Ha & Hb & Hc); [unfold HAND_CARDS_COUNT in *; lia|].
  destruct (deal_hands d' ps) as [d'' ps']. simpl in *.
  split_and!; [by apply Forall_cons|unfold HAND_CARDS_COUNT in *; lia|by rewrite Hc].
Qed.

Lemma create_deck_length rng : length (create_deck rng) = 64.
Proof. unfold create_deck. by rewrite shuffle_length. Qed.

(** After the deal every participant holds [HAND_CARDS_COUNT] cards and the
    safe [SAFE_CARDS_COUNT], for any table the lobby admits. *)
Lemma deal_cards_hands rng g :
  length (all_participants g) ≤ MAX_PLAYERS →
  Forall (λ p, length (p_hand p) = HAND_CARDS_COUNT)
    (all_participants (deal_cards_to_players rng g).1)
  ∧ (all_participants g ≠ [] →
     length (safe (deal_cards_to_players rng g).1) = SAFE_CARDS_COUNT).
Proof.
  intros Hn. unfold deal_cards_to_players.
  pose proof (create_deck_length rng) as Hlen.
  generalize dependent (create_deck rng). intros d0 Hlen.
  destruct (all_participants g) as [|p0 ps0] eqn:Hall.
  { replace (all_participants (set_deck d0 g)) with (@nil player) by done.
    simpl. split; [|done]. replace (all_participants _) with (@nil player) by done. done. }
  replace (all_participants (set_deck d0 g)) with (p0 :: ps0) by done.
  simpl negb. cbv iota.
  assert (length (players g) + length (ai_players g) ≤ MAX_PLAYERS) as Hn'.
  { unfold all_participants in Hall. rewrite <-length_app, Hall. exact Hn. }
  unfold MAX_PLAYERS in Hn'.
  replace (deck (set_deck d0 g)) with d0 by done.
  replace (players (set_deck d0 g)) with (players g) by done.
  replace (ai_players (set_deck d0 g)) with (ai_players g) by done.
  destruct (deal_hands_length d0 (players g)) as (H1 & H2 & H3).
  { rewrite Hlen. unfold HAND_CARDS_COUNT. lia. }
  destruct (deal_hands d0 (players g)) as [d1 humans]. simpl in H1, H2, H3.
  rewrite Hlen in H2.
  destruct (deal_hands_length d1 (ai_players g)) as (H4 & H5 & H6).
  { unfold HAND_CARDS_COUNT in *. lia. }
  destruct (deal_hands d1 (ai_players g)) as [d2 ais]. simpl in H4, H5, H6.
  assert (SAFE_CARDS_COUNT ≤ length d2) as Hs by (unfold HAND_CARDS_COUNT, SAFE_CARDS_COUNT in *; lia).
  destruct (decide (SAFE_CARDS_COUNT ≤ length d2)) as [_|]; [|done].
  destruct (pop_n_length SAFE_CARDS_COUNT d2 Hs) as [Hsafe _].
  destruct (pop_n SAFE_CARDS_COUNT d2) as [safe_cards d3]. simpl in Hsafe.
  match goal with |- context [set_turn_order ?o ?g'] =>
    assert (all_participants g' = humans ++ ais) as Hp by done;
    assert (safe g' = safe_cards) as Hsf by done
  end.
  match goal with |- context [match ?o with [] => _ | _ :: _ => _ end] =>
    destruct o as [|first rest] end; simpl;
    (split; [unfold all_participants; simpl; by apply Forall_app|done]).
Qed.

Lemma update_first_hand_sizes pid f l :
  (∀ p, length (p_hand (f p)) = length (p_hand p)) →
  (λ p, length (p_hand p)) <$> update_first pid f l = (λ p, length (p_hand p)) <$> l.
Proof.
  intros Hf. induction l as [|a l IH]; csimpl; [done|].
  destruct (has_id pid a); csimpl; by rewrite ?Hf, ?IH.
Qed.

Lemma process_card_replacement_hand_sizes pid idx new_card g :
  hand_sizes (process_card_replacement pid idx new_card g).1 = hand_sizes g.
Proof.
  unfold process_card_replacement, hand_sizes.
  destruct (get_player_by_id g pid) as [p|]; [|done].
  destruct (p_hand p !! idx) as [old|]; [|done]. simpl.
  replace (all_participants (set_discard_pile _ _))
    with (all_participants (update_player pid
      (λ p, set_viewed (p_viewed_card_indices p ∖ {[idx]})
              (set_hand (<[idx := new_card]> (p_hand p)) p)) g)) by done.
  rewrite all_participants_update_player.
  apply update_first_hand_sizes. intros q. simpl. apply length_insert.
Qed.

Lemma attempt_hand_size g pid idx :
  hand_size (handle_bottle_match_attempt pid idx g).1 pid
  = match classify_attempt g pid idx with
    | att_matched _ => pred <$> hand_size g pid
    | att_failed _ => (if Py.nonempty (deck g) then S else id) <$> hand_size g pid
    | _ => hand_size g pid
    end.
Proof.
  destruct (classify_attempt g pid idx) as [| | | |c|c] eqn:Hcl;
    try (rewrite handler_rejects by auto; done).
  - unfold handle_bottle_match_attempt, bottle_match_attempt_step. by rewrite Hcl.
  - destruct (classify_matched_inv _ _ _ _ Hcl) as (p & b & Hp & Hb & _ & _ & _ & Hc & _).
    unfold handle_bottle_match_attempt, bottle_match_attempt_step. rewrite Hcl, Hb. simpl.
    unfold hand_size.
    match goal with |- _ <$> get_player_by_id ?g' pid = _ =>
      replace (get_player_by_id g' pid)
        with (get_player_by_id (update_player pid
                (λ p, set_hand (delete idx (p_hand p)) p)
                (update_bottle_context (bc_set_fastest_matcher_id (Some pid)) g)) pid)
        by done
    end.
    rewrite get_player_by_id_update_player by done.
    replace (get_player_by_id (update_bottle_context _ g) pid) with (Some p) by done.
    rewrite Hp. simpl. f_equal.
    rewrite length_delete by by rewrite Hc. lia.
  - destruct (classify_failed_inv _ _ _ _ Hcl) as (p & b & Hp & Hb & _).
    destruct (failed_attempt_effect _ _ _ _ _ _ Hcl Hp Hb) as [_ Hdraw].
    unfold hand_size. rewrite Hp. simpl.
    destruct (Py.pop (deck g)) as [[x d]|] eqn:Hpop; destruct Hdraw as [_ Hh];
      destruct (get_player_by_id (handle_bottle_match_attempt pid idx g).1 pid) as [q|];
      simpl in Hh; [|done| |done]; injection Hh as Hh; simpl; rewrite Hh.
    + apply pop_Some in Hpop. rewrite Hpop.
      replace (Py.nonempty (d ++ [x])) with true by by destruct d.
      rewrite length_app. simpl. f_equal. lia.
    + apply pop_None in Hpop. by rewrite Hpop.
Qed.

(** C8 (amended). Right after the deal every participant's hand is a list of
    exactly 4 cards, for any table of at most [MAX_PLAYERS] participants.
    During play the length is not fixed: a bottle-match attempt leaves the
    attempting player's hand one card shorter when it matches, one card
    longer when it fails and the deck is not empty, and unchanged otherwise;
    replacing a card keeps the length of every hand. *)
Theorem hand_size_after_deal_and_in_play (rng : list nat) (g : game) :
  (length (all_participants g) ≤ MAX_PLAYERS →
   Forall (λ p, length (p_hand p) = 4) (all_participants (deal_cards_to_players rng g).1))
  ∧ (∀ pid idx,
       hand_size (handle_bottle_match_attempt pid idx g).1 pid
       = match classify_attempt g pid idx with
         | att_matched _ => pred <$> hand_size g pid
         | att_failed _ => (if Py.nonempty (deck g) then S else id) <$> hand_size g pid
         | _ => hand_size g pid
         end)
  ∧ (∀ pid idx new_card,
       hand_sizes (process_card_replacement pid idx new_card g).1 = hand_sizes g).
Proof.
  split_and!.
  - intros Hn. by apply deal_cards_hands.
  - apply attempt_hand_size.
  - intros. apply process_card_replacement_hand_sizes.
Qed.

Lemma hand_size_after_deal_and_in_play_witness :
  Forall (λ p, length (p_hand p) = 4)
    (all_participants (deal_cards_to_players [3; 1; 4; 1; 5] window_game).1)
  ∧ hand_size (handle_bottle_match_attempt (IntId 2) 0 window_game).1 (IntId 2) = Some 3.
Proof.
  destruct (hand_size_after_deal_and_in_play [3; 1; 4; 1; 5] window_game) as (Hd & Ha & _).
  split.
  - apply Hd. vm_compute. lia.
  - rewrite Ha. reflexivity.
Defined.

(** C8, as stated, fails: in [window_game] every hand has 4 cards; player 2
    tries to match with the 3 at position 1, fails, and holds 5 cards while
    the window is still open. *)
Lemma hand_capacity_counterexample :
  hand_sizes window_game = [4; 4; 4]
  ∧ phase (handle_bottle_match_attempt (IntId 2) 1 window_game).1 = BOTTLE_MATCHING_WINDOW
  ∧ hand_sizes (handle_bottle_match_attempt (IntId 2) 1 window_game).1 = [4; 5; 4].
Proof. split_and!; reflexivity. Qed.
(** ** The reshuffle of an exhausted deck *)

Lemma nonempty_true {A} (l : list A) : Py.nonempty l = true ↔ l ≠ [].
Proof. by destruct l. Qed.

Lemma nonempty_snoc {A} (l : list A) x : Py.nonempty (l ++ [x]) = true.
Proof. by destruct l. Qed.

Lemma reshuffle_discard_pile_snoc rng g rest top :
  discard_pile g = rest ++ [top] →
  reshuffle_discard_pile rng g
  = set_discard_pile [top] (set_deck (Py.shuffle rng rest) g).
Proof. intros H. unfold reshuffle_discard_pile. by rewrite H, pop_snoc. Qed.

Lemma shuffle_nonempty rng (x : list card) : x ≠ [] → Py.shuffle rng x ≠ [].
Proof.
  intros Hx Hs. apply Hx, length_zero_iff_nil.
  by rewrite <-(shuffle_length rng), Hs.
Qed.

Lemma shuffle_nil rng : Py.shuffle rng (@nil card) = [].
Proof. apply length_zero_iff_nil. by rewrite shuffle_length. Qed.

(** The session an AI's turn leaves, without the messages. *)
Lemma handle_ai_player_turn_state rng choice ai g :
  (handle_ai_player_turn rng choice ai g).1
  = match get_player_by_id g ai with
    | None => g
    | Some ai_player =>
        if negb (p_is_ai ai_player) then g
        else if negb (Py.nonempty (p_hand ai_player))
        then (handle_omerta_call (Some ai) g).1
        else
          let g :=
            if Py.nonempty (deck g) then g
            else if Py.nonempty (discard_pile g) then reshuffle_discard_pile rng g
            else g in
          match Py.pop (deck g) with
          | None => (handle_omerta_call (Some ai) g).1
          | Some (drawn_card, d) =>
              let card_to_replace_idx := choice mod length (p_hand ai_player) in
              match p_hand ai_player !! card_to_replace_idx with
              | Some replaced_card =>
                  let g := update_player ai
                             (λ p, set_hand (<[card_to_replace_idx := drawn_card]> (p_hand p)) p)
                             (set_deck d g) in
                  set_discard_pile (discard_pile g ++ [replaced_card]) g
              | None => set_discard_pile (discard_pile g ++ [drawn_card]) (set_deck d g)
              end
          end
    end.
Proof.
  unfold handle_ai_player_turn.
  destruct (get_player_by_id g ai) as [p|]; [|done].
  destruct (p_is_ai p); simpl; [|done].
  destruct (Py.nonempty (p_hand p)); simpl; [|done].
  destruct (Py.nonempty (deck g)); simpl.
  - destruct (Py.pop (deck g)) as [[c d]|]; [|done].
    by destruct (p_hand p !! _).
  - destruct (Py.nonempty (discard_pile g)); simpl.
    + destruct (Py.pop (deck (reshuffle_discard_pile rng g))) as [[c d]|]; [|done].
      by destruct (p_hand p !! _).
    + destruct (Py.pop (deck g)) as [[c d]|]; [|done].
      by destruct (p_hand p !! _).
Qed.

(** ** Conservation of the cards *)

Lemma update_first_hands pid f l p :
  List.find (has_id pid) l = Some p →
  ∃ A B, concat (p_hand <$> l) = A ++ p_hand p ++ B
         ∧ concat (p_hand <$> update_first pid f l) = A ++ p_hand (f p) ++ B.
Proof.
  induction l as [|a l IH]; csimpl; [done|].
  destruct (has_id pid a) eqn:Ha.
  - intros [= ->]. by exists [], (concat (p_hand <$> l)).
  - intros Hf. destruct (IH Hf) as (A & B & H1 & H2).
    exists (p_hand a ++ A), B. csimpl. rewrite H1, H2, <-!(assoc (++)). done.
Qed.

Lemma hands_update_player pid f g p :
  get_player_by_id g pid = Some p →
  ∃ A B, hands g = A ++ p_hand p ++ B
         ∧ hands (update_player pid f g) = A ++ p_hand (f p) ++ B.
Proof.
  intros Hp. unfold hands. rewrite all_participants_update_player.
  by apply update_first_hands.
Qed.

Lemma update_player_piles pid f g :
  deck (update_player pid f g) = deck g
  ∧ discard_pile (update_player pid f g) = discard_pile g
  ∧ safe (update_player pid f g) = safe g
  ∧ player_turn_context (update_player pid f g) = player_turn_context g
  ∧ phase (update_player pid f g) = phase g
  ∧ current_player_id (update_player pid f g) = current_player_id g.
Proof. unfold update_player. by destruct (existsb _ _). Qed.

Lemma deck_update_player pid f g : deck (update_player pid f g) = deck g.
Proof. apply update_player_piles. Qed.

Lemma discard_pile_update_player pid f g :
  discard_pile (update_player pid f g) = discard_pile g.
Proof. apply update_player_piles. Qed.

Lemma safe_update_player pid f g : safe (update_player pid f g) = safe g.
Proof. apply update_player_piles. Qed.

Lemma player_turn_context_update_player pid f g :
  player_turn_context (update_player pid f g) = player_turn_context g.
Proof. apply update_player_piles. Qed.

Lemma pending_draw_update_player pid f g who :
  pending_draw (update_player pid f g) who = pending_draw g who.
Proof. unfold pending_draw. by rewrite player_turn_context_update_player. Qed.

Create Rewrite HintDb piles.
#[local] Hint Rewrite deck_update_player discard_pile_update_player safe_update_player
  player_turn_context_update_player pending_draw_update_player : piles.

Lemma insert_hand_perm (h : list card) idx old c :
  h !! idx = Some old → <[idx := c]> h ++ [old] ≡ₚ c :: h.
Proof.
  intros Hi. rewrite insert_take_drop by by eapply lookup_lt_Some.
  rewrite <-(take_drop_middle h idx old Hi) at 3. solve_Permutation.
Qed.




(** *** Drawing and replacing *)

Lemma reshuffle_discard_pile_frame rng g :
  all_participants (reshuffle_discard_pile rng g) = all_participants g
  ∧ phase (reshuffle_discard_pile rng g) = phase g
  ∧ current_player_id (reshuffle_discard_pile rng g) = current_player_id g
  ∧ player_turn_context (reshuffle_discard_pile rng g) = player_turn_context g.
Proof. unfold reshuffle_discard_pile. by destruct (Py.pop _) as [[c d]|]. Qed.

Lemma reshuffle_discard_pile_cards rng g :
  deck g = [] → all_cards (reshuffle_discard_pile rng g) ≡ₚ all_cards g.
Proof.
  intros Hd. unfold reshuffle_discard_pile.
  destruct (Py.pop (discard_pile g)) as [[top rest]|] eqn:Hpop; [|done].
  apply pop_Some in Hpop. unfold all_cards.
  replace (hands (set_discard_pile _ _)) with (hands g) by done.
  simpl. rewrite Hd, Hpop, shuffle_perm. solve_Permutation.
Qed.

Lemma remember_drawn_card_pending pid c src g who :
  pending_draw (remember_drawn_card pid c src g) who
  = if decide (who = pid) then Some c else pending_draw g who.
Proof.
  unfold pending_draw, remember_drawn_card. simpl.
  destruct (decide (who = pid)) as [->|Hne].
  - by rewrite lookup_insert_eq.
  - by rewrite lookup_insert_ne.
Qed.

Lemma handle_player_action_draw_deck_outcome rng pid g :
  draw_outcome g (handle_player_action_draw_deck rng pid g).1 pid.
Proof.
  unfold handle_player_action_draw_deck.
  destruct (get_player_by_id g pid) as [p|]; [|by unfold draw_outcome; auto 10].
  set (r := if Py.nonempty (deck g) then _ else _).
  assert (all_participants r.1 = all_participants g ∧ phase r.1 = phase g
          ∧ current_player_id r.1 = current_player_id g
          ∧ player_turn_context r.1 = player_turn_context g
          ∧ all_cards r.1 ≡ₚ all_cards g) as (Hp & Hph & Hcur & Hctx & Hcards).
  { unfold r. destruct (deck g) as [|a d] eqn:Hd; simpl; [|done].
    destruct (Py.nonempty (discard_pile g)); simpl; [|done].
    destruct (reshuffle_discard_pile_frame rng g) as (? & ? & ? & ?).
    split_and!; try done. by apply reshuffle_discard_pile_cards. }
  destruct r as [g1 e1]. simpl in *.
  destruct (Py.pop (deck g1)) as [[c d]|] eqn:Hpop; simpl.
  - apply pop_Some in Hpop. unfold draw_outcome. split_and!; try done.
    + intros who Hne. rewrite remember_drawn_card_pending.
      rewrite decide_False by done. unfold pending_draw. simpl. by rewrite Hctx.
    + right. exists c. split.
      * rewrite remember_drawn_card_pending. by rewrite decide_True.
      * rewrite <-Hcards. unfold all_cards.
        replace (hands (remember_drawn_card _ _ _ _)) with (hands g1) by done.
        simpl. rewrite Hpop. solve_Permutation.
  - unfold draw_outcome. split_and!; try done.
    + intros who _. unfold pending_draw. by rewrite Hctx.
    + left. split; [|done]. unfold pending_draw. by rewrite Hctx.
Qed.

Lemma handle_player_action_draw_discard_outcome pid g :
  draw_outcome g (handle_player_action_draw_discard pid g).1 pid.
Proof.
  unfold handle_player_action_draw_discard.
  destruct (get_player_by_id g pid) as [p|]; [|by unfold draw_outcome; auto 10].
  destruct (Py.pop (discard_pile g)) as [[c rest]|] eqn:Hpop;
    [|by unfold draw_outcome; auto 10].
  destruct (top_is_takeable g); simpl; [|by unfold draw_outcome; auto 10].
  apply pop_Some in Hpop. unfold draw_outcome. split_and!; try done.
  - intros who Hne. rewrite remember_drawn_card_pending. by rewrite decide_False.
  - right. exists c. split.
    + rewrite remember_drawn_card_pending. by rewrite decide_True.
    + unfold all_cards.
      replace (hands (remember_drawn_card _ _ _ _)) with (hands g) by done.
      simpl. rewrite Hpop. solve_Permutation.
Qed.



(** *** The settlement moves no card *)






(** *** The turn of an AI *)


(** *** Bottle matches *)



(** *** Snitch, Driver and Safecracker *)







(** *** Any sequence of legal operations *)




(** ** The Killer interrupt on a confirmed Snitch *)

(** C3. The Snitch of player 1 confirms its single target, player 2, who is
    asked about the Killer: the snapshot holds the step
    [snitch_confirmed_targets], which is neither a final-confirmation step
    nor a selection step for the resumption.  When player 2 declines, or
    lets the prompt time out, the context is dropped instead of resumed: no
    card is given (deck and hands are as before) and player 1 is told the
    effect is lost, whereas the effect executed directly gives player 2 a
    fifth card. *)
Theorem killer_decline_drops_snitch :
  suspended_step snitch_interrupted = Some "snitch_confirmed_targets"
  ∧ is_final_confirmation_step "snitch_confirmed_targets" = false
  ∧ is_selection_step "snitch_confirmed_targets" = false
  ∧ active_ability_context (callback_killer_decline [] 60 (IntId 2) 14 snitch_interrupted).1
    = None
  ∧ deck (callback_killer_decline [] 60 (IntId 2) 14 snitch_interrupted).1 = deck snitch_game
  ∧ hand_sizes (callback_killer_decline [] 60 (IntId 2) 14 snitch_interrupted).1 = [4; 4; 4]
  ∧ last (removelast (callback_killer_decline [] 60 (IntId 2) 14 snitch_interrupted).2)
    = Some (send_message (Some (IntId 1))
              "could not be resumed from its current state. The effect is lost.")
  ∧ (character_ability_timeout_job [] 60 (Some 14%positive) snitch_interrupted).1
    = (callback_killer_decline [] 60 (IntId 2) 14 snitch_interrupted).1
  ∧ hand_sizes (execute_the_snitch_ability (IntId 1) [IntId 2] snitch_game).1 = [4; 5; 4].
Proof. split_and!; reflexivity. Qed.

(** ** The Police block and the replacement prompt *)

(** C7. Player 1 blocks position 1 of the human player 2.  The block is
    stored under the key [str(2)]; the prompts of both draw handlers look
    the blocked positions up under the integer id, find none, and offer
    position 1 for selection, while the same keyboard built from the key
    [str(2)] does not. *)
Theorem police_block_missed_by_draw_prompt :
  blocked_cards patrolled_game !! StrId "2" = Some {[1 := 2%Z]}
  ∧ blocked_cards patrolled_game !! IntId 2 = None
  ∧ selectable
      (prompted_keyboard (handle_player_action_draw_deck [] (IntId 2) patrolled_game).2) 1
    = true
  ∧ selectable
      (prompted_keyboard (handle_player_action_draw_discard (IntId 2) patrolled_game).2) 1
    = true
  ∧ selectable
      (get_card_selection_keyboard "replace_hand_card"
         [Bottle 5; Bottle 3; Bottle 1; Bottle 1] (IntId 2) 1 1 [] true None
         (blocked_indices patrolled_game (str (IntId 2)))) 1
    = false.
Proof. split_and!; reflexivity. Qed.
(** * Further properties of the engine *)

(** ** Reading a player after a write to another *)

Lemma find_update_first_ne pid other f l :
  other ≠ pid → (∀ p, p_id (f p) = p_id p) →
  List.find (has_id other) (update_first pid f l) = List.find (has_id other) l.
Proof.
  intros Hne Hf. induction l as [|a l IH]; simpl; [done|].
  destruct (has_id pid a) eqn:Ha; simpl.
  - apply has_id_true in Ha. unfold has_id. rewrite Hf.
    rewrite !bool_decide_eq_false_2 by congruence. done.
  - destruct (has_id other a); [done|apply IH].
Qed.

Lemma get_player_by_id_update_player_ne pid other f g :
  other ≠ pid → (∀ p, p_id (f p) = p_id p) →
  get_player_by_id (update_player pid f g) other = get_player_by_id g other.
Proof.
  intros Hne Hf. unfold get_player_by_id.
  rewrite all_participants_update_player. by apply find_update_first_ne.
Qed.

Lemma get_player_by_id_id g pid p : get_player_by_id g pid = Some p → p_id p = pid.
Proof. intros H. by apply find_has_id_Some in H as [_ ?]. Qed.

Lemma calculate_score_for_hand_perm h h' :
  h ≡ₚ h' → calculate_score_for_hand h = calculate_score_for_hand h'.
Proof.
  unfold calculate_score_for_hand.
  induction 1 as [|x l l' _ IH|x y l|l l' l'' _ IH1 _ IH2]; simpl; lia.
Qed.

Lemma calculate_score_for_hand_app h h' :
  calculate_score_for_hand (h ++ h')
  = (calculate_score_for_hand h + calculate_score_for_hand h')%Z.
Proof.
  unfold calculate_score_for_hand. induction h as [|c h IH]; simpl; lia.
Qed.

Lemma get_player_by_id_update_player_any pid f g q :
  (∀ p, p_id (f p) = p_id p) →
  get_player_by_id (update_player pid f g) q
  = if decide (q = pid) then f <$> get_player_by_id g q else get_player_by_id g q.
Proof.
  intros Hf. destruct (decide (q = pid)) as [->|Hne].
  - by apply get_player_by_id_update_player.
  - by apply get_player_by_id_update_player_ne.
Qed.

Lemma hands_update_player_same_hand pid f g :
  (∀ p, p_hand (f p) = p_hand p) → hands (update_player pid f g) = hands g.
Proof.
  intros Hf. unfold hands. rewrite all_participants_update_player. f_equal.
  induction (all_participants g) as [|a l IH]; csimpl; [done|].
  destruct (has_id pid a); csimpl; [by rewrite Hf|by rewrite IH].
Qed.

Lemma all_cards_update_player_same_hand pid f g :
  (∀ p, p_hand (f p) = p_hand p) → all_cards (update_player pid f g) = all_cards g.
Proof.
  intros Hf. unfold all_cards. rewrite hands_update_player_same_hand by done.
  by rewrite deck_update_player, discard_pile_update_player, safe_update_player.
Qed.

(** Writing a card at a position of a hand: the cards of the session gain
    the card written and lose the card that was there. *)
Lemma all_cards_write_hand pid idx c old g p :
  get_player_by_id g pid = Some p → p_hand p !! idx = Some old →
  all_cards (update_player pid (λ p, set_hand (<[idx := c]> (p_hand p)) p) g) ++ [old]
  ≡ₚ c :: all_cards g.
Proof.
  intros Hp Hold.
  destruct (hands_update_player pid (λ p, set_hand (<[idx := c]> (p_hand p)) p) g p Hp)
    as (A & B & H1 & H2).
  unfold all_cards.
  rewrite deck_update_player, discard_pile_update_player, safe_update_player, H1, H2.
  simpl. pose proof (insert_hand_perm _ _ _ c Hold) as Hperm.
  transitivity (deck g ++ A ++ (<[idx:=c]> (p_hand p) ++ [old]) ++ B
                  ++ discard_pile g ++ safe g); [solve_Permutation|].
  rewrite Hperm. solve_Permutation.
Qed.

(** ** The session a settled round leaves *)

Lemma omerta_caller_id_settle_round c g :
  omerta_caller_id (settle_round c g).1 = omerta_caller_id g.
Proof.
  unfold settle_round. set (co := if truthy_opt c then _ else None).
  destruct (determine_winner _ co) as [w pen].
  destruct co as [caller|]; [destruct pen|]; simpl; try done.
  unfold update_player. by destruct (existsb _ _).
Qed.

Lemma handle_omerta_call_completed c g :
  round_is_over (phase g) = false →
  phase (handle_omerta_call c g).1 = COMPLETED
  ∧ omerta_caller_id (handle_omerta_call c g).1 = c
  ∧ is_Some (final_scores_list (handle_omerta_call c g).1).
Proof.
  intros Hph. unfold handle_omerta_call. rewrite Hph.
  destruct (cancel_pending_contexts g) as [g1 e].
  set (g2 := set_omerta_caller_id c (set_phase OMERTA_CALLED g1)).
  pose proof (omerta_caller_id_settle_round c g2) as Hs.
  destruct (settle_round c g2) as [g3 w]. simpl in *.
  split_and!; [done|by rewrite Hs|by eexists].
Qed.

(** ** The draw that finds the deck exhausted *)

(** C6 (amended). A draw made while the deck is empty and the discard pile
    is [rest ++ [top]] reshuffles: the pile keeps its top card only and the
    deck becomes a permutation of [rest], so it has [len(old discard) - 1]
    cards.

    When [rest] is not empty the draw goes on with the last card [drawn] of
    the new deck.  A human holds it as the pending draw, the hands and the
    phase untouched, and is sent the replacement prompt after the reshuffle
    notice; an AI with a hand puts it at the position it picked, discards
    the card that was there on top of [top] and hands that card to
    [process_discarded_card].  In both cases the result is the one of the
    same draw from the reshuffled session, the reshuffle notice apart.

    When the deck is still empty, the draw of a human changes nothing: the
    player is told the deck is completely empty and is sent the keyboard
    with Call Omerta and, when the top discard allows them, the discard
    actions.  The turn of an AI with a hand calls Omerta in its name, which
    ends the round. *)
Theorem empty_deck_reshuffle (rng : list nat) (g : game) (rest : list card) (top : card) :
  deck g = [] → discard_pile g = rest ++ [top] →
  let g' := reshuffle_discard_pile rng g in
  (discard_pile g' = [top] ∧ deck g' ≡ₚ rest
   ∧ length (deck g') = length (discard_pile g) - 1)
  ∧ ∀ pid p, get_player_by_id g pid = Some p →
      (rest ≠ [] →
       ∃ d drawn, deck g' = d ++ [drawn]
         ∧ (let r := handle_player_action_draw_deck rng pid g in
            deck r.1 = d ∧ discard_pile r.1 = [top]
            ∧ pending_draw r.1 pid = Some drawn
            ∧ all_participants r.1 = all_participants g
            ∧ phase r.1 = phase g
            ∧ r.2 = [send_message None "notes the deck was empty; discard pile reshuffled.";
                     send_keyboard pid "You drew:" (replacement_prompt r.1 pid p);
                     send_message None
                       "drew a card from the deck and is choosing a card to replace."]
            ∧ ∀ rng', handle_player_action_draw_deck rng' pid g' = (r.1, tail r.2))
         ∧ (p_is_ai p = true → p_hand p ≠ [] → ∀ choice,
            ∃ replaced, p_hand p !! (choice mod length (p_hand p)) = Some replaced
              ∧ let r := handle_ai_player_turn rng choice pid g in
                deck r.1 = d ∧ discard_pile r.1 = [top; replaced]
                ∧ get_player_by_id r.1 pid
                  = Some (set_hand (<[choice mod length (p_hand p) := drawn]> (p_hand p)) p)
                ∧ (∀ o, o ≠ pid → get_player_by_id r.1 o = get_player_by_id g o)
                ∧ phase r.1 = phase g
                ∧ r.2 = [send_message None "is pondering their next move...";
                         send_message None
                           "Deck was empty. AI observes as the discard pile is reshuffled.";
                         send_message None "drew from the deck, replaced a card, and discarded";
                         process_discarded_card pid replaced]
                ∧ ∀ rng', handle_ai_player_turn rng' choice pid g'
                          = (r.1, [send_message None "is pondering their next move...";
                                   send_message None
                                     "drew from the deck, replaced a card, and discarded";
                                   process_discarded_card pid replaced])))
      ∧ (rest = [] →
         (let r := handle_player_action_draw_deck rng pid g in
          r.1 = g
          ∧ r.2 = [send_message None "notes the deck was empty; discard pile reshuffled.";
                   send_message (Some pid)
                     "The deck is completely empty! You cannot draw from it.";
                   send_keyboard pid "Deck empty. Choose another action:"
                     ([btn_turn "turn_call_omerta" pid]
                      ++ (if negb (is_f_cycle_ac g pid)
                             && (is_bottle top || String.eqb (card_name top) "The Alibi")
                          then [btn_turn "turn_draw_discard" pid] else [])
                      ++ (if negb (is_f_cycle_ac g pid) && is_bottle top
                          then [btn_turn "turn_match_discarded_bottle" pid] else []))])
         ∧ (p_is_ai p = true → p_hand p ≠ [] → ∀ choice,
            let r := handle_ai_player_turn rng choice pid g in
            r = after [send_message None "is pondering their next move...";
                       send_message None
                         "Deck was empty. AI observes as the discard pile is reshuffled. Still no cards to draw!"]
                  (handle_omerta_call (Some pid) g)
            ∧ round_is_over (phase r.1) = true
            ∧ (round_is_over (phase g) = false →
               phase r.1 = COMPLETED ∧ omerta_caller_id r.1 = Some pid
               ∧ is_Some (final_scores_list r.1)))).
Proof.
  intros Hdeck Hpile g'.
  assert (g' = set_discard_pile [top] (set_deck (Py.shuffle rng rest) g)) as Hg'
    by by apply reshuffle_discard_pile_snoc.
  assert (deck g' = Py.shuffle rng rest) as Hd' by by rewrite Hg'.
  assert (∀ pid, get_player_by_id g' pid = get_player_by_id g pid) as Hframe
    by by rewrite Hg'.
  split; [split_and!|].
  - by rewrite Hg'.
  - rewrite Hd'. apply shuffle_perm.
  - rewrite Hd', shuffle_length, Hpile, length_app. simpl. lia.
  - intros pid p Hp. split.
    + intros Hrest.
      destruct (exists_last (shuffle_nonempty rng _ Hrest)) as (d & drawn & Hsh).
      rewrite Hsh in Hd'. exists d, drawn. split; [done|].
      assert (Py.nonempty (deck g') = true) as Hne by (rewrite Hd'; apply nonempty_snoc).
      split.
      * unfold handle_player_action_draw_deck.
        rewrite Hframe, Hp, Hdeck, Hpile, nonempty_snoc. simpl Py.nonempty. cbv iota.
        fold g'. rewrite Hne, Hd', pop_snoc. cbn [fst snd tail app].
        split_and!; try done.
        -- by rewrite Hg'.
        -- unfold pending_draw. simpl. by rewrite lookup_insert_eq.
        -- by rewrite Hg'.
        -- by rewrite Hg'.
      * intros Hai Hh choice.
        destruct (p_hand p !! (choice mod length (p_hand p))) as [replaced|] eqn:Hrep.
        2:{ apply lookup_ge_None in Hrep.
            assert (0 < length (p_hand p)) by (destruct (p_hand p); [done|simpl; lia]).
            pose proof (Nat.mod_upper_bound choice (length (p_hand p))). lia. }
        exists replaced. split; [done|].
        assert (Py.nonempty (p_hand p) = true) as Hhne by by apply nonempty_true.
        unfold handle_ai_player_turn.
        rewrite Hframe, Hp, Hai, Hhne, Hdeck, Hpile, nonempty_snoc.
        simpl Py.nonempty. simpl negb. cbv iota. fold g'.
        rewrite Hne, Hd', pop_snoc, Hrep. cbn [fst snd app].
        set (f := λ q, set_hand _ q).
        assert (∀ q, p_id (f q) = p_id q) as Hf by done.
        split_and!; try done.
        -- simpl. by rewrite deck_update_player.
        -- simpl. rewrite discard_pile_update_player. by rewrite Hg'.
        -- change (get_player_by_id (update_player pid f (set_deck d g')) pid = Some (f p)).
           rewrite get_player_by_id_update_player by done.
           change (f <$> get_player_by_id g' pid = Some (f p)). by rewrite Hframe, Hp.
        -- intros o Ho.
           change (get_player_by_id (update_player pid f (set_deck d g')) o
                   = get_player_by_id g o).
           rewrite get_player_by_id_update_player_ne by done.
           change (get_player_by_id g' o = get_player_by_id g o). apply Hframe.
        -- simpl. destruct (update_player_frame pid f (set_deck d g')) as (-> & _).
           by rewrite Hg'.
    + intros ->. rewrite shuffle_nil in Hd'.
      assert (g' = g) as Hgg.
      { rewrite Hg', shuffle_nil. destruct g. simpl in *. by subst. }
      split.
      * unfold handle_player_action_draw_deck.
        rewrite Hp, Hdeck, Hpile. simpl Py.nonempty. cbv iota. fold g'.
        rewrite Hd'. simpl Py.pop. cbv iota. cbn [fst snd app].
        split; [done|]. rewrite Hgg. unfold top_is_takeable, top_is_bottle.
        by rewrite Hpile.
      * intros Hai Hh choice.
        assert (Py.nonempty (p_hand p) = true) as Hhne by by apply nonempty_true.
        assert (handle_ai_player_turn rng choice pid g
                = after [send_message None "is pondering their next move...";
                         send_message None
                           "Deck was empty. AI observes as the discard pile is reshuffled. Still no cards to draw!"]
                    (handle_omerta_call (Some pid) g)) as ->.
        { unfold handle_ai_player_turn.
          rewrite Hp, Hai, Hhne, Hdeck, Hpile. simpl Py.nonempty. simpl negb. cbv iota.
          fold g'. rewrite Hd'. simpl Py.nonempty. simpl Py.pop. cbv iota.
          by rewrite Hgg. }
        cbn zeta. split; [done|]. unfold after. cbn [fst].
        split; [apply handle_omerta_call_phase|].
        apply handle_omerta_call_completed.
Qed.

Lemma empty_deck_reshuffle_witness :
  length (deck (reshuffle_discard_pile [1; 0] (drained_game [Bottle 1; Bottle 2; Bottle 7])))
  = 2
  ∧ discard_pile (reshuffle_discard_pile [1; 0] (drained_game [Bottle 1; Bottle 2; Bottle 7]))
    = [Bottle 7]
  ∧ ∃ drawn,
      pending_draw
        (handle_player_action_draw_deck [1; 0] (IntId 1)
           (drained_game [Bottle 1; Bottle 2; Bottle 7])).1 (IntId 1)
      = Some drawn.
Proof.
  destruct (empty_deck_reshuffle [1; 0] (drained_game [Bottle 1; Bottle 2; Bottle 7])
              [Bottle 1; Bottle 2] (Bottle 7) eq_refl eq_refl) as ((Hpile & _ & Hlen) & H).
  split; [exact Hlen|]. split; [exact Hpile|].
  destruct (H (IntId 1)
              (example_player (IntId 1) [Bottle 2; Bottle 3; Bottle 4; Bottle 6] false)
              eq_refl) as (Hdraw & _).
  destruct Hdraw as (d & drawn & _ & (_ & _ & Hpending & _) & _); [discriminate|].
  exists drawn. exact Hpending.
Defined.

(** C6, as stated, fails for a human: with an empty deck and a single
    discarded card the reshuffle leaves the deck empty, and the draw handler
    ends with the round still running, nobody having called Omerta. *)
Lemma forced_omerta_counterexample :
  deck (drained_game [Bottle 7]) = []
  ∧ Py.nonempty (discard_pile (drained_game [Bottle 7])) = true
  ∧ deck (handle_player_action_draw_deck [] (IntId 1) (drained_game [Bottle 7])).1 = []
  ∧ phase (handle_player_action_draw_deck [] (IntId 1) (drained_game [Bottle 7])).1 = PLAYING
  ∧ omerta_caller_id (handle_player_action_draw_deck [] (IntId 1) (drained_game [Bottle 7])).1
    = None
  ∧ final_scores_list (handle_player_action_draw_deck [] (IntId 1) (drained_game [Bottle 7])).1
    = None.
Proof. split_and!; reflexivity. Qed.
(** ** The Lady, the Mamma and the Mole *)

(** X1. The Lady shuffles the hand of her target and of nobody else: the target
    keeps the same cards (hence the same score) in some order and loses the
    knowledge of them; every other hand, the deck, the discard pile and the
    safe are untouched; the ability is over. *)
Theorem lady_shuffles_only_the_target (rng : list nat) (lady target : player_id)
    (g : game) (t : player) :
  is_Some (get_player_by_id g lady) → get_player_by_id g target = Some t →
  (∃ t', get_player_by_id (execute_the_lady_ability rng lady target g).1 target = Some t'
         ∧ p_hand t' ≡ₚ p_hand t
         ∧ calculate_score_for_hand (p_hand t') = calculate_score_for_hand (p_hand t)
         ∧ (p_hand t ≠ [] → p_viewed_card_indices t' = ∅))
  ∧ (∀ other, other ≠ target →
       get_player_by_id (execute_the_lady_ability rng lady target g).1 other
       = get_player_by_id g other)
  ∧ deck (execute_the_lady_ability rng lady target g).1 = deck g
  ∧ discard_pile (execute_the_lady_ability rng lady target g).1 = discard_pile g
  ∧ safe (execute_the_lady_ability rng lady target g).1 = safe g
  ∧ active_ability_context (execute_the_lady_ability rng lady target g).1 = None.
Proof.
  intros [l Hl] Ht. unfold execute_the_lady_ability. rewrite Hl, Ht.
  destruct (Py.nonempty (p_hand t)) eqn:Hn; simpl.
  - set (f := λ p, set_viewed ∅ (set_hand (Py.shuffle rng (p_hand p)) p)).
    replace (get_player_by_id (set_active_ability_context None (update_player target f g)))
      with (get_player_by_id (update_player target f g)) by done.
    split_and!.
    + rewrite get_player_by_id_update_player, Ht by done. simpl.
      exists (f t). split_and!; try done.
      * unfold f. simpl. apply shuffle_perm.
      * apply calculate_score_for_hand_perm. unfold f. simpl. apply shuffle_perm.
    + intros other Hne. by apply get_player_by_id_update_player_ne.
    + apply update_player_piles.
    + apply update_player_piles.
    + apply update_player_piles.
    + done.
  - split_and!; try done. exists t. split_and!; try done.
    intros Hne. by destruct (p_hand t).
Qed.

Lemma lady_shuffles_only_the_target_witness :
  deck (execute_the_lady_ability [1; 0; 2] (IntId 1) (IntId 2) round_game).1 = []
  ∧ active_ability_context
      (execute_the_lady_ability [1; 0; 2] (IntId 1) (IntId 2) round_game).1 = None.
Proof.
  destruct (lady_shuffles_only_the_target [1; 0; 2] (IntId 1) (IntId 2) round_game
              (example_player (IntId 2) [Bottle 5; Bottle 3; Bottle 1; Bottle 1] false))
    as (_ & _ & Hd & _ & _ & Hc); [by eexists|reflexivity|].
  split; [exact Hd|exact Hc].
Defined.

(** X2. The Mamma marks her target, and only her target: the target must skip a
    turn and may not call Omerta; no card moves and no other player changes. *)
Theorem mamma_marks_only_the_target (mamma target : player_id) (g : game) (t : player) :
  is_Some (get_player_by_id g mamma) → get_player_by_id g target = Some t →
  get_player_by_id (execute_the_mamma_ability mamma target g).1 target
  = Some (set_cannot_call_omerta true (set_status SKIPPED_TURN t))
  ∧ (∀ other, other ≠ target →
       get_player_by_id (execute_the_mamma_ability mamma target g).1 other
       = get_player_by_id g other)
  ∧ all_cards (execute_the_mamma_ability mamma target g).1 = all_cards g
  ∧ active_ability_context (execute_the_mamma_ability mamma target g).1 = None.
Proof.
  intros [m Hm] Ht. unfold execute_the_mamma_ability. rewrite Hm, Ht. simpl.
  set (f := λ p, set_cannot_call_omerta true (set_status SKIPPED_TURN p)).
  replace (get_player_by_id (set_active_ability_context None (update_player target f g)))
    with (get_player_by_id (update_player target f g)) by done.
  split_and!.
  - by rewrite get_player_by_id_update_player, Ht.
  - intros other Hne. by apply get_player_by_id_update_player_ne.
  - destruct (hands_update_player target f g t Ht) as (A & B & H1 & H2).
    unfold all_cards.
    replace (hands (set_active_ability_context None (update_player target f g)))
      with (hands (update_player target f g)) by done.
    rewrite H1, H2. simpl. by autorewrite with piles.
  - done.
Qed.

Lemma mamma_marks_only_the_target_witness :
  p_status <$> get_player_by_id
    (execute_the_mamma_ability (IntId 1) (IntId 2) round_game).1 (IntId 2)
  = Some SKIPPED_TURN.
Proof.
  destruct (mamma_marks_only_the_target (IntId 1) (IntId 2) round_game
              (example_player (IntId 2) [Bottle 5; Bottle 3; Bottle 1; Bottle 1] false))
    as (H & _); [by eexists|reflexivity|].
  by rewrite H.
Defined.

(** X3. The Mole only learns: whatever position is asked for, every hand and
    pile is as before and the ability is over; the position joins the
    positions the player has seen exactly when it is a position of the hand. *)
Theorem mole_only_peeks (mole : player_id) (card_idx : nat) (g : game) (m : player) :
  get_player_by_id g mole = Some m →
  (p_hand <$> all_participants (execute_the_mole_ability mole card_idx g).1)
  = (p_hand <$> all_participants g)
  ∧ all_cards (execute_the_mole_ability mole card_idx g).1 = all_cards g
  ∧ active_ability_context (execute_the_mole_ability mole card_idx g).1 = None
  ∧ (p_viewed_card_indices <$>
       get_player_by_id (execute_the_mole_ability mole card_idx g).1 mole)
    = Some (if bool_decide (card_idx < length (p_hand m))
            then {[card_idx]} ∪ p_viewed_card_indices m
            else p_viewed_card_indices m).
Proof.
  intros Hm. unfold execute_the_mole_ability. rewrite Hm.
  case_bool_decide as Hi; unfold finish_ability; cbn [fst].
  2:{ replace (get_player_by_id (set_active_ability_context None g))
        with (get_player_by_id g) by done.
      by rewrite Hm. }
  set (f := λ p, set_viewed ({[card_idx]} ∪ p_viewed_card_indices p) p).
  replace (all_participants (set_active_ability_context None (update_player mole f g)))
    with (all_participants (update_player mole f g)) by done.
  replace (get_player_by_id (set_active_ability_context None (update_player mole f g)))
    with (get_player_by_id (update_player mole f g)) by done.
  assert ((p_hand <$> all_participants (update_player mole f g))
          = (p_hand <$> all_participants g)) as Hhands.
  { rewrite all_participants_update_player.
    induction (all_participants g) as [|a l IH]; csimpl; [done|].
    destruct (has_id mole a); csimpl; [done|by rewrite IH]. }
  split_and!; try done.
  - unfold all_cards, hands.
    replace (all_participants (set_active_ability_context None (update_player mole f g)))
      with (all_participants (update_player mole f g)) by done.
    rewrite Hhands. simpl. by autorewrite with piles.
  - by rewrite get_player_by_id_update_player, Hm.
Qed.

Lemma mole_only_peeks_witness :
  (p_viewed_card_indices <$>
     get_player_by_id (execute_the_mole_ability (IntId 1) 7 round_game).1 (IntId 1))
  = Some ∅.
Proof.
  destruct (mole_only_peeks (IntId 1) 7 round_game
              (example_player (IntId 1) [Bottle 2; Bottle 3; Bottle 4; Bottle 6] false))
    as (_ & _ & _ & H); [reflexivity|].
  rewrite H. reflexivity.
Defined.
(** ** The Gangster's swap *)

(** The session after the two writes of a swap and the bookkeeping of the
    positions seen. *)
Lemma gangster_swap_state gid ty p1 i1 p2 i2 g a b c1 c2 :
  is_Some (get_player_by_id g gid) →
  get_player_by_id g p1 = Some a → get_player_by_id g p2 = Some b →
  p_hand a !! i1 = Some c1 → p_hand b !! i2 = Some c2 →
  ∃ fv1 fv2 tail,
    (∀ p, p_id (fv1 p) = p_id p ∧ p_hand (fv1 p) = p_hand p)
    ∧ (∀ p, p_id (fv2 p) = p_id p ∧ p_hand (fv2 p) = p_hand p)
    ∧ (execute_gangster_swap gid ty p1 i1 p2 i2 g).1
      = set_active_ability_context tail
          (update_player p2 fv2 (update_player p1 fv1
             (update_player p2 (λ p, set_hand (<[i2 := c1]> (p_hand p)) p)
                (update_player p1 (λ p, set_hand (<[i1 := c2]> (p_hand p)) p) g)))).
Proof.
  intros [x Hx] Ha Hb H1 H2. unfold execute_gangster_swap.
  rewrite Hx, Ha, Hb, H1, H2.
  set (g2 := update_player p2 _ (update_player p1 _ g)).
  set (gv := if bool_decide (ty = Some "own_vs_other") then _ else _).
  assert (∃ fv1 fv2,
    (∀ p, p_id (fv1 p) = p_id p ∧ p_hand (fv1 p) = p_hand p)
    ∧ (∀ p, p_id (fv2 p) = p_id p ∧ p_hand (fv2 p) = p_hand p)
    ∧ gv = update_player p2 fv2 (update_player p1 fv1 g2)) as (fv1 & fv2 & Hf1 & Hf2 & ->).
  { assert (∀ pid g0, update_player pid id g0 = g0) as Hid.
    { intros pid g0. unfold update_player.
      assert (∀ l, update_first pid id l = l) as Hl.
      { induction l as [|y l IH]; simpl; [done|]. destruct (has_id pid y); [done|by rewrite IH]. }
      destruct (existsb _ _); rewrite Hl; by destruct g0. }
    unfold gv. repeat case_bool_decide.
    - exists (λ p, set_viewed ({[i1]} ∪ p_viewed_card_indices p) p), id.
      split_and!; [done|done|by rewrite Hid].
    - exists id, (λ p, set_viewed ({[i2]} ∪ p_viewed_card_indices p) p).
      split_and!; [done|done|by rewrite Hid].
    - exists id, id. split_and!; [done|done|by rewrite !Hid].
    - exists (λ p, set_viewed (p_viewed_card_indices p ∖ {[i1]}) p),
             (λ p, set_viewed (p_viewed_card_indices p ∖ {[i2]}) p).
      by split_and!. }
  exists fv1, fv2.
  destruct (active_ability_context _) as [ctx|] eqn:Hctx.
  - case_bool_decide.
    + eexists. split_and!; [done|done|]. simpl. reflexivity.
    + exists None. split_and!; [done|done|]. reflexivity.
  - exists None. split_and!; [done|done|]. simpl.
    set (gg := update_player p2 fv2 _).
    assert (active_ability_context gg = None) as Hn by exact Hctx.
    clearbody gg. destruct gg. simpl in *. by subst.
Qed.

(** X4. A swap between two different players with valid positions exchanges
    exactly the two cards: each of the two hands holds the other's card at
    the chosen position, every other player is as before, and the cards of
    the session are the same. *)
Theorem gangster_swap_exchanges_two_cards (gid : player_id) (ty : option string)
    (p1 : player_id) (i1 : nat) (p2 : player_id) (i2 : nat) (g : game)
    (a b : player) (c1 c2 : card) :
  is_Some (get_player_by_id g gid) →
  get_player_by_id g p1 = Some a → get_player_by_id g p2 = Some b → p1 ≠ p2 →
  p_hand a !! i1 = Some c1 → p_hand b !! i2 = Some c2 →
  (p_hand <$> get_player_by_id (execute_gangster_swap gid ty p1 i1 p2 i2 g).1 p1)
  = Some (<[i1 := c2]> (p_hand a))
  ∧ (p_hand <$> get_player_by_id (execute_gangster_swap gid ty p1 i1 p2 i2 g).1 p2)
    = Some (<[i2 := c1]> (p_hand b))
  ∧ (∀ other, other ≠ p1 → other ≠ p2 →
       get_player_by_id (execute_gangster_swap gid ty p1 i1 p2 i2 g).1 other
       = get_player_by_id g other)
  ∧ all_cards (execute_gangster_swap gid ty p1 i1 p2 i2 g).1 ≡ₚ all_cards g.
Proof.
  intros Hg Ha Hb Hne H1 H2.
  destruct (gangster_swap_state gid ty p1 i1 p2 i2 g a b c1 c2 Hg Ha Hb H1 H2)
    as (fv1 & fv2 & tail & Hf1 & Hf2 & ->).
  set (w1 := λ p, set_hand (<[i1 := c2]> (p_hand p)) p).
  set (w2 := λ p, set_hand (<[i2 := c1]> (p_hand p)) p).
  assert (∀ ctx q, get_player_by_id
                 (set_active_ability_context ctx
                    (update_player p2 fv2 (update_player p1 fv1
                       (update_player p2 w2 (update_player p1 w1 g))))) q
               = (if decide (q = p2) then fmap fv2 else id)
                   ((if decide (q = p1) then fmap fv1 else id)
                      ((if decide (q = p2) then fmap w2 else id)
                         ((if decide (q = p1) then fmap w1 else id)
                            (get_player_by_id g q))))) as Hget.
  { intros ctx q.
    replace (get_player_by_id (set_active_ability_context ctx _) q)
      with (get_player_by_id (update_player p2 fv2 (update_player p1 fv1
              (update_player p2 w2 (update_player p1 w1 g)))) q) by done.
    rewrite !get_player_by_id_update_player_any by (done || apply Hf1 || apply Hf2).
    by repeat destruct (decide _). }
  split_and!.
  - rewrite Hget, Ha. repeat destruct (decide _); try done.
    change (Some (p_hand (fv1 (w1 a))) = Some (<[i1:=c2]> (p_hand a))).
    by destruct (Hf1 (w1 a)) as [_ ->].
  - rewrite Hget, Hb. repeat destruct (decide _); try done.
    change (Some (p_hand (fv2 (w2 b))) = Some (<[i2:=c1]> (p_hand b))).
    by destruct (Hf2 (w2 b)) as [_ ->].
  - intros other Ho1 Ho2. rewrite Hget. by repeat destruct (decide _).
  - match goal with |- all_cards (set_active_ability_context ?t ?x) ≡ₚ _ =>
      replace (all_cards (set_active_ability_context t x)) with (all_cards x) by done end.
    rewrite !all_cards_update_player_same_hand by apply Hf1 || apply Hf2.
    apply (Permutation_app_inv_r [c2; c1]).
    pose proof (all_cards_write_hand p1 i1 c2 c1 g a Ha H1) as Hw1.
    assert (get_player_by_id (update_player p1 w1 g) p2 = Some b) as Hb1.
    { by rewrite get_player_by_id_update_player_ne. }
    pose proof (all_cards_write_hand p2 i2 c1 c2 _ b Hb1 H2) as Hw2.
    fold w1 in Hw1, Hw2. fold w2 in Hw2.
    change [c2; c1] with ([c2] ++ [c1]). rewrite (assoc (++)), Hw2. simpl.
    rewrite Hw1. solve_Permutation.
Qed.

Lemma gangster_swap_exchanges_two_cards_witness :
  (p_hand <$> get_player_by_id
     (execute_gangster_swap (IntId 1) (Some "own_vs_other") (IntId 1) 0 (IntId 2) 3
        round_game).1 (IntId 1))
  = Some [Bottle 1; Bottle 3; Bottle 4; Bottle 6].
Proof.
  destruct (gangster_swap_exchanges_two_cards (IntId 1) (Some "own_vs_other")
              (IntId 1) 0 (IntId 2) 3 round_game
              (example_player (IntId 1) [Bottle 2; Bottle 3; Bottle 4; Bottle 6] false)
              (example_player (IntId 2) [Bottle 5; Bottle 3; Bottle 1; Bottle 1] false)
              (Bottle 2) (Bottle 1)) as (H & _);
    [by eexists|reflexivity|reflexivity|done|reflexivity|reflexivity|].
  exact H.
Defined.
(** ** Police blocks and the start of a cycle *)

Lemma decrement_blocked_map_lookup m idx :
  decrement_blocked_map m !! idx
  = m !! idx ≫= λ cycles_left,
      if (cycles_left - 1 <=? 0)%Z then None else Some (cycles_left - 1)%Z.
Proof. unfold decrement_blocked_map. by rewrite lookup_omap. Qed.

Lemma decrement_blocked_cards_lookup g key :
  default ∅ (blocked_cards (decrement_blocked_cards_at_cycle_start g) !! key)
  = decrement_blocked_map (default ∅ (blocked_cards g !! key)).
Proof.
  unfold decrement_blocked_cards_at_cycle_start. simpl. rewrite lookup_omap.
  destruct (blocked_cards g !! key) as [m|]; simpl.
  - by destruct (decide (decrement_blocked_map m = ∅)) as [->|].
  - unfold decrement_blocked_map. by rewrite omap_empty.
Qed.

(** X5. At the start of a cycle every block loses one cycle and a block that
    reaches zero is removed, whatever the key; a player left without blocks
    is dropped from the table of blocks; no block is added, and nothing
    else of the session changes. *)
Theorem cycle_start_lowers_every_block (g : game) :
  (∀ key idx,
     block_counter (decrement_blocked_cards_at_cycle_start g) key idx
     = block_counter g key idx ≫= λ cycles_left,
         if (cycles_left - 1 <=? 0)%Z then None else Some (cycles_left - 1)%Z)
  ∧ (∀ key m, blocked_cards (decrement_blocked_cards_at_cycle_start g) !! key = Some m →
       m ≠ ∅)
  ∧ (∀ key, blocked_indices (decrement_blocked_cards_at_cycle_start g) key
            ⊆ blocked_indices g key)
  ∧ all_participants (decrement_blocked_cards_at_cycle_start g) = all_participants g
  ∧ all_cards (decrement_blocked_cards_at_cycle_start g) = all_cards g
  ∧ phase (decrement_blocked_cards_at_cycle_start g) = phase g.
Proof.
  split_and!; try done.
  - intros key idx. unfold block_counter.
    by rewrite decrement_blocked_cards_lookup, decrement_blocked_map_lookup.
  - intros key m. unfold decrement_blocked_cards_at_cycle_start. simpl.
    rewrite lookup_omap. destruct (blocked_cards g !! key) as [m0|]; simpl; [|done].
    destruct (decide (decrement_blocked_map m0 = ∅)); [done|]. by intros [= <-].
  - intros key idx. unfold blocked_indices.
    rewrite decrement_blocked_cards_lookup, !elem_of_dom, decrement_blocked_map_lookup.
    destruct (default ∅ (blocked_cards g !! key) !! idx); [done|].
    by intros [? ?].
Qed.

(** X6. A block placed by Police Patrol holds through the next start of a cycle
    and is gone at the one after; placing it leaves the blocks of every
    other key as they were. *)
Theorem police_block_lasts_two_cycles (police target : player_id) (idx : nat)
    (g : game) (t : player) :
  is_Some (get_player_by_id g police) → get_player_by_id g target = Some t →
  idx < length (p_hand t) →
  block_counter (execute_police_patrol_ability police target idx g).1 (str target) idx
  = Some 2%Z
  ∧ block_counter
      (decrement_blocked_cards_at_cycle_start
         (execute_police_patrol_ability police target idx g).1) (str target) idx
    = Some 1%Z
  ∧ block_counter
      (decrement_blocked_cards_at_cycle_start
         (decrement_blocked_cards_at_cycle_start
            (execute_police_patrol_ability police target idx g).1)) (str target) idx
    = None
  ∧ (∀ key, key ≠ str target →
       blocked_cards (execute_police_patrol_ability police target idx g).1 !! key
       = blocked_cards g !! key)
  ∧ all_cards (execute_police_patrol_ability police target idx g).1 = all_cards g.
Proof.
  intros [p Hp] Ht Hi.
  assert (block_counter (execute_police_patrol_ability police target idx g).1
            (str target) idx = Some 2%Z) as H2.
  { unfold execute_police_patrol_ability, block_counter. rewrite Hp, Ht.
    rewrite bool_decide_eq_true_2 by done. simpl.
    by rewrite lookup_insert_eq; simpl; rewrite lookup_insert_eq. }
  assert (∀ g0 key i, block_counter (decrement_blocked_cards_at_cycle_start g0) key i
            = block_counter g0 key i ≫= λ cycles_left,
                if (cycles_left - 1 <=? 0)%Z then None else Some (cycles_left - 1)%Z) as Hstep.
  { intros g0 key i. unfold block_counter.
    by rewrite decrement_blocked_cards_lookup, decrement_blocked_map_lookup. }
  split_and!.
  - exact H2.
  - by rewrite Hstep, H2.
  - by rewrite !Hstep, H2.
  - intros key Hne. unfold execute_police_patrol_ability. rewrite Hp, Ht.
    rewrite bool_decide_eq_true_2 by done. simpl. by rewrite lookup_insert_ne.
  - unfold execute_police_patrol_ability. rewrite Hp, Ht.
    by rewrite bool_decide_eq_true_2.
Qed.

Lemma police_block_lasts_two_cycles_witness :
  block_counter (decrement_blocked_cards_at_cycle_start patrolled_game) (StrId "2") 1
  = Some 1%Z.
Proof.
  destruct (police_block_lasts_two_cycles (IntId 1) (IntId 2) 1
              (example_game
                 [example_player (IntId 1) [Bottle 2; Bottle 3; Bottle 4; Bottle 6] false;
                  example_player (IntId 2) [Bottle 5; Bottle 3; Bottle 1; Bottle 1] false]
                 [example_player (StrId "ai_1_1000") [Bottle 5; Bottle 9; Bottle 9; Bottle 9] true]
                 [Bottle 8; Bottle 10] [Bottle 7])
              (example_player (IntId 2) [Bottle 5; Bottle 3; Bottle 1; Bottle 1] false))
    as (_ & H & _); [by eexists|reflexivity|simpl; lia|].
  exact H.
Defined.
(** ** Keyboards *)

Lemma existsb_elem_of {A} (f : A → bool) l :
  existsb f l = true ↔ ∃ x, x ∈ l ∧ f x = true.
Proof.
  rewrite existsb_exists. split; intros (x & Hx & Hf); exists x;
    (split; [by apply list_elem_of_In|done]).
Qed.

(** A button that is none of the buttons of a short list. *)
Ltac absurd_button Hb :=
  repeat match type of Hb with
  | _ ∈ _ :: _ => apply elem_of_cons in Hb as [Hb|Hb]; [discriminate Hb|]
  | _ ∈ [] => by apply elem_of_nil in Hb
  end.

Lemma card_button_select prefix pid n selected blocked i b :
  card_button prefix pid n selected blocked i = b →
  (∃ purpose j who, b = btn_select purpose j who) →
  b = btn_select prefix i pid
  ∧ (i ∉ blocked) ∧ (i ∉ selected) ∧ ¬ (n ≤ length selected ∧ 0 < n).
Proof.
  unfold card_button. intros <- (purpose & j & who & Hb).
  destruct (bool_decide (i ∈ blocked)) eqn:H1; [done|].
  destruct (bool_decide (i ∈ selected)) eqn:H2; [done|].
  destruct (bool_decide (n ≤ length selected)) eqn:H3;
    destruct (bool_decide (0 < n)) eqn:H4; simpl in *; try done;
    apply bool_decide_eq_false in H1, H2;
    (split_and!; [done|done|done|]); intros [? ?].
  - by apply bool_decide_eq_false in H4.
  - by apply bool_decide_eq_false in H3.
  - by apply bool_decide_eq_false in H3.
Qed.

(** X7. The card-selection keyboard lets a position be picked exactly when it is
    a position of the hand that is not blocked, not already selected, and the
    selection is not full; the Confirm button is there exactly when the
    number selected is within the bounds. *)
Theorem card_selection_keyboard_offers (purpose_prefix : string) (hand : list card)
    (pid : player_id) (num_to_select min_to_select : nat) (selected : list nat)
    (allow_cancel : bool) (cancel_data : option string) (blocked : gset nat) (i : nat) :
  (selectable
     (get_card_selection_keyboard purpose_prefix hand pid num_to_select min_to_select
        selected allow_cancel cancel_data blocked) i = true
   ↔ i < length hand ∧ (i ∉ blocked) ∧ (i ∉ selected)
     ∧ ¬ (num_to_select ≤ length selected ∧ 0 < num_to_select))
  ∧ (btn_confirm purpose_prefix pid
       ∈ get_card_selection_keyboard purpose_prefix hand pid num_to_select min_to_select
           selected allow_cancel cancel_data blocked
     ↔ 0 < num_to_select ∧ min_to_select ≤ length selected ≤ num_to_select).
Proof.
  unfold get_card_selection_keyboard, selectable. split.
  - rewrite existsb_elem_of. split.
    + intros (b & Hb & Hsel).
      destruct b; try done. apply bool_decide_eq_true in Hsel as <-.
      rewrite !elem_of_app in Hb. destruct Hb as [Hb|[Hb|Hb]].
      * apply list_elem_of_fmap in Hb as (j & Hj & Hin).
        apply elem_of_seq in Hin. symmetry in Hj.
        destruct (card_button_select _ _ _ _ _ _ _ Hj) as (Heq & ? & ? & ?); [by eauto|].
        injection Heq as -> -> ->. split_and!; [lia|done..].
      * destruct (_ && _); absurd_button Hb.
      * destruct allow_cancel; absurd_button Hb.
    + intros (Hi & Hb & Hs & Hfull).
      exists (btn_select purpose_prefix i pid). split; [|by apply bool_decide_eq_true].
      rewrite !elem_of_app. left. apply list_elem_of_fmap. exists i.
      split; [|apply elem_of_seq; lia].
      unfold card_button. rewrite !bool_decide_eq_false_2 by done.
      destruct (bool_decide (num_to_select ≤ length selected)) eqn:H1;
        destruct (bool_decide (0 < num_to_select)) eqn:H2; simpl; try done.
      apply bool_decide_eq_true in H1, H2. by destruct Hfull.
  - rewrite !elem_of_app. split.
    + intros [Hb|[Hb|Hb]].
      * apply list_elem_of_fmap in Hb as (j & Hj & _). unfold card_button in Hj.
        repeat case_bool_decide; simpl in *; done.
      * destruct (bool_decide (0 < num_to_select)) eqn:H1;
          destruct (bool_decide (min_to_select ≤ length selected)) eqn:H2;
          destruct (bool_decide (length selected ≤ num_to_select)) eqn:H3;
          simpl in Hb; try absurd_button Hb.
        apply bool_decide_eq_true in H1, H2, H3. lia.
      * destruct allow_cancel; absurd_button Hb.
    + intros (H1 & H2 & H3). right. left.
      rewrite !bool_decide_eq_true_2 by done. apply list_elem_of_here.
Qed.

(** X8. The target keyboard lets a player be picked exactly when that player is
    an active participant other than the user of the ability and outside the
    excluded ids, not already picked, and fewer than the maximum are picked. *)
Theorem target_keyboard_offers (g : game) (user : player_id) (prefix : string)
    (max_targets min_targets : nat) (selected : list player_id)
    (exclude_ids : option (list player_id)) (cancel_data : option string)
    (target : player_id) :
  btn_select_target prefix target
    ∈ get_target_player_keyboard g user prefix max_targets min_targets selected
        exclude_ids cancel_data
  ↔ (∃ p, p ∈ all_participants g ∧ p_id p = target ∧ p_status p = ACTIVE)
    ∧ target ≠ user ∧ (target ∉ default [] exclude_ids)
    ∧ (target ∉ selected) ∧ length selected < max_targets.
Proof.
  unfold get_target_player_keyboard.
  set (excluded := if bool_decide (user ∈ default [] exclude_ids) then _ else _).
  assert (∀ x, x ∈ excluded ↔ x = user ∨ x ∈ default [] exclude_ids) as Hex.
  { intros x. unfold excluded. case_bool_decide as Hu.
    - split; [by right|]. by intros [->|?].
    - rewrite elem_of_app, list_elem_of_singleton. tauto. }
  clearbody excluded. rewrite !elem_of_app. split.
  - intros [Hb|[Hb|[Hb|Hb]]].
    + apply list_elem_of_fmap in Hb as (p & Hp & Hin).
      apply list_elem_of_In, filter_In in Hin as [Hin Hf].
      apply list_elem_of_In in Hin.
      apply andb_prop in Hf as [Hu Ha].
      apply negb_true_iff, bool_decide_eq_false in Hu. apply bool_decide_eq_true in Ha.
      rewrite Hex in Hu.
      repeat case_bool_decide; simplify_eq.
      split_and!; [by exists p|tauto|tauto|done|lia].
    + destruct (Py.nonempty _); absurd_button Hb.
    + destruct (_ && _); absurd_button Hb.
    + absurd_button Hb.
  - intros ((p & Hin & <- & Ha) & Hu & He & Hs & Hm). left.
    apply list_elem_of_fmap. exists p. split.
    + rewrite bool_decide_eq_false_2 by done. by rewrite bool_decide_eq_false_2 by lia.
    + apply list_elem_of_In, filter_In. split; [by apply list_elem_of_In|].
      apply andb_true_intro. split.
      * apply negb_true_iff, bool_decide_eq_false. rewrite Hex. tauto.
      * by apply bool_decide_eq_true.
Qed.

(** X9. The turn keyboard always offers the draw from the deck; it offers the
    Omerta call unless the Mamma has forbidden it or the turn is skipped; on
    the first turn of Al Capone it offers nothing from the discard pile, and
    otherwise the top discard only when it is a Bottle or The Alibi. *)
Theorem turn_keyboard_offers (g : game) (p : player) (first : bool) :
  btn_turn "turn_draw_deck" (p_id p) ∈ get_player_turn_actions_keyboard g p first
  ∧ (btn_turn "turn_call_omerta" (p_id p) ∈ get_player_turn_actions_keyboard g p first
     ↔ p_cannot_call_omerta p = false ∧ p_status p ≠ SKIPPED_TURN)
  ∧ (btn_turn "turn_draw_discard" (p_id p) ∈ get_player_turn_actions_keyboard g p first
     ↔ first = false
       ∧ ∃ top, last (discard_pile g) = Some top
                ∧ (is_bottle top = true ∨ card_name top = "The Alibi"))
  ∧ (btn_turn "turn_match_discarded_bottle" (p_id p)
       ∈ get_player_turn_actions_keyboard g p first
     ↔ first = false ∧ ∃ v, last (discard_pile g) = Some (Bottle v)).
Proof.
  unfold get_player_turn_actions_keyboard, top_is_takeable, top_is_bottle.
  split_and!.
  - rewrite !elem_of_app. right. left. apply list_elem_of_here.
  - rewrite !elem_of_app. split.
    + intros [Hb|[Hb|[Hb|Hb]]].
      * destruct (p_cannot_call_omerta p); simpl in Hb; [absurd_button Hb|].
        case_bool_decide; simpl in Hb; [absurd_button Hb|done].
      * absurd_button Hb.
      * destruct (_ && _); absurd_button Hb.
      * destruct (_ && _); absurd_button Hb.
    + intros [-> Hs]. left. rewrite bool_decide_eq_false_2 by done. apply list_elem_of_here.
  - rewrite !elem_of_app. split.
    + intros [Hb|[Hb|[Hb|Hb]]].
      * destruct (_ && _); absurd_button Hb.
      * absurd_button Hb.
      * destruct first; simpl in Hb; [absurd_button Hb|]. split; [done|].
        destruct (last (discard_pile g)) as [top|]; [|absurd_button Hb].
        exists top. split; [done|].
        destruct (is_bottle top); [by left|]. simpl in Hb.
        destruct (String.eqb (card_name top) "The Alibi") eqn:He; [|absurd_button Hb].
        right. by apply String.eqb_eq.
      * destruct (_ && _); absurd_button Hb.
    + intros (-> & top & -> & Htop). right. right. left. simpl.
      destruct Htop as [->| ->]; simpl; [apply list_elem_of_here|].
      destruct (is_bottle top); simpl; apply list_elem_of_here.
  - rewrite !elem_of_app. split.
    + intros [Hb|[Hb|[Hb|Hb]]].
      * destruct (_ && _); absurd_button Hb.
      * absurd_button Hb.
      * destruct (_ && _); absurd_button Hb.
      * destruct first; simpl in Hb; [absurd_button Hb|]. split; [done|].
        destruct (last (discard_pile g)) as [[v|]|]; simpl in Hb;
          [by exists v|absurd_button Hb..].
    + intros (-> & v & ->). right. right. right. simpl. apply list_elem_of_here.
Qed.
(** ** The deal *)

Lemma pop_n_perm n d : (pop_n n d).1 ++ (pop_n n d).2 ≡ₚ d.
Proof.
  revert d. induction n as [|n IH]; intros d; simpl; [done|].
  destruct (Py.pop d) as [[c d']|] eqn:Hpop; [|done].
  apply pop_Some in Hpop. subst d. specialize (IH d').
  destruct (pop_n n d') as [cs d'']. simpl in *. rewrite <-IH. solve_Permutation.
Qed.

Lemma deal_hands_perm d ps :
  (deal_hands d ps).1 ++ concat (p_hand <$> (deal_hands d ps).2) ≡ₚ d.
Proof.
  revert d. induction ps as [|p ps IH]; intros d; simpl; [by rewrite app_nil_r|].
  unfold deal_hand. destruct (decide (HAND_CARDS_COUNT ≤ length d)).
  - pose proof (pop_n_perm HAND_CARDS_COUNT d) as Hpop.
    destruct (pop_n HAND_CARDS_COUNT d) as [h d']. simpl in Hpop.
    specialize (IH d'). destruct (deal_hands d' ps) as [d'' ps']. simpl in *.
    rewrite <-Hpop, <-IH. solve_Permutation.
  - specialize (IH d). destruct (deal_hands d ps) as [d'' ps']. simpl in *. done.
Qed.

Lemma deal_hands_players d ps :
  Forall2 (λ p p', p_id p' = p_id p ∧ p_join_time p' = p_join_time p
                   ∧ p_status p' = p_status p ∧ p_is_ai p' = p_is_ai p)
    ps (deal_hands d ps).2.
Proof.
  revert d. induction ps as [|p ps IH]; intros d; simpl; [constructor|].
  unfold deal_hand. destruct (decide (HAND_CARDS_COUNT ≤ length d)).
  - destruct (pop_n HAND_CARDS_COUNT d) as [h d'].
    specialize (IH d'). destruct (deal_hands d' ps) as [d'' ps']. by constructor.
  - specialize (IH d). destruct (deal_hands d ps) as [d'' ps']. by constructor.
Qed.

Lemma Forall2_fmap_eq {A B} (f : A → B) l l' :
  Forall2 (λ x y, f y = f x) l l' → f <$> l' = f <$> l.
Proof. induction 1; csimpl; congruence. Qed.

(** The session of [deal_cards_to_players] before the turn order is set. *)
Lemma deal_cards_to_players_state rng g :
  all_participants g ≠ [] →
  ∃ humans ais safe_cards d3 order,
    (deal_cards_to_players rng g).1
    = (match order with
       | first :: _ => set_current_player_id (Some (p_id first))
       | [] => id
       end)
        (set_turn_order (p_id <$> order)
           (set_cycle_count 0 (set_discard_pile [] (set_safe safe_cards
              (set_deck d3 (set_ai_players ais (set_players humans g)))))))
    ∧ d3 ++ concat (p_hand <$> humans ++ ais) ++ safe_cards ≡ₚ create_deck rng
    ∧ Forall2 (λ p p', p_id p' = p_id p ∧ p_join_time p' = p_join_time p
                       ∧ p_status p' = p_status p ∧ p_is_ai p' = p_is_ai p)
        (all_participants g) (humans ++ ais)
    ∧ order
      = (let g1 := set_ai_players ais (set_players humans g) in
         if truthy_opt (al_capone_player_id g) then
           match al_capone_player_id g with
           | Some ac_id =>
               option_list (get_player_by_id g1 ac_id)
               ++ Py.sorted p_join_time (filter (λ p, p_id p ≠ ac_id) (humans ++ ais))
           | None => []
           end
         else Py.sorted p_join_time (humans ++ ais)).
Proof.
  intros Hne. unfold deal_cards_to_players.
  generalize (create_deck rng) as d0. intros d0.
  replace (all_participants (set_deck d0 g)) with (all_participants g) by done.
  replace (Py.nonempty (all_participants g)) with true by by destruct (all_participants g).
  simpl negb. cbv iota.
  replace (deck (set_deck d0 g)) with d0 by done.
  replace (players (set_deck d0 g)) with (players g) by done.
  replace (ai_players (set_deck d0 g)) with (ai_players g) by done.
  pose proof (deal_hands_perm d0 (players g)) as Hp1.
  pose proof (deal_hands_players d0 (players g)) as Hq1.
  destruct (deal_hands d0 (players g)) as [d1 humans]. simpl in Hp1, Hq1.
  pose proof (deal_hands_perm d1 (ai_players g)) as Hp2.
  pose proof (deal_hands_players d1 (ai_players g)) as Hq2.
  destruct (deal_hands d1 (ai_players g)) as [d2 ais]. simpl in Hp2, Hq2.
  set (sd := if decide (SAFE_CARDS_COUNT ≤ length d2) then _ else _).
  assert (sd.1 ++ sd.2 ≡ₚ d2) as Hp3.
  { unfold sd. destruct (decide _); [apply pop_n_perm|done]. }
  destruct sd as [safe_cards d3]. simpl in Hp3.
  match goal with |- context [set_turn_order (p_id <$> ?o) _] => set (order := o) end.
  exists humans, ais, safe_cards, d3, order. split_and!.
  - by destruct order.
  - rewrite fmap_app, concat_app, <-Hp1, <-Hp2, <-Hp3. solve_Permutation.
  - unfold all_participants. by apply Forall2_app.
  - reflexivity.
Qed.

Lemma insert_by_ordered {A} (key : A → Z) x l :
  ordered_by key l → ordered_by key (Py.insert_by key x l).
Proof.
  induction l as [|y l IH]; simpl; [done|]. intros [Hall Hs].
  destruct (key x <=? key y)%Z eqn:Hle.
  - apply Z.leb_le in Hle. simpl. split_and!; [|done|done].
    constructor; [done|]. eapply Forall_impl; [exact Hall|]. simpl. intros; lia.
  - apply Z.leb_gt in Hle. simpl. split; [|by apply IH].
    rewrite (insert_by_perm key x l). constructor; [lia|done].
Qed.

Lemma sorted_ordered {A} (key : A → Z) l : ordered_by key (Py.sorted key l).
Proof.
  induction l as [|x l IH]; simpl; [done|]. by apply insert_by_ordered.
Qed.

Lemma find_has_id_Forall2 (R : player → player → Prop) pid l l' a :
  (∀ p p', R p p' → p_id p' = p_id p) → Forall2 R l l' →
  List.find (has_id pid) l = Some a →
  ∃ a', List.find (has_id pid) l' = Some a' ∧ R a a'.
Proof.
  intros HR. induction 1 as [|p p' l l' Hp _ IH]; simpl; [done|].
  unfold has_id at 1 3. rewrite (HR _ _ Hp).
  case_bool_decide; [intros [= <-]; by exists p'|done].
Qed.

Lemma filter_all {A} (P : A → Prop) `{∀ x, Decision (P x)} l :
  Forall P l → filter P l = l.
Proof.
  induction 1 as [|x l Hx _ IH]; [done|]. by rewrite filter_cons_True, IH.
Qed.

Lemma filter_out_found pid (l : list player) a :
  NoDup (p_id <$> l) → List.find (has_id pid) l = Some a →
  a :: filter (λ p, p_id p ≠ pid) l ≡ₚ l.
Proof.
  induction l as [|x l IH]; simpl; [done|]. intros [Hx Hnd]%NoDup_cons.
  unfold has_id at 1. case_bool_decide as Hid.
  - intros [= <-]. rewrite filter_cons_False by (intros ?; done).
    rewrite filter_all; [done|].
    apply Forall_forall. intros p Hp Heq. apply Hx. rewrite Hid, <-Heq.
    apply list_elem_of_fmap. by exists p.
  - intros Hf. rewrite filter_cons_True by done.
    rewrite Permutation_swap. constructor. by apply IH.
Qed.

Lemma concat_hands_length (l : list player) n :
  Forall (λ p, length (p_hand p) = n) l → length (concat (p_hand <$> l)) = n * length l.
Proof.
  induction 1 as [|p l Hp _ IH]; csimpl; [lia|]. rewrite length_app, IH, Hp. lia.
Qed.

(** X10. After a deal to a table that is not empty, the deck, the new
    hands and the safe together are the 64 cards of a fresh deck: the old
    hands are gone and the discard pile is empty.  At a table of at most 9
    the deck is left with [60 - 4 * n] cards. *)
Theorem deal_splits_a_fresh_deck (rng : list nat) (g : game) :
  all_participants g ≠ [] →
  all_cards (deal_cards_to_players rng g).1 ≡ₚ deck_before_shuffle
  ∧ length (all_cards (deal_cards_to_players rng g).1) = 64
  ∧ discard_pile (deal_cards_to_players rng g).1 = []
  ∧ cycle_count (deal_cards_to_players rng g).1 = 0%Z
  ∧ (length (all_participants g) ≤ MAX_PLAYERS →
     length (deck (deal_cards_to_players rng g).1)
     = 60 - 4 * length (all_participants g)).
Proof.
  intros Hne.
  pose proof (deal_cards_hands rng g) as Hdh.
  destruct (deal_cards_to_players_state rng g Hne)
    as (humans & ais & safe_cards & d3 & order & Hst & Hperm & Hids & _).
  assert (create_deck rng ≡ₚ deck_before_shuffle) as Hdeck by apply shuffle_perm.
  rewrite Hdeck in Hperm. clear Hdeck.
  rewrite Hst in Hdh. rewrite Hst. clear Hst.
  set (gf := set_turn_order (p_id <$> order)
               (set_cycle_count 0 (set_discard_pile [] (set_safe safe_cards
                  (set_deck d3 (set_ai_players ais (set_players humans g))))))) in *.
  set (gl := match order with
             | first :: _ => set_current_player_id (Some (p_id first))
             | [] => id
             end gf) in *.
  assert (all_participants gl = humans ++ ais ∧ deck gl = d3 ∧ safe gl = safe_cards
          ∧ discard_pile gl = [] ∧ cycle_count gl = 0%Z) as (Hparts & Hd & Hs & Hdis & Hcc).
  { unfold gl. by destruct order. }
  assert (all_cards gl ≡ₚ deck_before_shuffle) as Hall.
  { unfold all_cards, hands. rewrite Hparts, Hd, Hs, Hdis. by rewrite <-Hperm. }
  split_and!; [exact Hall|by rewrite Hall|exact Hdis|exact Hcc|].
  intros Hn. destruct (Hdh Hn) as [Hhands Hsafe]. specialize (Hsafe Hne).
  rewrite Hparts in Hhands. rewrite Hs in Hsafe. rewrite Hd.
  apply concat_hands_length in Hhands.
  apply Permutation_length in Hperm.
  rewrite !length_app, Hhands, Hsafe in Hperm.
  rewrite (Forall2_length _ _ _ Hids).
  replace (length deck_before_shuffle) with 64 in Hperm by reflexivity.
  unfold HAND_CARDS_COUNT, SAFE_CARDS_COUNT in Hperm. lia.
Qed.

Lemma deal_splits_a_fresh_deck_witness :
  length (deck (deal_cards_to_players [3; 1; 4; 1; 5] round_game).1) = 48.
Proof.
  destruct (deal_splits_a_fresh_deck [3; 1; 4; 1; 5] round_game) as (_ & _ & _ & _ & H);
    [done|].
  rewrite H; [reflexivity|]. vm_compute. lia.
Defined.

(** X11. When Al Capone is a participant and the ids are
    distinct, the deal makes Al Capone the first of the turn order and the
    current player, followed by all the others in the order they joined. *)
Theorem deal_puts_al_capone_first (rng : list nat) (g : game) (ac : player_id) :
  al_capone_player_id g = Some ac → truthy ac = true →
  is_Some (get_player_by_id g ac) → NoDup (p_id <$> all_participants g) →
  current_player_id (deal_cards_to_players rng g).1 = Some ac
  ∧ turn_order (deal_cards_to_players rng g).1 ≡ₚ p_id <$> all_participants g
  ∧ ∃ first others,
      turn_order (deal_cards_to_players rng g).1 = p_id <$> first :: others
      ∧ p_id first = ac
      ∧ first :: others ≡ₚ all_participants (deal_cards_to_players rng g).1
      ∧ ordered_by p_join_time others.
Proof.
  intros Hac Htruthy [a Ha] Hnd.
  assert (all_participants g ≠ []) as Hne.
  { unfold get_player_by_id in Ha. by destruct (all_participants g). }
  destruct (deal_cards_to_players_state rng g Hne)
    as (humans & ais & safe_cards & d3 & order & Hst & _ & Hids & Horder).
  rewrite Hst. clear Hst. rewrite Hac in Horder. simpl in Horder. rewrite Htruthy in Horder.
  destruct (find_has_id_Forall2 _ ac _ _ a (λ p p' H, proj1 H) Hids Ha)
    as (a' & Ha' & _).
  replace (get_player_by_id (set_ai_players ais (set_players humans g)) ac)
    with (Some a') in Horder by done.
  simpl in Horder.
  assert (p_id <$> humans ++ ais = p_id <$> all_participants g) as Hsame.
  { apply Forall2_fmap_eq. eapply Forall2_impl; [exact Hids|]. intros ?? H. apply H. }
  assert (a' :: Py.sorted p_join_time (filter (λ p, p_id p ≠ ac) (humans ++ ais))
          ≡ₚ humans ++ ais) as Hperm.
  { rewrite sorted_perm. apply filter_out_found; [by rewrite Hsame|done]. }
  apply find_has_id_Some in Ha' as [_ Hid].
  subst order. simpl.
  split_and!.
  - by rewrite Hid.
  - change (p_id <$> a' :: Py.sorted p_join_time (filter (λ p, p_id p ≠ ac) (humans ++ ais))
            ≡ₚ p_id <$> all_participants g).
    by rewrite Hperm, Hsame.
  - exists a', (Py.sorted p_join_time (filter (λ p, p_id p ≠ ac) (humans ++ ais))).
    split_and!; [done|done|exact Hperm|apply sorted_ordered].
Qed.

Lemma deal_puts_al_capone_first_witness :
  current_player_id
    (deal_cards_to_players [3; 1; 4]
       (mk_game DEALING_CARDS
          [example_player (IntId 7) [] false; example_player (IntId 8) [] false]
          [example_player (StrId "ai_1_1000") [] true] [] [] [] None (Some (IntId 8)) []
          0 None None None ∅ ∅ false None)).1
  = Some (IntId 8).
Proof.
  refine (proj1 (deal_puts_al_capone_first [3; 1; 4] _ (IntId 8) _ _ _ _));
    [reflexivity|reflexivity|by eexists|].
  apply (bool_decide_unpack _). vm_compute. exact I.
Defined.
(** ** An Omerta forced by the engine *)

Lemma active_or_caller_None p :
  active_or_caller None p = bool_decide (p_status p = ACTIVE).
Proof. unfold active_or_caller. by rewrite orb_false_r. Qed.

Lemma filter_ext_bool {A} (P Q : A → bool) l :
  (∀ x, P x = Q x) → List.filter P l = List.filter Q l.
Proof. intros H. induction l as [|a l IH]; simpl; [done|]. by rewrite H, IH. Qed.

Lemma first_minimum_fmap_2 {A B} (key : B → Z) (f : A → B) l w :
  first_minimum (key ∘ f) l w → first_minimum key (f <$> l) (f w).
Proof.
  intros (l1 & l2 & -> & H1 & H2). exists (f <$> l1), (f <$> l2).
  rewrite fmap_app, fmap_cons. split_and!; [done| |]; by apply Forall_fmap.
Qed.

(** The settlement without a caller, on the list of participants. *)
Lemma settle_list_no_caller hs :
  settle_list None hs
  = (score_participant None <$> hs,
     head (Py.sorted p_score_this_round
             (score_participant None <$>
                List.filter (λ p, bool_decide (p_status p = ACTIVE)) hs))).
Proof.
  unfold settle_list. simpl.
  set (scored := score_participant None <$> hs).
  assert (List.filter (active_or_caller None) scored
          = score_participant None <$>
              List.filter (λ p, bool_decide (p_status p = ACTIVE)) hs) as Hf.
  { unfold scored. rewrite filter_fmap_commute by apply active_or_caller_score.
    f_equal. apply filter_ext_bool, active_or_caller_None. }
  assert (eligible_for_win None None scored
          = score_participant None <$>
              List.filter (λ p, bool_decide (p_status p = ACTIVE)) hs) as ->.
  { destruct (List.filter (active_or_caller None) scored) as [|x k] eqn:Hx.
    - unfold eligible_for_win. rewrite Hx. simpl. rewrite Hx. exact Hf.
    - rewrite eligible_for_win_filter; [rewrite Hx; exact Hf|rewrite Hx; discriminate]. }
  unfold determine_winner, lowest_scorer.
  by destruct (score_participant None <$> List.filter _ hs) as [|x k].
Qed.

(** X12. When the engine forces Omerta without a caller on a
    round still running, with distinct ids: every active participant is
    recorded with the value of the hand and every other with 999; nobody is
    penalised; the only winner is the first active participant with the
    lowest hand, and there is no winner when nobody is active. *)
Theorem forced_omerta_awards_the_lowest_hand (g : game) :
  round_is_over (phase g) = false → NoDup (p_id <$> all_participants g) →
  (∀ pid p, get_player_by_id g pid = Some p →
     recorded_score (handle_omerta_call None g).1 pid
     = Some (if bool_decide (p_status p = ACTIVE) then hand_value p else 999%Z))
  ∧ (∀ w, first_minimum hand_value
            (List.filter (λ p, bool_decide (p_status p = ACTIVE)) (all_participants g)) w →
       recorded_winners (handle_omerta_call None g).1 = [p_id w])
  ∧ (Forall (λ p, p_status p ≠ ACTIVE) (all_participants g) →
     recorded_winners (handle_omerta_call None g).1 = []).
Proof.
  intros Hph Hnd. unfold recorded_score, recorded_winners.
  rewrite (handle_omerta_call_scores None g Hph), settle_list_no_caller. simpl.
  set (hs := all_participants g) in *.
  split_and!.
  - intros pid p Hp. rewrite final_scores_find, find_has_id_fmap by apply score_participant_id.
    unfold get_player_by_id in Hp. fold hs in Hp. rewrite Hp. simpl. f_equal.
    unfold score_participant. by case_bool_decide.
  - intros w Hw.
    set (E := List.filter (λ p, bool_decide (p_status p = ACTIVE)) hs) in *.
    assert (Forall (λ p, p_score_this_round (score_participant None p) = hand_value p) E)
      as Hsc.
    { apply Forall_forall. intros p Hp. apply score_participant_eligible.
      apply list_elem_of_In, filter_In in Hp as [_ Hp].
      by rewrite active_or_caller_None. }
    assert (head (Py.sorted p_score_this_round (score_participant None <$> E))
            = Some (score_participant None w)) as ->.
    { apply first_minimum_head_sorted, first_minimum_fmap_2.
      eapply first_minimum_ext; [|exact Hw].
      eapply Forall_impl; [exact Hsc|]. intros p Hp. symmetry. exact Hp. }
    simpl. rewrite score_participant_id.
    assert (p_id <$> (score_participant None <$> hs) = p_id <$> hs) as Hids.
    { rewrite <-list_fmap_compose. apply list_fmap_ext. intros ?? _. apply score_participant_id. }
    apply final_scores_winners; rewrite Hids; [done|].
    apply first_minimum_elem in Hw.
    apply list_elem_of_In, filter_In in Hw as [Hw _]. apply list_elem_of_In in Hw.
    apply list_elem_of_fmap. by exists w.
  - intros Hnone.
    replace (List.filter (λ p, bool_decide (p_status p = ACTIVE)) hs) with (@nil player).
    2:{ symmetry. clear Hnd. induction Hnone as [|p l Hp _ IH]; simpl; [done|].
        case_bool_decide; [done|exact IH]. }
    simpl. unfold final_scores.
    induction (score_participant None <$> hs) as [|a l IH]; csimpl; [done|]. exact IH.
Qed.

Lemma forced_omerta_awards_the_lowest_hand_witness :
  recorded_winners (handle_omerta_call None tie_game).1 = [IntId 1].
Proof.
  destruct (forced_omerta_awards_the_lowest_hand tie_game) as (_ & H & _);
    [reflexivity|apply (bool_decide_unpack _); vm_compute; exact I|].
  apply (H (example_player (IntId 1) [Bottle 2; Bottle 3] false)).
  exists [], [example_player (IntId 2) [Bottle 1; Bottle 4] false;
              example_player (StrId "ai_1_1000") [Bottle 9] true].
  split_and!; [reflexivity|constructor|].
  repeat constructor; vm_compute; discriminate.
Defined.
(** ** The Killer prompt on a confirmed ability *)

(** The prompt opened on a human target: the Killer's context holds the
    snapshot of the interrupted one. *)
Lemma check_for_killer_reaction_prompt now snapshot_obj killer_obj user target g ctx t :
  active_ability_context g = Some ctx →
  get_player_by_id g target = Some t → p_is_ai t = false →
  ∃ e,
    check_for_killer_reaction now snapshot_obj killer_obj user target (ctx_obj ctx) g
    = ((set_active_ability_context
          (Some (mk_ability_context killer_obj target "The Killer" "killer_prompt_for_use"
                   (Some (mk_job_name "killer_react_timeout" (Some target) now)) [] []
                   None None None None None None
                   (Some (deepcopy snapshot_obj (ctx_set_timeout_job_name None ctx))))) g,
        e), true).
Proof.
  intros Hctx Ht Hai. unfold check_for_killer_reaction.
  rewrite Hctx, bool_decide_eq_true_2, Ht, Hai by done. simpl. by eexists.
Qed.

Lemma finish_after_update_player pid f c1 c2 g :
  finish_ability (update_player pid f (set_active_ability_context c1
     (set_active_ability_context None (set_active_ability_context c2 g))))
  = finish_ability (update_player pid f g).
Proof. unfold update_player. simpl. by destruct (existsb _ _). Qed.

(** X13. When the single target of a Lady, a Mamma or a
    Police Patrol is a human, the Killer prompt opens.  What a decline does
    depends on the step the interrupted context records.  At the steps
    [lady_confirm_target], [mamma_confirm_target] (the step a human's
    confirmation records) and [police_confirmed_block_target] the session is
    exactly the one the ability would have produced without the prompt.  At
    the step [mamma_confirmed_target], which the AI path records for the
    Mamma, the ability is not resumed: the context is cleared, the user is
    made the current player, nobody is marked, and the handler ends with the
    call that advances the turn. *)
Theorem killer_decline_resumes_confirmed_ability (rng : list nat) (now now' : Z)
    (snapshot_obj killer_obj : positive) (user target : player_id)
    (g : game) (ctx : ability_context) (t : player) :
  active_ability_context g = Some ctx →
  ctx_player_id ctx = user → truthy user = true → is_Some (get_player_by_id g user) →
  ctx_targets_chosen ctx = [target] →
  get_player_by_id g target = Some t → p_is_ai t = false →
  (check_for_killer_reaction now snapshot_obj killer_obj user target (ctx_obj ctx) g).2
  = true
  ∧ (ctx_card_name ctx = "The Lady" → ctx_step ctx = "lady_confirm_target" →
     (callback_killer_decline rng now' target killer_obj
        (check_for_killer_reaction now snapshot_obj killer_obj user target
           (ctx_obj ctx) g).1.1).1
     = (execute_the_lady_ability rng user target g).1)
  ∧ (ctx_card_name ctx = "The Mamma" → ctx_step ctx = "mamma_confirm_target" →
     (callback_killer_decline rng now' target killer_obj
        (check_for_killer_reaction now snapshot_obj killer_obj user target
           (ctx_obj ctx) g).1.1).1
     = (execute_the_mamma_ability user target g).1)
  ∧ (∀ idx, ctx_card_name ctx = "Police Patrol" →
     ctx_step ctx = "police_confirmed_block_target" →
     ctx_cards_selected_indices ctx = [idx] →
     (callback_killer_decline rng now' target killer_obj
        (check_for_killer_reaction now snapshot_obj killer_obj user target
           (ctx_obj ctx) g).1.1).1
     = (execute_police_patrol_ability user target idx g).1)
  ∧ (ctx_card_name ctx = "The Mamma" → ctx_step ctx = "mamma_confirmed_target" →
     (callback_killer_decline rng now' target killer_obj
        (check_for_killer_reaction now snapshot_obj killer_obj user target
           (ctx_obj ctx) g).1.1).1
     = set_current_player_id (Some user) (set_active_ability_context None g)
     ∧ get_player_by_id
         (callback_killer_decline rng now' target killer_obj
            (check_for_killer_reaction now snapshot_obj killer_obj user target
               (ctx_obj ctx) g).1.1).1 target
       = Some t
     ∧ last (callback_killer_decline rng now' target killer_obj
               (check_for_killer_reaction now snapshot_obj killer_obj user target
                  (ctx_obj ctx) g).1.1).2
       = Some advance_turn_or_continue_sequence).
Proof.
  intros Hctx Huser Htruthy [u Hu] Htargets Ht Hai.
  destruct (check_for_killer_reaction_prompt now snapshot_obj killer_obj user target
              g ctx t Hctx Ht Hai) as (e & ->).
  cbn [fst snd]. split; [done|].
  set (snap := deepcopy snapshot_obj (ctx_set_timeout_job_name None ctx)).
  assert (∀ r,
    resume_original_ability_after_killer_interaction rng now' snap
      (set_active_ability_context None (set_active_ability_context (Some
         (mk_ability_context killer_obj target "The Killer" "killer_prompt_for_use"
            (Some (mk_job_name "killer_react_timeout" (Some target) now)) [] []
            None None None None None None (Some snap))) g)) = r →
    (callback_killer_decline rng now' target killer_obj
       (set_active_ability_context (Some
          (mk_ability_context killer_obj target "The Killer" "killer_prompt_for_use"
             (Some (mk_job_name "killer_react_timeout" (Some target) now)) [] []
             None None None None None None (Some snap))) g)).1 = r.1) as Hdecline.
  { intros r <-. unfold callback_killer_decline. cbn [active_ability_context
      set_active_ability_context ctx_player_id ctx_card_name ctx_step ctx_obj
      ctx_original_ability_context_snapshot ctx_timeout_job_name].
    rewrite !bool_decide_eq_true_2 by done. simpl negb. cbv iota.
    by destruct (resume_original_ability_after_killer_interaction _ _ _ _). }
  assert (∀ g0, get_player_by_id (set_active_ability_context (Some snap) g0) user
                = get_player_by_id g0 user) as Hframe by done.
  destruct ctx as [obj pid name step tjob targets idxs ty p1 i1 p2 i2 sc orig].
  simpl in Huser, Htargets. subst pid targets.
  split_and!.
  - simpl. intros -> ->. apply Hdecline.
    unfold resume_original_ability_after_killer_interaction, snap. simpl.
    rewrite Htruthy. simpl.
    replace (get_player_by_id _ user) with (Some u) by done. simpl.
    unfold execute_the_lady_ability.
    replace (get_player_by_id _ user) with (Some u) by done.
    replace (get_player_by_id _ target) with (Some t) by done.
    rewrite Hu, Ht. destruct (Py.nonempty (p_hand t)); [|done].
    apply finish_after_update_player.
  - simpl. intros -> ->. apply Hdecline.
    unfold resume_original_ability_after_killer_interaction, snap. simpl.
    rewrite Htruthy. simpl.
    replace (get_player_by_id _ user) with (Some u) by done. simpl.
    unfold execute_the_mamma_ability.
    replace (get_player_by_id _ user) with (Some u) by done.
    replace (get_player_by_id _ target) with (Some t) by done.
    rewrite Hu, Ht. apply finish_after_update_player.
  - simpl. intros idx -> -> ->. apply Hdecline.
    unfold resume_original_ability_after_killer_interaction, snap. simpl.
    rewrite Htruthy. simpl.
    replace (get_player_by_id _ user) with (Some u) by done. simpl.
    unfold execute_police_patrol_ability.
    replace (get_player_by_id _ user) with (Some u) by done.
    replace (get_player_by_id _ target) with (Some t) by done.
    rewrite Hu, Ht. by case_bool_decide.
  - simpl. intros -> ->.
    unfold callback_killer_decline. cbn [active_ability_context
      set_active_ability_context ctx_player_id ctx_card_name ctx_step ctx_obj
      ctx_original_ability_context_snapshot ctx_timeout_job_name].
    rewrite !bool_decide_eq_true_2 by done. simpl negb. cbv iota.
    unfold resume_original_ability_after_killer_interaction, snap. simpl.
    rewrite Htruthy. simpl.
    replace (get_player_by_id _ user) with (Some u) by done. simpl.
    split_and!; [done| |done].
    by replace (get_player_by_id _ target) with (Some t) by done.
Qed.

Lemma killer_decline_resumes_confirmed_ability_witness :
  (callback_killer_decline [1; 0; 2] 60 (IntId 2) 14
     (check_for_killer_reaction 50 13 14 (IntId 1) (IntId 2) 21 lady_game).1.1).1
  = (execute_the_lady_ability [1; 0; 2] (IntId 1) (IntId 2) lady_game).1.
Proof.
  destruct (killer_decline_resumes_confirmed_ability [1; 0; 2] 50 60 13 14
              (IntId 1) (IntId 2) lady_game lady_context
              (example_player (IntId 2) [Bottle 5; Bottle 3; Bottle 1; Bottle 1] false))
    as (_ & H & _);
    [reflexivity|reflexivity|reflexivity|by eexists|reflexivity|reflexivity|reflexivity|].
  exact (H eq_refl eq_refl).
Defined.
(** ** Taking a card and giving it up *)

(** X14. Only a Bottle or The Alibi can be taken from the top
    of the discard pile: such a top card leaves the pile and is pending for
    the player, every hand and the deck staying as they are; with any other
    top card, or an empty pile, the session is unchanged. *)
Theorem discard_draw_takes_only_bottle_or_alibi (pid : player_id) (g : game) :
  is_Some (get_player_by_id g pid) →
  (∀ rest top, discard_pile g = rest ++ [top] →
     is_bottle top = true ∨ card_name top = "The Alibi" →
     pending_draw (handle_player_action_draw_discard pid g).1 pid = Some top
     ∧ discard_pile (handle_player_action_draw_discard pid g).1 = rest
     ∧ deck (handle_player_action_draw_discard pid g).1 = deck g
     ∧ all_participants (handle_player_action_draw_discard pid g).1 = all_participants g)
  ∧ (∀ rest top, discard_pile g = rest ++ [top] →
     is_bottle top = false → card_name top ≠ "The Alibi" →
     (handle_player_action_draw_discard pid g).1 = g)
  ∧ (discard_pile g = [] → (handle_player_action_draw_discard pid g).1 = g).
Proof.
  intros [p Hp]. unfold handle_player_action_draw_discard, top_is_takeable.
  rewrite Hp. split_and!.
  - intros rest top Hpile Htop. rewrite Hpile, pop_snoc, last_snoc.
    replace (is_bottle top || (card_name top =? "The Alibi")%string) with true.
    2:{ destruct Htop as [-> | ->]; [done|]. by rewrite orb_true_r. }
    simpl. split_and!; try done.
    rewrite remember_drawn_card_pending. by rewrite decide_True.
  - intros rest top Hpile Hb Hn. rewrite Hpile, pop_snoc, last_snoc, Hb.
    apply String.eqb_neq in Hn. by rewrite Hn.
  - by intros ->.
Qed.

Lemma discard_draw_takes_only_bottle_or_alibi_witness :
  pending_draw (handle_player_action_draw_discard (IntId 1) round_game).1 (IntId 1)
  = Some (Bottle 7).
Proof.
  destruct (discard_draw_takes_only_bottle_or_alibi (IntId 1) round_game) as (H & _);
    [by eexists|].
  destruct (H [Bottle 1; Character "The Alibi" 0 "none" 0; Bottle 2] (Bottle 7))
    as (Hp & _); [reflexivity|by left|exact Hp].
Defined.

(** The session a cancellation leaves, without the messages. *)
Lemma callback_replace_hand_card_cancel_state user g :
  (callback_replace_hand_card_cancel user g).1
  = if negb (bool_decide (phase g = PLAYING)
             && bool_decide (Some user = current_player_id g))
    then g
    else forget_turn_context user
           match player_turn_context g !! user ≫= tc_drawn_card with
           | Some drawn_card_info => set_discard_pile (discard_pile g ++ [drawn_card_info]) g
           | None => g
           end.
Proof.
  unfold callback_replace_hand_card_cancel.
  destruct (negb _); [done|].
  by destruct (player_turn_context g !! user ≫= tc_drawn_card).
Qed.

(** The cancellation, after a draw. *)
Lemma cancel_after_draw g g1 pid :
  draw_outcome g g1 pid → no_pending_draw g →
  phase g = PLAYING → Some pid = current_player_id g →
  all_cards (callback_replace_hand_card_cancel pid g1).1 ≡ₚ all_cards g
  ∧ all_participants (callback_replace_hand_card_cancel pid g1).1 = all_participants g
  ∧ no_pending_draw (callback_replace_hand_card_cancel pid g1).1
  ∧ (∀ c, pending_draw g1 pid = Some c →
       discard_pile (callback_replace_hand_card_cancel pid g1).1 = discard_pile g1 ++ [c]).
Proof.
  intros (Hp & Hph & Hcur & Hothers & Hdraw) Hno Hplaying Hturn.
  rewrite callback_replace_hand_card_cancel_state.
  rewrite Hph, Hcur, Hplaying, <-Hturn, !bool_decide_eq_true_2 by done. simpl.
  fold (pending_draw g1 pid).
  assert (∀ g0 who, pending_draw (forget_turn_context pid g0) who
            = if decide (who = pid) then None else pending_draw g0 who) as Hforget.
  { intros g0 who. unfold pending_draw, forget_turn_context. simpl.
    destruct (decide (who = pid)) as [->|Hne].
    - by rewrite lookup_delete_eq.
    - by rewrite lookup_delete_ne. }
  destruct Hdraw as [[Hsame Hcards]|(c & Hc & Hcards)].
  - rewrite Hsame, Hno. split; [exact Hcards|]. split; [exact Hp|]. split.
    + intros who. rewrite Hforget. destruct (decide _); [done|]. by rewrite Hothers.
    + by intros c Hc.
  - rewrite Hc. split; [|split; [exact Hp|split]].
    + rewrite <-Hcards. unfold all_cards.
      replace (hands (forget_turn_context pid _)) with (hands g1) by done.
      simpl. solve_Permutation.
    + intros who. rewrite Hforget. destruct (decide _); [done|].
      replace (pending_draw (set_discard_pile _ g1) who) with (pending_draw g1 who) by done.
      by rewrite Hothers.
    + by intros ? [= <-].
Qed.

(** X15. A player who draws and then cancels the replacement
    keeps the hand: the card drawn from the deck ends on top of the discard
    pile, and a card taken from the discard pile is put back where it was.
    In both cases the cards of the session are the same and no drawn card
    stays pending. *)
Theorem cancelled_draw_is_discarded (rng : list nat) (pid : player_id) (g : game) :
  no_pending_draw g → phase g = PLAYING → Some pid = current_player_id g →
  (all_cards (callback_replace_hand_card_cancel pid
                (handle_player_action_draw_deck rng pid g).1).1 ≡ₚ all_cards g
   ∧ all_participants (callback_replace_hand_card_cancel pid
                         (handle_player_action_draw_deck rng pid g).1).1
     = all_participants g
   ∧ no_pending_draw (callback_replace_hand_card_cancel pid
                        (handle_player_action_draw_deck rng pid g).1).1
   ∧ (∀ c, pending_draw (handle_player_action_draw_deck rng pid g).1 pid = Some c →
        last (discard_pile (callback_replace_hand_card_cancel pid
                              (handle_player_action_draw_deck rng pid g).1).1) = Some c))
  ∧ (discard_pile (callback_replace_hand_card_cancel pid
                     (handle_player_action_draw_discard pid g).1).1 = discard_pile g
     ∧ deck (callback_replace_hand_card_cancel pid
               (handle_player_action_draw_discard pid g).1).1 = deck g
     ∧ all_participants (callback_replace_hand_card_cancel pid
                           (handle_player_action_draw_discard pid g).1).1
       = all_participants g
     ∧ no_pending_draw (callback_replace_hand_card_cancel pid
                          (handle_player_action_draw_discard pid g).1).1).
Proof.
  intros Hno Hplaying Hturn. split.
  - destruct (cancel_after_draw g _ pid (handle_player_action_draw_deck_outcome rng pid g)
                Hno Hplaying Hturn) as (H1 & H2 & H3 & H4).
    split_and!; try done. intros c Hc. by rewrite (H4 c Hc), last_snoc.
  - destruct (cancel_after_draw g _ pid (handle_player_action_draw_discard_outcome pid g)
                Hno Hplaying Hturn) as (H1 & H2 & H3 & H4).
    split_and!; try done.
    + unfold handle_player_action_draw_discard in *.
      destruct (get_player_by_id g pid) as [p|] eqn:Hp.
      2:{ rewrite callback_replace_hand_card_cancel_state. simpl.
          rewrite Hplaying, <-Hturn, !bool_decide_eq_true_2 by done. simpl.
          fold (pending_draw g pid). by rewrite Hno. }
      destruct (Py.pop (discard_pile g)) as [[c rest]|] eqn:Hpop.
      2:{ rewrite callback_replace_hand_card_cancel_state. simpl.
          rewrite Hplaying, <-Hturn, !bool_decide_eq_true_2 by done. simpl.
          fold (pending_draw g pid). by rewrite Hno. }
      destruct (top_is_takeable g); simpl in *.
      * apply pop_Some in Hpop. rewrite (H4 c); [by rewrite Hpop|].
        rewrite remember_drawn_card_pending. by rewrite decide_True.
      * rewrite callback_replace_hand_card_cancel_state.
        rewrite Hplaying, <-Hturn, !bool_decide_eq_true_2 by done. simpl.
        fold (pending_draw g pid). by rewrite Hno.
    + rewrite callback_replace_hand_card_cancel_state.
      destruct (handle_player_action_draw_discard_outcome pid g) as (_ & Hph & Hcur & _).
      rewrite Hph, Hcur, Hplaying, <-Hturn, !bool_decide_eq_true_2 by done. simpl.
      assert (deck (handle_player_action_draw_discard pid g).1 = deck g) as Hd.
      { unfold handle_player_action_draw_discard.
        destruct (get_player_by_id g pid); [|done].
        destruct (Py.pop (discard_pile g)) as [[c rest]|]; [|done].
        by destruct (top_is_takeable g). }
      by destruct (_ ≫= tc_drawn_card).
Qed.

Lemma cancelled_draw_is_discarded_witness :
  discard_pile (callback_replace_hand_card_cancel (IntId 1)
                  (handle_player_action_draw_discard (IntId 1) round_game).1).1
  = discard_pile round_game.
Proof.
  destruct (cancelled_draw_is_discarded [] (IntId 1) round_game) as (_ & H & _);
    [intros pid; reflexivity|reflexivity|reflexivity|exact H].
Defined.
(** ** The Safecracker's exchange and the Snitch's gifts *)

Lemma execute_safecracker_exchange_state pid i j g p ch cs :
  get_player_by_id g pid = Some p → p_hand p !! j = Some ch → safe g !! i = Some cs →
  get_player_by_id (execute_safecracker_exchange pid i j g).1 pid
  = Some (set_viewed ({[j]} ∪ p_viewed_card_indices p) (set_hand (<[j := cs]> (p_hand p)) p))
  ∧ safe (execute_safecracker_exchange pid i j g).1 = <[i := ch]> (safe g).
Proof.
  intros Hp Hj Hi. unfold execute_safecracker_exchange. rewrite Hp, Hj, Hi.
  set (f := λ p, set_viewed _ (set_hand _ p)).
  unfold finish_ability. cbn [fst].
  replace (get_player_by_id (set_active_ability_context None
             (set_safe (<[i:=ch]> (safe g)) (update_player pid f g))))
    with (get_player_by_id (update_player pid f g)) by done.
  rewrite get_player_by_id_update_player, Hp by done. by split.
Qed.

(** X16. The exchange puts the chosen card of the safe in the
    hand and the chosen card of the hand in the safe, at the chosen
    positions; the same exchange made again gives both back. *)
Theorem safecracker_exchange_round_trip (pid : player_id) (i j : nat) (g : game)
    (p : player) (ch cs : card) :
  get_player_by_id g pid = Some p → p_hand p !! j = Some ch → safe g !! i = Some cs →
  (p_hand <$> get_player_by_id (execute_safecracker_exchange pid i j g).1 pid)
  = Some (<[j := cs]> (p_hand p))
  ∧ safe (execute_safecracker_exchange pid i j g).1 = <[i := ch]> (safe g)
  ∧ (p_hand <$> get_player_by_id
       (execute_safecracker_exchange pid i j
          (execute_safecracker_exchange pid i j g).1).1 pid)
    = Some (p_hand p)
  ∧ safe (execute_safecracker_exchange pid i j
            (execute_safecracker_exchange pid i j g).1).1 = safe g.
Proof.
  intros Hp Hj Hi.
  destruct (execute_safecracker_exchange_state pid i j g p ch cs Hp Hj Hi) as [H1 H2].
  assert (j < length (p_hand p)) as Hjl by by eapply lookup_lt_Some.
  assert (i < length (safe g)) as Hil by by eapply lookup_lt_Some.
  destruct (execute_safecracker_exchange_state pid i j
              (execute_safecracker_exchange pid i j g).1 _ cs ch H1) as [H3 H4].
  { simpl. by rewrite list_lookup_insert_eq. }
  { rewrite H2. by rewrite list_lookup_insert_eq. }
  split_and!.
  - by rewrite H1.
  - exact H2.
  - rewrite H3. simpl. by rewrite list_insert_insert_eq, list_insert_id.
  - rewrite H4, H2. by rewrite list_insert_insert_eq, list_insert_id.
Qed.

Lemma safecracker_exchange_round_trip_witness :
  safe (execute_safecracker_exchange (IntId 2) 1 0
          (execute_safecracker_exchange (IntId 2) 1 0 round_game).1).1
  = safe round_game.
Proof.
  destruct (safecracker_exchange_round_trip (IntId 2) 1 0 round_game
              (example_player (IntId 2) [Bottle 5; Bottle 3; Bottle 1; Bottle 1] false)
              (Bottle 5) (Character "The Mole" 10 "peek_own" 15))
    as (_ & _ & _ & H); [reflexivity|reflexivity|reflexivity|exact H].
Defined.

(** The Snitch's loop over distinct, known targets while the deck lasts. *)
Lemma snitch_give_hands targets g :
  NoDup targets → Forall (λ t, is_Some (get_player_by_id g t)) targets →
  length targets ≤ length (deck g) →
  deck (snitch_give targets g) = take (length (deck g) - length targets) (deck g)
  ∧ (∀ k t, targets !! k = Some t →
       (p_hand <$> get_player_by_id (snitch_give targets g) t)
       = match get_player_by_id g t, deck g !! (length (deck g) - 1 - k) with
         | Some p, Some c => Some (p_hand p ++ [c])
         | _, _ => None
         end)
  ∧ (∀ q, q ∉ targets → get_player_by_id (snitch_give targets g) q = get_player_by_id g q).
Proof.
  revert g. induction targets as [|t targets IH]; intros g Hnd Hall Hlen.
  { simpl. split_and!; [|done|done]. by rewrite Nat.sub_0_r, firstn_all. }
  apply NoDup_cons in Hnd as [Ht Hnd]. apply Forall_cons in Hall as [[p Hp] Hall].
  simpl in Hlen. simpl. rewrite Hp.
  destruct (Py.pop (deck g)) as [[c d]|] eqn:Hpop.
  2:{ apply pop_None in Hpop. rewrite Hpop in Hlen. simpl in Hlen. lia. }
  apply pop_Some in Hpop.
  set (f := λ p, set_hand (p_hand p ++ [c]) p).
  set (g1 := update_player t f (set_deck d g)).
  assert (deck g1 = d) as Hd1 by (unfold g1; by rewrite deck_update_player).
  assert (∀ q, get_player_by_id g1 q
               = if decide (q = t) then f <$> get_player_by_id g q
                 else get_player_by_id g q) as Hget.
  { intros q. unfold g1. by rewrite get_player_by_id_update_player_any. }
  rewrite Hpop, length_app in Hlen |- *. simpl in Hlen |- *.
  destruct (IH g1 Hnd) as (IH1 & IH2 & IH3).
  { eapply Forall_impl; [exact Hall|]. intros q [x Hx]. rewrite Hget.
    destruct (decide _); rewrite Hx; by eexists. }
  { rewrite Hd1. lia. }
  rewrite Hd1 in IH1, IH2. split_and!.
  - rewrite IH1, take_app_le by lia. f_equal. lia.
  - intros [|k] q Hq; simpl in Hq.
    + injection Hq as <-. rewrite (IH3 t Ht), Hget, decide_True, Hp by done.
      replace (length d + 1 - 1 - 0) with (length d) by lia.
      by rewrite list_lookup_middle.
    + rewrite (IH2 k q Hq), Hget.
      assert (q ≠ t) as Hne.
      { intros ->. apply Ht. by eapply list_elem_of_lookup_2. }
      rewrite decide_False by done.
      assert (k < length targets) by by eapply lookup_lt_Some.
      replace (length d + 1 - 1 - S k) with (length d - 1 - k) by lia.
      by rewrite lookup_app_l by lia.
  - intros q Hq. apply not_elem_of_cons in Hq as [Hne Hq].
    rewrite (IH3 q Hq), Hget. by rewrite decide_False.
Qed.

(** X17. With distinct, known targets and enough cards in the deck,
    the Snitch gives every target exactly one card, off the top of the deck
    in the order the targets were chosen; the card is added at the end of
    the hand, and nobody else and no other pile is touched. *)
Theorem snitch_gives_one_card_each (snitch : player_id) (targets : list player_id)
    (g : game) :
  is_Some (get_player_by_id g snitch) →
  NoDup targets → Forall (λ t, is_Some (get_player_by_id g t)) targets →
  length targets ≤ length (deck g) →
  deck (execute_the_snitch_ability snitch targets g).1
  = take (length (deck g) - length targets) (deck g)
  ∧ (∀ k t, targets !! k = Some t →
       ∃ p c, get_player_by_id g t = Some p
         ∧ deck g !! (length (deck g) - 1 - k) = Some c
         ∧ (p_hand <$> get_player_by_id (execute_the_snitch_ability snitch targets g).1 t)
           = Some (p_hand p ++ [c]))
  ∧ (∀ q, q ∉ targets →
       get_player_by_id (execute_the_snitch_ability snitch targets g).1 q
       = get_player_by_id g q)
  ∧ discard_pile (execute_the_snitch_ability snitch targets g).1 = discard_pile g
  ∧ safe (execute_the_snitch_ability snitch targets g).1 = safe g.
Proof.
  intros [s Hs] Hnd Hall Hlen. unfold execute_the_snitch_ability. rewrite Hs.
  unfold finish_ability. cbn [fst].
  destruct (snitch_give_hands targets g Hnd Hall Hlen) as (H1 & H2 & H3).
  split_and!; [exact H1| |exact H3| |].
  - intros k t Hk.
    assert (is_Some (get_player_by_id g t)) as [p Hp].
    { eapply (proj1 (Forall_forall _ _) Hall). by eapply list_elem_of_lookup_2. }
    assert (k < length targets) by by eapply lookup_lt_Some.
    destruct (lookup_lt_is_Some_2 (deck g) (length (deck g) - 1 - k)) as [c Hc]; [lia|].
    exists p, c. split_and!; [done|done|].
    specialize (H2 k t Hk). by rewrite Hp, Hc in H2.
  - change (discard_pile (snitch_give targets g) = discard_pile g).
    clear. revert g. induction targets as [|t l IH]; intros g; simpl; [done|].
    destruct (get_player_by_id g t); [|apply IH].
    destruct (Py.pop (deck g)) as [[c d]|]; [|done].
    by rewrite IH, discard_pile_update_player.
  - change (safe (snitch_give targets g) = safe g).
    clear. revert g. induction targets as [|t l IH]; intros g; simpl; [done|].
    destruct (get_player_by_id g t); [|apply IH].
    destruct (Py.pop (deck g)) as [[c d]|]; [|done].
    by rewrite IH, safe_update_player.
Qed.

Lemma snitch_gives_one_card_each_witness :
  deck (execute_the_snitch_ability (IntId 1) [IntId 2] snitch_game).1 = [Bottle 8].
Proof.
  destruct (snitch_gives_one_card_each (IntId 1) [IntId 2] snitch_game) as (H & _);
    [by eexists| | |simpl; lia|exact H].
  - apply NoDup_singleton.
  - repeat constructor. by eexists.
Defined.
(** ** The lobby *)

Lemma ai_id_rank_new (k : nat) (r : Z) :
  1 ≤ k ≤ 9 →
  ai_id_rank (StrId ("ai_" +:+ pretty k +:+ "_" +:+ pretty r)) = Some k.
Proof.
  intros Hk. do 10 (destruct k as [|k]; [(lia || (vm_compute; reflexivity))|]). lia.
Qed.

Lemma lobby_invariant_run_join g j : lobby_invariant g → lobby_invariant (run_join g j).
Proof.
  intros Hinv. pose proof Hinv as (Hcap & Hnd & Hint & Hai). unfold all_participants in Hcap.
  rewrite length_app in Hcap.
  destruct j as [now u|now r]; simpl.
  - unfold add_player_to_game. destruct (decide _) as [Hfull|Hroom]; [exact Hinv|].
    destruct (existsb _ _) eqn:Hex; [exact Hinv|].
    split_and!; simpl.
    + unfold all_participants. simpl. rewrite !length_app. simpl. lia.
    + rewrite fmap_app. simpl. apply NoDup_app. split_and!; [done| |apply NoDup_singleton].
      intros i Hi Hi'. apply list_elem_of_singleton in Hi' as ->.
      apply list_elem_of_fmap in Hi as (p & Hp & Hin).
      assert (existsb (has_id (IntId u)) (players g) = true) as Hex'; [|congruence].
      apply existsb_exists. exists p. split; [by apply list_elem_of_In|].
      unfold has_id. by apply bool_decide_eq_true.
    + apply Forall_app. split; [done|]. repeat constructor. by eexists.
    + done.
  - unfold add_ai_player_to_game. destruct (decide _) as [Hfull|Hroom]; [exact Hinv|].
    split_and!; simpl; [|done|done|].
    + unfold all_participants. simpl. rewrite !length_app. simpl. lia.
    + intros k p Hk. apply lookup_app_Some in Hk as [Hk|[Hlen Hk]]; [by apply Hai|].
      apply list_lookup_singleton_Some in Hk as [Hk <-]. simpl.
      replace (S k) with (length (ai_players g) + 1) by lia.
      apply ai_id_rank_new. unfold MAX_PLAYERS in Hroom. lia.
Qed.

Lemma lobby_invariant_run_joins js g : lobby_invariant g → lobby_invariant (run_joins js g).
Proof.
  revert g. induction js as [|j js IH]; intros g Hg; [done|].
  simpl. apply IH. by apply lobby_invariant_run_join.
Qed.

Lemma lobby_invariant_add_game : lobby_invariant add_game.
Proof.
  split_and!; simpl.
  - unfold MAX_PLAYERS. lia.
  - constructor.
  - constructor.
  - intros k p Hk. by rewrite lookup_nil in Hk.
Qed.

(** X18. However chat users and AI players are added to a new game,
    the lobby never holds more than [MAX_PLAYERS] participants and no two of
    them share an id. *)
Theorem lobby_stays_within_capacity (js : list join) :
  length (all_participants (run_joins js add_game)) ≤ MAX_PLAYERS
  ∧ NoDup (participant_ids (run_joins js add_game)).
Proof.
  destruct (lobby_invariant_run_joins js add_game lobby_invariant_add_game)
    as (Hcap & Hnd & Hint & Hai).
  split; [done|]. unfold participant_ids, all_participants. rewrite fmap_app.
  apply NoDup_app. split_and!; [done| |].
  - intros i Hi Hi'.
    apply list_elem_of_fmap in Hi as (p & -> & Hp).
    apply list_elem_of_fmap in Hi' as (q & Hq & Hin).
    apply (proj1 (Forall_forall _ _) Hint) in Hp as [n Hn].
    apply list_elem_of_lookup in Hin as [k Hk]. apply Hai in Hk.
    rewrite <- Hq, Hn in Hk. done.
  - apply NoDup_fmap_2_strong; [|].
    + intros p q Hp Hq Heq.
      apply list_elem_of_lookup in Hp as [k Hk]. apply list_elem_of_lookup in Hq as [k' Hk'].
      pose proof (Hai _ _ Hk) as H1. pose proof (Hai _ _ Hk') as H2.
      rewrite Heq in H1. assert (k = k') as -> by congruence. congruence.
    + apply NoDup_alt. intros i j p Hi Hj.
      pose proof (Hai _ _ Hi) as H1. pose proof (Hai _ _ Hj) as H2. congruence.
Qed.

(** X19. A chat user who joins again changes nothing: the
    lobby after two joins is the lobby after the first, whatever the time of
    the second. *)
Theorem joining_twice_is_joining_once (now now' : Z) (user_id : player_id) (g : game) :
  (add_player_to_game now' user_id (add_player_to_game now user_id g).1).1
  = (add_player_to_game now user_id g).1.
Proof.
  unfold add_player_to_game at 2 3.
  destruct (decide (MAX_PLAYERS ≤ _)) as [Hfull|Hroom]; simpl.
  { unfold add_player_to_game. by rewrite decide_True. }
  destruct (existsb (has_id user_id) (players g)) eqn:Hex; simpl.
  { unfold add_player_to_game. rewrite decide_False by done. by rewrite Hex. }
  unfold add_player_to_game. destruct (decide _); [done|]. simpl.
  rewrite existsb_app. simpl. unfold has_id at 2. simpl.
  rewrite bool_decide_true by done. by rewrite orb_true_r.
Qed.

Lemma add_ai_players_room rounds g :
  length (all_participants g) + length rounds ≤ MAX_PLAYERS →
  (add_ai_players rounds g).2 = length rounds
  ∧ players (add_ai_players rounds g).1 = players g
  ∧ length (ai_players (add_ai_players rounds g).1) = length (ai_players g) + length rounds.
Proof.
  revert g. induction rounds as [|[now r] rounds IH]; intros g Hroom; simpl.
  { split_and!; [done|done|lia]. }
  unfold all_participants in Hroom. rewrite length_app in Hroom. simpl in Hroom.
  unfold add_ai_player_to_game at 1 2 3. rewrite decide_False by (unfold MAX_PLAYERS in *; lia).
  set (g1 := set_ai_players _ g).
  destruct (IH g1) as (H1 & H2 & H3).
  { unfold all_participants, g1. simpl. rewrite !length_app. simpl. lia. }
  destruct (add_ai_players rounds g1) as [g2 n]. simpl in *.
  split_and!; [by rewrite H1|done|]. rewrite H3. unfold g1. simpl.
  rewrite length_app. simpl. lia.
Qed.

(** X20. The AI-count keyboard offers between one and six
    players and never more than the lobby has room for: when a count it
    offers is chosen, that many AI players are added, none is refused, and
    the human players stay as they are. *)
Theorem offered_ai_count_is_added (i : nat) (rounds : list (Z * Z)) (g : game) :
  ai_add_count i ∈ get_add_ai_options_keyboard (length (all_participants g)) MAX_PLAYERS →
  length rounds = i →
  1 ≤ i ≤ 6
  ∧ (add_ai_players rounds g).2 = i
  ∧ players (add_ai_players rounds g).1 = players g
  ∧ length (ai_players (add_ai_players rounds g).1) = length (ai_players g) + i
  ∧ length (all_participants (add_ai_players rounds g).1) ≤ MAX_PLAYERS.
Proof.
  intros Hin Hlen. unfold get_add_ai_options_keyboard in Hin.
  apply elem_of_app in Hin as [Hin|Hin]; [|by apply list_elem_of_singleton in Hin].
  destruct (decide _) as [|Hpos]; [by apply list_elem_of_singleton in Hin|].
  apply list_elem_of_fmap in Hin as (j & [= <-] & Hj). apply elem_of_seq in Hj.
  destruct (add_ai_players_room rounds g) as (H1 & H2 & H3); [lia|].
  split_and!; [lia|lia|congruence|done|lia|].
  unfold all_participants in *. rewrite length_app in *. rewrite H2, H3. lia.
Qed.

Lemma offered_ai_count_is_added_witness :
  (add_ai_players [(20, 2000); (21, 3000)]%Z lobby_game).2 = 2.
Proof.
  destruct (offered_ai_count_is_added 2 [(20, 2000); (21, 3000)]%Z lobby_game)
    as (_ & H & _); [|reflexivity|exact H].
  vm_compute. apply list_elem_of_further, list_elem_of_here.
Defined.
(** ** The turn engine *)

Lemma turn_fields_update_player pid f g :
  turn_fields (update_player pid f g) = turn_fields g.
Proof. unfold update_player. by destruct (existsb _ _). Qed.

Lemma turn_fields_settle_round c g : turn_fields (settle_round c g).1 = turn_fields g.
Proof.
  unfold settle_round. set (co := if truthy_opt c then _ else None).
  destruct (determine_winner _ co) as [w pen].
  destruct co as [caller|]; [destruct pen|]; simpl; try done.
  by rewrite turn_fields_update_player.
Qed.

Lemma turn_fields_handle_omerta_call c g :
  turn_fields (handle_omerta_call c g).1 = turn_fields g.
Proof.
  unfold handle_omerta_call. destruct (round_is_over (phase g)); [done|].
  assert (turn_fields (cancel_pending_contexts g).1 = turn_fields g) as Hc.
  { unfold cancel_pending_contexts.
    destruct (active_ability_context g ≫= ctx_timeout_job_name);
      destruct (bottle_match_context _ ≫= bc_timeout_job_name); done. }
  destruct (cancel_pending_contexts g) as [g1 e]. simpl in Hc.
  set (g2 := set_omerta_caller_id c (set_phase OMERTA_CALLED g1)).
  pose proof (turn_fields_settle_round c g2) as Hs.
  destruct (settle_round c g2) as [g3 w]. simpl in *.
  transitivity (turn_fields g3); [done|]. by rewrite Hs.
Qed.

Lemma turn_fields_handle_ai_player_turn rng choice ai g :
  turn_fields (handle_ai_player_turn rng choice ai g).1 = turn_fields g.
Proof.
  rewrite handle_ai_player_turn_state.
  destruct (get_player_by_id g ai) as [p|]; [|done].
  destruct (p_is_ai p); simpl; [|done].
  destruct (Py.nonempty (p_hand p)); simpl; [|apply turn_fields_handle_omerta_call].
  set (g1 := if Py.nonempty (deck g) then g else _).
  assert (turn_fields g1 = turn_fields g) as H1.
  { unfold g1. destruct (Py.nonempty (deck g)); [done|].
    destruct (Py.nonempty (discard_pile g)); [|done].
    unfold reshuffle_discard_pile. by destruct (Py.pop (discard_pile g)) as [[??]|]. }
  clearbody g1. rewrite <-H1.
  destruct (Py.pop (deck g1)) as [[c d]|]; [|apply turn_fields_handle_omerta_call].
  destruct (p_hand p !! _); simpl; [|done].
  change (turn_fields (update_player ai (λ p0, set_hand (<[choice mod length (p_hand p):=c]> (p_hand p0)) p0)
                         (set_deck d g1)) = turn_fields g1).
  by rewrite turn_fields_update_player.
Qed.

(** The loop of [start_next_player_turn] finds the first player who is not
    inactive, counting from the start index and going round. *)
Lemma find_candidate_found order start a m k q :
  a ≤ k < a + m →
  order !! ((start + k) mod length order) = Some q →
  p_status q ≠ INACTIVE →
  (∀ k', a ≤ k' < k →
     ∃ q', order !! ((start + k') mod length order) = Some q' ∧ p_status q' = INACTIVE) →
  Engine.find_candidate order start (seq a m) = Some q.
Proof.
  revert a. induction m as [|m IH]; intros a Hk Hq Hs Hbefore; [lia|].
  simpl. destruct (decide (a = k)) as [->|Hne].
  - rewrite Hq. by rewrite decide_False.
  - destruct (Hbefore a) as (q' & -> & Hq'); [lia|].
    rewrite decide_True by done. apply IH; [lia|done|done|].
    intros k' Hk'. apply Hbefore. lia.
Qed.

Lemma find_candidate_none order start range :
  Forall (λ p, p_status p = INACTIVE) order →
  Engine.find_candidate order start range = None.
Proof.
  intros Hall. induction range as [|i range IH]; [done|]. simpl.
  destruct (order !! _) as [p|] eqn:Hp; [|done].
  rewrite decide_True; [done|].
  eapply (proj1 (Forall_forall _ _) Hall). by eapply list_elem_of_lookup_2.
Qed.

Lemma list_find_id_NoDup (order : list player) i c :
  NoDup (p_id <$> order) → order !! i = Some c →
  list_find (λ p, p_id p = p_id c) order = Some (i, c).
Proof.
  intros Hnd Hi. apply list_find_Some. split_and!; [done|done|].
  intros j y Hj Hlt Heq.
  assert (i = j) as ->; [|lia].
  eapply NoDup_lookup; [exact Hnd| |].
  - by rewrite list_lookup_fmap, Hi.
  - rewrite list_lookup_fmap, Hj. simpl. by rewrite Heq.
Qed.

Lemma start_index_after order i c :
  NoDup (p_id <$> order) → order !! i = Some c →
  Engine.start_index order (Some (p_id c)) = (i + 1) mod length order.
Proof.
  intros Hnd Hi. unfold Engine.start_index. by rewrite (list_find_id_NoDup _ _ _ Hnd Hi).
Qed.

(** What [start_next_player_turn] does once the next player is known. *)
Lemma start_next_player_turn_candidate s order i c q :
  turn_order_players (Engine.s_game s) = order →
  NoDup (p_id <$> order) →
  order !! i = Some c →
  current_player_id (Engine.s_game s) = Some (p_id c) →
  next_in_turn order i q →
  Engine.find_candidate order (Engine.start_index order (current_player_id (Engine.s_game s)))
    (seq 0 (length order)) = Some q
  ∧ Py.nonempty order = true.
Proof.
  intros Ho Hnd Hi Hcur (k & Hk & Hq & Hs & Hbefore).
  assert (0 < length order) as Hlen by lia.
  split; [|by destruct order].
  rewrite Hcur, (start_index_after _ _ _ Hnd Hi).
  apply (find_candidate_found _ _ 0 _ k); [lia| |done|].
  - by rewrite Nat.Div0.add_mod_idemp_l.
  - intros k' Hk'. rewrite Nat.Div0.add_mod_idemp_l. apply Hbefore. lia.
Qed.

Lemma start_next_player_turn_next rng choice s order i c q :
  turn_order_players (Engine.s_game s) = order →
  NoDup (p_id <$> order) →
  order !! i = Some c →
  current_player_id (Engine.s_game s) = Some (p_id c) →
  next_in_turn order i q →
  Engine.start_next_player_turn rng choice s
  = Engine.process_candidate rng choice order (Some (p_id c)) q s
      (if decide (phase (Engine.s_game s) = PLAYING) then Engine.s_game s
       else set_phase PLAYING (Engine.s_game s)).
Proof.
  intros Ho Hnd Hi Hcur Hnext.
  destruct (start_next_player_turn_candidate s order i c q Ho Hnd Hi Hcur Hnext) as [Hf Hne].
  unfold Engine.start_next_player_turn.
  set (g := if decide _ then _ else _).
  assert (turn_order_players g = order) as -> by (unfold g; by destruct (decide _)).
  assert (current_player_id g = current_player_id (Engine.s_game s)) as ->
    by (unfold g; by destruct (decide _)).
  rewrite Hne. simpl. rewrite Hf. by rewrite Hcur.
Qed.

(** The game after the candidate's turn has begun, on the fields of the
    turn engine. *)
Lemma announce_turn_turn_fields rng choice guarded before q s :
  turn_fields (Engine.s_game (Engine.announce_turn rng choice guarded before q s).1)
  = turn_fields (Engine.s_game s).
Proof.
  unfold Engine.announce_turn. destruct (p_is_ai q); [|done].
  apply turn_fields_handle_ai_player_turn.
Qed.

Lemma process_candidate_turn_fields rng choice order previous q s g :
  turn_fields (Engine.s_game (Engine.process_candidate rng choice order previous q s g).1)
  = (Some (p_id q), al_capone_player_id g, turn_order g,
     (if Engine.starts_new_cycle (Engine.with_game s g) order previous q
      then if decide (cycle_count g + 1 = 0) then 1 else cycle_count g + 1
      else if decide (cycle_count g = 0) then 1 else cycle_count g)%Z,
     if Engine.starts_new_cycle (Engine.with_game s g) order previous q
     then blocked_cards (decrement_blocked_cards_at_cycle_start g)
     else blocked_cards g).
Proof.
  unfold Engine.process_candidate.
  destruct (Engine.starts_new_cycle _ _ _ _) eqn:Hnew.
  - set (g1 := decrement_blocked_cards_at_cycle_start _).
    set (g2 := if decide (cycle_count g1 = 0%Z) then _ else _).
    assert (turn_fields g2 = (Some (p_id q), al_capone_player_id g, turn_order g,
              (if decide (cycle_count g + 1 = 0) then 1 else cycle_count g + 1)%Z,
              blocked_cards (decrement_blocked_cards_at_cycle_start g)))
      as H2.
    { unfold g2, g1. simpl. by destruct (decide (cycle_count g + 1 = 0)%Z). }
    clearbody g2. destruct (decide (p_status q = SKIPPED_TURN)).
    + cbn [fst Engine.s_game Engine.with_game]. by rewrite turn_fields_update_player.
    + by rewrite announce_turn_turn_fields.
  - set (g1 := set_current_player_id _ g).
    set (g2 := if decide (cycle_count g1 = 0%Z) then _ else _).
    assert (turn_fields g2 = (Some (p_id q), al_capone_player_id g, turn_order g,
              (if decide (cycle_count g = 0) then 1 else cycle_count g)%Z, blocked_cards g))
      as H2.
    { unfold g2, g1. simpl. by destruct (decide (cycle_count g = 0%Z)). }
    clearbody g2. destruct (decide (p_status q = SKIPPED_TURN)).
    + cbn [fst Engine.s_game Engine.with_game]. by rewrite turn_fields_update_player.
    + by rewrite announce_turn_turn_fields.
Qed.

Lemma turn_fields_set_phase ph g : turn_fields (set_phase ph g) = turn_fields g.
Proof. done. Qed.

(** X21. When the player whose turn ended stands in the turn
    order, [start_next_player_turn] gives the turn to the first player after
    them, going round, who is not inactive; the turn order itself is left as
    it is, and a human who is not skipped is sent the action keyboard last. *)
Theorem turn_passes_to_the_next_player (rng : list nat) (choice : nat)
    (s : Engine.session) (order : list player) (i : nat) (c q : player) :
  turn_order_players (Engine.s_game s) = order →
  NoDup (p_id <$> order) →
  order !! i = Some c →
  current_player_id (Engine.s_game s) = Some (p_id c) →
  next_in_turn order i q →
  current_player_id (Engine.s_game (Engine.start_next_player_turn rng choice s).1)
  = Some (p_id q)
  ∧ turn_order (Engine.s_game (Engine.start_next_player_turn rng choice s).1)
    = turn_order (Engine.s_game s)
  ∧ (p_is_ai q = false → p_status q ≠ SKIPPED_TURN →
     ∃ kbd, last (Engine.start_next_player_turn rng choice s).2
            = Some (Engine.emit (send_keyboard (Engine.pm_player_id (p_id q))
                                   "It's your turn! Choose an action:" kbd))).
Proof.
  intros Ho Hnd Hi Hcur Hnext.
  rewrite (start_next_player_turn_next rng choice s order i c q Ho Hnd Hi Hcur Hnext).
  set (g := if decide _ then _ else _).
  pose proof (process_candidate_turn_fields rng choice order (Some (p_id c)) q s g) as Hf.
  assert (turn_order g = turn_order (Engine.s_game s)) as Hto
    by (unfold g; by destruct (decide _)).
  unfold turn_fields in Hf. split_and!; [congruence|congruence|].
  intros Hai Hskip. unfold Engine.process_candidate.
  destruct (Engine.starts_new_cycle _ _ _ _); cbv zeta iota beta;
    rewrite decide_False by done; unfold Engine.announce_turn; rewrite Hai;
    eexists; cbn [snd]; by rewrite last_snoc.
Qed.

Lemma turn_passes_to_the_next_player_witness :
  current_player_id (Engine.s_game (Engine.start_next_player_turn [] 0 table_session).1)
  = Some (IntId 2).
Proof.
  destruct (turn_passes_to_the_next_player [] 0 table_session
              (turn_order_players table_game) 0
              (example_player (IntId 1) [Bottle 2; Bottle 3; Bottle 4; Bottle 6] false)
              (example_player (IntId 2) [Bottle 5; Bottle 3; Bottle 1; Bottle 1] false))
    as (H & _ & _); [reflexivity| |reflexivity|reflexivity| |exact H].
  - apply (bool_decide_unpack _). vm_compute. exact I.
  - exists 0. split_and!; [simpl; lia|reflexivity|done|intros k' Hk'; lia].
Defined.

(** X22. Once the first cycle has begun, the cycle count goes up by
    one exactly when the turn comes to Al Capone, and it is then that every
    Police block loses a cycle; any other turn leaves both as they are.  The
    first turn the engine starts opens cycle 1. *)
Theorem cycle_count_follows_al_capone (rng : list nat) (choice : nat)
    (s : Engine.session) (order : list player) (i : nat) (c q : player) :
  turn_order_players (Engine.s_game s) = order →
  NoDup (p_id <$> order) →
  order !! i = Some c →
  current_player_id (Engine.s_game s) = Some (p_id c) →
  next_in_turn order i q →
  ((0 < cycle_count (Engine.s_game s))%Z →
   Some (p_id q) = al_capone_player_id (Engine.s_game s) →
   cycle_count (Engine.s_game (Engine.start_next_player_turn rng choice s).1)
   = (cycle_count (Engine.s_game s) + 1)%Z
   ∧ blocked_cards (Engine.s_game (Engine.start_next_player_turn rng choice s).1)
     = blocked_cards (decrement_blocked_cards_at_cycle_start (Engine.s_game s)))
  ∧ ((0 < cycle_count (Engine.s_game s))%Z →
     Some (p_id q) ≠ al_capone_player_id (Engine.s_game s) →
     cycle_count (Engine.s_game (Engine.start_next_player_turn rng choice s).1)
     = cycle_count (Engine.s_game s)
     ∧ blocked_cards (Engine.s_game (Engine.start_next_player_turn rng choice s).1)
       = blocked_cards (Engine.s_game s))
  ∧ (cycle_count (Engine.s_game s) = 0%Z →
     cycle_count (Engine.s_game (Engine.start_next_player_turn rng choice s).1) = 1%Z).
Proof.
  intros Ho Hnd Hi Hcur Hnext.
  rewrite (start_next_player_turn_next rng choice s order i c q Ho Hnd Hi Hcur Hnext).
  set (g := if decide _ then _ else _).
  pose proof (process_candidate_turn_fields rng choice order (Some (p_id c)) q s g) as Hf.
  assert (cycle_count g = cycle_count (Engine.s_game s)
          ∧ al_capone_player_id g = al_capone_player_id (Engine.s_game s)
          ∧ blocked_cards g = blocked_cards (Engine.s_game s)
          ∧ blocked_cards (decrement_blocked_cards_at_cycle_start g)
            = blocked_cards (decrement_blocked_cards_at_cycle_start (Engine.s_game s)))
    as (Hc & Hac & Hb & Hd) by (unfold g; by destruct (decide _)).
  unfold turn_fields in Hf. unfold Engine.starts_new_cycle in Hf.
  cbn [Engine.s_game Engine.with_game] in Hf. rewrite Hc, Hac, Hb, Hd in Hf.
  split_and!.
  - intros Hpos Hq.
    rewrite bool_decide_eq_true_2 in Hf by done.
    rewrite (bool_decide_eq_true_2 (0 < _)%Z) in Hf by done.
    rewrite orb_true_r in Hf. simpl in Hf.
    rewrite decide_False in Hf by lia.
    injection Hf as _ _ _ H4 H5. split; [exact H4|exact H5].
  - intros Hpos Hq.
    rewrite bool_decide_eq_false_2 in Hf by done. simpl in Hf.
    rewrite decide_False in Hf by lia.
    injection Hf as _ _ _ H4 H5. split; [exact H4|exact H5].
  - intros H0. rewrite H0 in Hf.
    destruct (_ && _) in Hf;
      [rewrite decide_False in Hf by lia|rewrite decide_True in Hf by done];
      simpl in Hf; injection Hf as _ _ _ H4 _; exact H4.
Qed.

Lemma cycle_count_follows_al_capone_witness :
  cycle_count (Engine.s_game (Engine.start_next_player_turn [] 0 table_session).1) = 2%Z.
Proof.
  destruct (cycle_count_follows_al_capone [] 0 table_session
              (turn_order_players table_game) 0
              (example_player (IntId 1) [Bottle 2; Bottle 3; Bottle 4; Bottle 6] false)
              (example_player (IntId 2) [Bottle 5; Bottle 3; Bottle 1; Bottle 1] false))
    as (_ & H & _); [reflexivity| |reflexivity|reflexivity| |].
  - apply (bool_decide_unpack _). vm_compute. exact I.
  - exists 0. split_and!; [simpl; lia|reflexivity|done|intros k' Hk'; lia].
  - destruct H as [H _]; [simpl; lia|done|exact H].
Defined.
(** ** The end of the turn order, and skipped turns *)

Ltac absurd_member H :=
  repeat (apply elem_of_cons in H as [H|H]; [discriminate H|]);
  by apply elem_of_nil in H.

(** What a settlement sends out: the cancellations of the pending jobs,
    the announcement, the results, the statistics and, last, the play-again
    keyboard to the group chat. *)
Lemma handle_omerta_call_effects c g :
  round_is_over (phase g) = false →
  ∃ scores jobs,
    final_scores_list (handle_omerta_call c g).1 = Some scores
    ∧ (handle_omerta_call c g).2
      = (cancel_job ∘ Some <$> jobs)
        ++ [send_message None "OMERTA CALLED!";
            send_message None "Final Scores & Hands:";
            update_player_stats scores;
            send_group_keyboard "The round has concluded. Wanna play another hand, boss?"
              get_play_again_keyboard].
Proof.
  intros Hph. unfold handle_omerta_call. rewrite Hph.
  assert (∃ jobs, (cancel_pending_contexts g).2 = cancel_job ∘ Some <$> jobs) as [jobs Hjobs].
  { unfold cancel_pending_contexts.
    destruct (active_ability_context g ≫= ctx_timeout_job_name) as [a|];
      destruct (bottle_match_context _ ≫= bc_timeout_job_name) as [b|]; simpl.
    - by exists [a; b].
    - by exists [a].
    - by exists [b].
    - by exists []. }
  destruct (cancel_pending_contexts g) as [g1 e]. simpl in Hjobs. subst e.
  destruct (settle_round _ _) as [g3 w]. simpl. by eexists _, jobs.
Qed.

Lemma keyboards_sent_settlement text jobs scores last_text kbd :
  keyboards_sent
    (Engine.emit <$>
       ([send_message None text]
        ++ (cancel_job ∘ Some <$> jobs)
        ++ [send_message None "OMERTA CALLED!";
            send_message None "Final Scores & Hands:";
            update_player_stats scores;
            send_group_keyboard last_text kbd]))
  = [(None, kbd)].
Proof.
  unfold keyboards_sent. csimpl. rewrite fmap_app, omap_app.
  replace (omap _ (Engine.emit <$> (cancel_job ∘ Some <$> jobs))) with
    (@nil (option player_id * list button)); [done|].
  induction jobs as [|j jobs IH]; [done|]. by csimpl.
Qed.

(** X23. When the turn order is empty or holds only inactive
    players, [start_next_player_turn] settles the round with no caller,
    whatever the phase was: the round is completed with its scores recorded.
    What it sends is the notice that the game ends and then the settlement,
    so the only keyboard is the play-again keyboard, sent last and to the
    group chat: no player is sent one. *)
Theorem no_player_left_ends_the_round (rng : list nat) (choice : nat) (s : Engine.session) :
  Forall (λ p, p_status p = INACTIVE) (turn_order_players (Engine.s_game s)) →
  phase (Engine.s_game (Engine.start_next_player_turn rng choice s).1) = COMPLETED
  ∧ omerta_caller_id (Engine.s_game (Engine.start_next_player_turn rng choice s).1) = None
  ∧ (∃ scores jobs,
       final_scores_list (Engine.s_game (Engine.start_next_player_turn rng choice s).1)
       = Some scores
       ∧ (Engine.start_next_player_turn rng choice s).2
         = Engine.emit <$>
             ([send_message None
                 (if Py.nonempty (turn_order_players (Engine.s_game s))
                  then "No active players left to take a turn. The game will now end."
                  else "Error: Turn order is missing. The game will now end.")]
              ++ (cancel_job ∘ Some <$> jobs)
              ++ [send_message None "OMERTA CALLED!";
                  send_message None "Final Scores & Hands:";
                  update_player_stats scores;
                  send_group_keyboard
                    "The round has concluded. Wanna play another hand, boss?"
                    get_play_again_keyboard]))
  ∧ keyboards_sent (Engine.start_next_player_turn rng choice s).2
    = [(None, get_play_again_keyboard)].
Proof.
  intros Hall.
  assert (phase (Engine.s_game (Engine.start_next_player_turn rng choice s).1) = COMPLETED
          ∧ omerta_caller_id (Engine.s_game (Engine.start_next_player_turn rng choice s).1)
            = None
          ∧ ∃ scores jobs,
              final_scores_list (Engine.s_game (Engine.start_next_player_turn rng choice s).1)
              = Some scores
              ∧ (Engine.start_next_player_turn rng choice s).2
                = Engine.emit <$>
                    ([send_message None
                        (if Py.nonempty (turn_order_players (Engine.s_game s))
                         then "No active players left to take a turn. The game will now end."
                         else "Error: Turn order is missing. The game will now end.")]
                     ++ (cancel_job ∘ Some <$> jobs)
                     ++ [send_message None "OMERTA CALLED!";
                         send_message None "Final Scores & Hands:";
                         update_player_stats scores;
                         send_group_keyboard
                           "The round has concluded. Wanna play another hand, boss?"
                           get_play_again_keyboard])) as (H1 & H2 & scores & jobs & H3 & H4).
  { unfold Engine.start_next_player_turn.
    set (g := if decide _ then _ else _).
    assert (round_is_over (phase g) = false) as Hph.
    { unfold g. destruct (decide (phase (Engine.s_game s) = PLAYING)) as [->|]; done. }
    assert (turn_order_players g = turn_order_players (Engine.s_game s)) as ->
      by (unfold g; by destruct (decide _)).
    destruct (handle_omerta_call_completed None g Hph) as (H1 & H2 & _).
    destruct (handle_omerta_call_effects None g Hph) as (scores & jobs & H3 & H4).
    destruct (Py.nonempty (turn_order_players (Engine.s_game s))); simpl negb; cbv iota.
    - rewrite find_candidate_none by done.
      split_and!; [done|done|]. exists scores, jobs. split; [done|].
      unfold Engine.call. cbn [snd]. by rewrite H4.
    - split_and!; [done|done|]. exists scores, jobs. split; [done|].
      unfold Engine.call. cbn [snd]. by rewrite H4. }
  split_and!; [done|done|by exists scores, jobs|].
  rewrite H4. apply keyboards_sent_settlement.
Qed.

Lemma no_player_left_ends_the_round_witness :
  phase (Engine.s_game (Engine.start_next_player_turn [] 0 deserted_session).1) = COMPLETED
  ∧ keyboards_sent (Engine.start_next_player_turn [] 0 deserted_session).2
    = [(None, get_play_again_keyboard)].
Proof.
  destruct (no_player_left_ends_the_round [] 0 deserted_session) as (H1 & _ & _ & H2).
  - apply (bool_decide_unpack _). vm_compute. exact I.
  - split; [exact H1|exact H2].
Defined.

(** A player listed in the turn order is the participant of that id. *)
Lemma turn_order_players_lookup g p :
  p ∈ turn_order_players g → get_player_by_id g (p_id p) = Some p.
Proof.
  intros Hp. unfold turn_order_players in Hp.
  apply list_elem_of_omap in Hp as (x & _ & Hx).
  by rewrite (get_player_by_id_id _ _ _ Hx).
Qed.

Lemma turn_order_players_update_player pid f g :
  (∀ p, p_id (f p) = p_id p) →
  turn_order_players (update_player pid f g)
  = (λ p, if decide (p_id p = pid) then f p else p) <$> turn_order_players g.
Proof.
  intros Hf. unfold turn_order_players.
  replace (turn_order (update_player pid f g)) with (turn_order g)
    by (pose proof (turn_fields_update_player pid f g) as H; unfold turn_fields in H;
        congruence).
  induction (turn_order g) as [|x l IH]; [done|]. csimpl.
  rewrite get_player_by_id_update_player_any, IH by done.
  destruct (decide (x = pid)) as [->|Hne].
  - destruct (get_player_by_id g pid) as [p|] eqn:Hp; csimpl; [|done].
    by rewrite decide_True by by eapply get_player_by_id_id.
  - destruct (get_player_by_id g x) as [p|] eqn:Hp; csimpl; [|done].
    rewrite decide_False; [done|].
    apply get_player_by_id_id in Hp. congruence.
Qed.

(** The branch of [process_candidate] for a skipped player. *)
Lemma process_candidate_skipped rng choice order previous q s g :
  p_status q = SKIPPED_TURN →
  ∃ g2 e_cycle,
    Engine.process_candidate rng choice order previous q s g
    = (Engine.mk_session
         (update_player (p_id q) (λ p, set_cannot_call_omerta false (set_status ACTIVE p)) g2)
         (Some (p_id q)) (Engine.al_capone_first_turn_taken s),
       e_cycle ++ [Engine.emit (send_message None "turn is skipped (Mamma's orders!).");
                   Engine.run_skip_adv (p_id q)])
    ∧ all_participants g2 = all_participants g
    ∧ turn_order g2 = turn_order g
    ∧ current_player_id g2 = Some (p_id q)
    ∧ ¬ sends_keyboard e_cycle.
Proof.
  intros Hq. unfold Engine.process_candidate.
  assert (∀ g', ¬ sends_keyboard (Engine.hand_o_meter g')) as Hmeter.
  { intros g' (to & text & kbd & Hin). unfold Engine.hand_o_meter in Hin.
    destruct (Py.nonempty _); [|by apply elem_of_nil in Hin].
    by apply list_elem_of_singleton in Hin. }
  destruct (Engine.starts_new_cycle _ _ _ _).
  - set (g1 := decrement_blocked_cards_at_cycle_start _).
    set (e := _ :: _).
    exists (if decide (cycle_count g1 = 0%Z) then set_cycle_count 1 g1 else g1), e.
    rewrite decide_True by done.
    split_and!; try by destruct (decide (cycle_count g1 = 0%Z)).
    intros (to & text & kbd & Hin). unfold e in Hin.
    apply elem_of_cons in Hin as [Hin|Hin]; [done|].
    destruct (decide (2 < _)%Z); [|by apply elem_of_nil in Hin].
    apply (Hmeter g1). by exists to, text, kbd.
  - set (g1 := set_current_player_id _ g).
    exists (if decide (cycle_count g1 = 0%Z) then set_cycle_count 1 g1 else g1), [].
    rewrite decide_True by done.
    split_and!; try by destruct (decide (cycle_count g1 = 0%Z)).
    intros (to & text & kbd & Hin). by apply elem_of_nil in Hin.
Qed.

Lemma next_in_turn_fmap (F : player → player) order j r :
  (∀ p, p ∈ order → p_status p = INACTIVE → F p = p) →
  (∀ p, p_status p ≠ INACTIVE → p_status (F p) ≠ INACTIVE) →
  next_in_turn order j r → next_in_turn (F <$> order) j (F r).
Proof.
  intros Hin Hact (k & Hk & Hr & Hs & Hbefore). exists k.
  rewrite length_fmap. split_and!; [done| |by apply Hact|].
  - by rewrite list_lookup_fmap, Hr.
  - intros k' Hk'. destruct (Hbefore k' Hk') as (q' & Hq' & Hst).
    exists q'. split; [|done]. rewrite list_lookup_fmap, Hq'. simpl.
    rewrite Hin; [done| |done]. by eapply list_elem_of_lookup_2.
Qed.

Lemma NoDup_ids_eq (order : list player) p q :
  NoDup (p_id <$> order) → p ∈ order → q ∈ order → p_id p = p_id q → p = q.
Proof.
  intros Hnd Hp Hq Heq.
  apply list_elem_of_lookup in Hp as [a Ha]. apply list_elem_of_lookup in Hq as [b Hb].
  assert (a = b) as ->; [|congruence].
  eapply NoDup_lookup; [exact Hnd| |].
  - by rewrite list_lookup_fmap, Ha.
  - rewrite list_lookup_fmap, Hb. simpl. by rewrite Heq.
Qed.

(** X24. A player marked by the Mamma loses exactly the turn
    that comes to them: [start_next_player_turn] sends them no keyboard,
    makes them active again with the Omerta ban lifted, touches nobody else
    and schedules its own next run; that run gives the turn to the first
    player after them who is not inactive. *)
Theorem skipped_player_loses_one_turn (rng rng' : list nat) (choice choice' : nat)
    (s : Engine.session) (order : list player) (i j : nat) (c q r : player) :
  turn_order_players (Engine.s_game s) = order →
  NoDup (p_id <$> order) →
  order !! i = Some c →
  current_player_id (Engine.s_game s) = Some (p_id c) →
  next_in_turn order i q →
  p_status q = SKIPPED_TURN →
  order !! j = Some q →
  next_in_turn order j r →
  get_player_by_id (Engine.s_game (Engine.start_next_player_turn rng choice s).1) (p_id q)
  = Some (set_cannot_call_omerta false (set_status ACTIVE q))
  ∧ (∀ o, o ≠ p_id q →
       get_player_by_id (Engine.s_game (Engine.start_next_player_turn rng choice s).1) o
       = get_player_by_id (Engine.s_game s) o)
  ∧ ¬ sends_keyboard (Engine.start_next_player_turn rng choice s).2
  ∧ last (Engine.start_next_player_turn rng choice s).2 = Some (Engine.run_skip_adv (p_id q))
  ∧ current_player_id
      (Engine.s_game
         (Engine.start_next_player_turn rng' choice'
            (Engine.start_next_player_turn rng choice s).1).1)
    = Some (p_id r).
Proof.
  intros Ho Hnd Hi Hcur Hnext Hskip Hj Hnext'.
  rewrite (start_next_player_turn_next rng choice s order i c q Ho Hnd Hi Hcur Hnext).
  set (g0 := if decide _ then _ else _).
  destruct (process_candidate_skipped rng choice order (Some (p_id c)) q s g0 Hskip)
    as (g2 & e & -> & Hparts & Hto & Hcur2 & Hkbd).
  cbn [fst snd Engine.s_game].
  set (f := λ p, set_cannot_call_omerta false (set_status ACTIVE p)).
  assert (∀ p, p_id (f p) = p_id p) as Hf by done.
  assert (all_participants g0 = all_participants (Engine.s_game s)) as Hparts0
    by (unfold g0; by destruct (decide _)).
  assert (turn_order g0 = turn_order (Engine.s_game s)) as Hto0
    by (unfold g0; by destruct (decide _)).
  assert (∀ x, get_player_by_id g2 x = get_player_by_id (Engine.s_game s) x) as Hget.
  { intros x. unfold get_player_by_id. by rewrite Hparts, Hparts0. }
  assert (get_player_by_id (Engine.s_game s) (p_id q) = Some q) as Hq.
  { apply turn_order_players_lookup. rewrite Ho. by eapply list_elem_of_lookup_2. }
  assert (turn_order_players g2 = order) as Ho2.
  { rewrite <-Ho. unfold turn_order_players, get_player_by_id.
    by rewrite Hparts, Hparts0, Hto, Hto0. }
  split_and!.
  - by rewrite get_player_by_id_update_player, Hget, Hq.
  - intros o Ho'. by rewrite get_player_by_id_update_player_ne, Hget.
  - intros (to & text & kbd & Hin). apply elem_of_app in Hin as [Hin|Hin].
    + apply Hkbd. by exists to, text, kbd.
    + absurd_member Hin.
  - by rewrite last_app.
  - set (F := λ p : player, if decide (p_id p = p_id q) then f p else p).
    assert (∀ p, p_id (F p) = p_id p) as HF
      by (intros p; unfold F, f; by destruct (decide (p_id p = p_id q))).
    set (s1 := Engine.mk_session _ _ _).
    assert (turn_order_players (Engine.s_game s1) = F <$> order) as Ho1.
    { unfold s1. cbn [Engine.s_game]. by rewrite turn_order_players_update_player, Ho2. }
    assert (NoDup (p_id <$> (F <$> order))) as Hnd1.
    { rewrite <-list_fmap_compose. erewrite list_fmap_ext; [exact Hnd|].
      intros ? p _. apply HF. }
    assert ((F <$> order) !! j = Some (F q)) as Hj1 by by rewrite list_lookup_fmap, Hj.
    assert (current_player_id (Engine.s_game s1) = Some (p_id (F q))) as Hcur1.
    { unfold s1. cbn [Engine.s_game]. rewrite HF, <-Hcur2.
      pose proof (turn_fields_update_player (p_id q) f g2) as H.
      unfold turn_fields in H. congruence. }
    assert (next_in_turn (F <$> order) j (F r)) as Hnext1.
    { apply next_in_turn_fmap; [| |done].
      - intros p Hin Hp. unfold F. destruct (decide (p_id p = p_id q)) as [Heq|]; [|done].
        assert (p = q) as ->; [|congruence].
        apply (NoDup_ids_eq order); [done|done| |done].
        by eapply list_elem_of_lookup_2.
      - intros p Hp. unfold F, f. by destruct (decide (p_id p = p_id q)). }
    rewrite (start_next_player_turn_next rng' choice' s1 _ j (F q) (F r) Ho1 Hnd1 Hj1 Hcur1 Hnext1).
    set (g1 := if decide _ then _ else _).
    pose proof (process_candidate_turn_fields rng' choice' (F <$> order)
                  (Some (p_id (F q))) (F r) s1 g1) as Hfields.
    unfold turn_fields in Hfields. rewrite HF in Hfields. congruence.
Qed.

Lemma skipped_player_loses_one_turn_witness :
  current_player_id
    (Engine.s_game
       (Engine.start_next_player_turn [] 0
          (Engine.start_next_player_turn [] 0 mamma_session).1).1)
  = Some (StrId "ai_1_1000").
Proof.
  destruct (skipped_player_loses_one_turn [] [] 0 0 mamma_session
              (turn_order_players (Engine.s_game mamma_session)) 0 1
              (example_player (IntId 1) [Bottle 2; Bottle 3; Bottle 4; Bottle 6] false)
              (mk_player (IntId 2) [Bottle 5; Bottle 3; Bottle 1; Bottle 1] ∅
                 SKIPPED_TURN 0 false 0 true)
              (example_player (StrId "ai_1_1000") [Bottle 5; Bottle 9; Bottle 9; Bottle 9] true))
    as (_ & _ & _ & _ & H);
    [reflexivity| |reflexivity|reflexivity| |reflexivity|reflexivity| |exact H].
  - apply (bool_decide_unpack _). vm_compute. exact I.
  - exists 0. split_and!; [simpl; lia|reflexivity|done|intros k' Hk'; lia].
  - exists 0. split_and!; [simpl; lia|reflexivity|done|intros k' Hk'; lia].
Defined.
(** ** What follows an action: [advance_turn_or_continue_sequence] *)

Lemma find_first_empty_hand (hs l1 l2 : list player) (p : player) :
  List.filter (active_or_caller (Some (p_id p))) hs = l1 ++ p :: l2 →
  Forall (λ x, p_hand x ≠ []) l1 →
  p_status p = ACTIVE → p_hand p = [] →
  List.find (λ player, bool_decide (p_status player = ACTIVE)
                       && negb (Py.nonempty (p_hand player))) hs = Some p.
Proof.
  intros Hsplit Hl1 Hact Hempty. revert l1 Hsplit Hl1.
  induction hs as [|a hs IH]; intros l1 Hsplit Hl1; simpl in *.
  { by destruct l1. }
  destruct (active_or_caller (Some (p_id p)) a) eqn:Ha.
  - destruct l1 as [|b l1]; simpl in Hsplit; injection Hsplit as -> Hsplit.
    + by rewrite Hact, Hempty.
    + apply Forall_cons in Hl1 as [Hb Hl1].
      replace (Py.nonempty (p_hand b)) with true by by destruct (p_hand b).
      rewrite andb_false_r. by apply (IH l1).
  - unfold active_or_caller in Ha. apply orb_false_iff in Ha as [Ha _]. rewrite Ha. simpl.
    by apply (IH l1).
Qed.

(** X25. A player who has got rid of every card ends the round:
    when the engine next decides what follows, it settles the round with the
    first active player holding no card as the caller, whatever else is
    pending, and starts no turn: what it sends is the notice of the forced
    call and then the settlement, so the only keyboard is the play-again
    keyboard, sent last and to the group chat.  A perfect call records that
    player as the only winner with score 0; otherwise the player is recorded
    with the penalty, 20. *)
Theorem emptying_the_hand_ends_the_round (rng : list nat) (choice : nat)
    (s : Engine.session) (p : player) (l1 l2 : list player) :
  round_is_over (phase (Engine.s_game s)) = false →
  truthy (p_id p) = true →
  NoDup (participant_ids (Engine.s_game s)) →
  List.filter (active_or_caller (Some (p_id p))) (all_participants (Engine.s_game s))
  = l1 ++ p :: l2 →
  Forall (λ x, p_hand x ≠ []) l1 →
  p_status p = ACTIVE → p_hand p = [] →
  phase (Engine.s_game (Engine.advance_turn_or_continue_sequence rng choice s).1) = COMPLETED
  ∧ omerta_caller_id (Engine.s_game (Engine.advance_turn_or_continue_sequence rng choice s).1)
    = Some (p_id p)
  ∧ current_player_id (Engine.s_game (Engine.advance_turn_or_continue_sequence rng choice s).1)
    = current_player_id (Engine.s_game s)
  ∧ (∃ scores jobs,
       final_scores_list
         (Engine.s_game (Engine.advance_turn_or_continue_sequence rng choice s).1)
       = Some scores
       ∧ (Engine.advance_turn_or_continue_sequence rng choice s).2
         = Engine.emit <$>
             ([send_message None
                 "has discarded all of their cards! This forces an OMERTA call!"]
              ++ (cancel_job ∘ Some <$> jobs)
              ++ [send_message None "OMERTA CALLED!";
                  send_message None "Final Scores & Hands:";
                  update_player_stats scores;
                  send_group_keyboard
                    "The round has concluded. Wanna play another hand, boss?"
                    get_play_again_keyboard]))
  ∧ keyboards_sent (Engine.advance_turn_or_continue_sequence rng choice s).2
    = [(None, get_play_again_keyboard)]
  ∧ (perfect_call l1 p l2 →
     recorded_winners (Engine.s_game (Engine.advance_turn_or_continue_sequence rng choice s).1)
     = [p_id p]
     ∧ recorded_score (Engine.s_game (Engine.advance_turn_or_continue_sequence rng choice s).1)
         (p_id p) = Some 0%Z)
  ∧ (¬ perfect_call l1 p l2 →
     recorded_score (Engine.s_game (Engine.advance_turn_or_continue_sequence rng choice s).1)
       (p_id p) = Some OMERTA_PENALTY).
Proof.
  intros Hph Htr Hnd Hsplit Hl1 Hact Hempty.
  unfold Engine.advance_turn_or_continue_sequence.
  rewrite (find_first_empty_hand _ _ _ _ Hsplit Hl1 Hact Hempty).
  set (g := Engine.s_game s) in *. cbn [fst snd Engine.call Engine.s_game Engine.with_game].
  destruct (handle_omerta_call_completed (Some (p_id p)) g Hph) as (H1 & H2 & H3).
  pose proof (turn_fields_handle_omerta_call (Some (p_id p)) g) as Hf.
  unfold turn_fields in Hf.
  assert (hand_value p = 0%Z) as Hv by (unfold hand_value; by rewrite Hempty).
  pose proof (caller_found _ _ _ _ _ Hnd Hsplit eq_refl) as Hfind.
  destruct (handle_omerta_call_effects (Some (p_id p)) g Hph) as (scores & jobs & H4 & H5).
  split_and!; [done|done|congruence| | | |].
  - exists scores, jobs. split; [done|]. by rewrite H5.
  - rewrite H5. apply (keyboards_sent_settlement _ jobs scores).
  - intros Hp. unfold recorded_winners, recorded_score.
    rewrite (handle_omerta_call_scores _ _ Hph). simpl.
    rewrite (settle_list_perfect _ _ _ _ _ Htr Hnd Hsplit eq_refl Hp). simpl.
    rewrite score_participant_id. split.
    + apply final_scores_winners.
      * rewrite <-list_fmap_compose.
        erewrite (list_fmap_ext _ p_id); [done|]. intros ? x _. apply score_participant_id.
      * apply list_elem_of_fmap. exists (score_participant (Some (p_id p)) p).
        split; [by rewrite score_participant_id|].
        apply list_elem_of_fmap. exists p. split; [done|].
        by apply (c0_participant _ _ _ _ _ Hsplit).
    + rewrite final_scores_find, Hfind. simpl.
      by rewrite (sc_c0_score _ _ _ _ _ Hsplit), Hv.
  - intros Hp. unfold recorded_score.
    rewrite (handle_omerta_call_scores _ _ Hph). simpl.
    destruct (settle_list_penalised _ _ _ _ _ Htr Hnd Hsplit eq_refl Hp) as (w & Hw & ->).
    simpl. rewrite final_scores_find, find_update_first by done.
    rewrite Hfind. simpl. by rewrite Hv.
Qed.

Lemma emptying_the_hand_ends_the_round_witness :
  recorded_winners
    (Engine.s_game (Engine.advance_turn_or_continue_sequence [] 0 emptied_session).1)
  = [IntId 2].
Proof.
  destruct (emptying_the_hand_ends_the_round [] 0 emptied_session
              (example_player (IntId 2) [] false)
              [example_player (IntId 1) [Bottle 2; Bottle 3; Bottle 4; Bottle 6] false]
              [example_player (StrId "ai_1_1000") [Bottle 5; Bottle 9; Bottle 9; Bottle 9] true])
    as (_ & _ & _ & _ & _ & H & _);
    [reflexivity|reflexivity| |reflexivity| |reflexivity|reflexivity|].
  - apply (bool_decide_unpack _). vm_compute. exact I.
  - by repeat constructor.
  - destruct H as [H _]; [|exact H].
    split_and!; [done| |]; repeat constructor; done.
Defined.

Lemma find_none_Forall {A} (test : A → bool) (l : list A) :
  Forall (λ x, test x = false) l → List.find test l = None.
Proof. induction 1 as [|x l Hx _ IH]; simpl; [done|]. by rewrite Hx. Qed.

(** X26. A discarded Witness or Alibi ends the turn of the
    player who discarded it: unless a hand has run out, the round is over or
    an ability is still pending, the turn goes to the first player after the
    discarder who is not inactive, whoever was recorded as the current
    player before. *)
Theorem plain_discard_passes_the_turn (rng : list nat) (choice : nat)
    (now : Z) (new_obj : positive) (rolls : list Engine.ai_roll)
    (s : Engine.session) (order : list player) (i : nat) (c q : player)
    (name ability : string) (points ability_time : Z) :
  name ∈ ["The Witness"; "The Alibi"] →
  turn_order_players (Engine.s_game s) = order →
  NoDup (p_id <$> order) →
  order !! i = Some c →
  next_in_turn order i q →
  Forall (λ x, p_status x = ACTIVE → p_hand x ≠ []) (all_participants (Engine.s_game s)) →
  round_is_over (phase (Engine.s_game s)) = false →
  bottle_match_context_just_ended (Engine.s_game s) = true
  ∨ active_ability_context (Engine.s_game s) = None →
  current_player_id
    (Engine.s_game
       (Engine.process_discarded_card rng choice now new_obj rolls (p_id c)
          (Character name points ability ability_time) s).1)
  = Some (p_id q).
Proof.
  intros Hname Ho Hnd Hi Hnext Hhands Hph Hpending.
  assert (get_player_by_id (Engine.s_game s) (p_id c) = Some c) as Hc.
  { apply turn_order_players_lookup. rewrite Ho. by eapply list_elem_of_lookup_2. }
  unfold Engine.process_discarded_card. rewrite Hc.
  rewrite (bool_decide_eq_true_2 _ Hname). cbn [orb].
  unfold Engine.advance_turn_or_continue_sequence.
  cbn [Engine.s_game Engine.with_game].
  set (g := Engine.s_game s) in *.
  replace (all_participants (set_current_player_id (Some (p_id c)) g))
    with (all_participants g) by done.
  rewrite find_none_Forall.
  2:{ eapply Forall_impl; [exact Hhands|]. intros x Hx. simpl in Hx.
      destruct (decide (p_status x = ACTIVE)) as [Ha|Ha].
      - rewrite bool_decide_eq_true_2 by done. specialize (Hx Ha).
        by destruct (p_hand x).
      - by rewrite bool_decide_eq_false_2. }
  replace (phase (set_current_player_id (Some (p_id c)) g)) with (phase g) by done.
  rewrite Hph.
  replace (bottle_match_context_just_ended (set_current_player_id (Some (p_id c)) g))
    with (bottle_match_context_just_ended g) by done.
  replace (active_ability_context (set_current_player_id (Some (p_id c)) g))
    with (active_ability_context g) by done.
  assert (∀ g', turn_order_players g' = order →
                current_player_id g' = Some (p_id c) →
                current_player_id
                  (Engine.s_game
                     (Engine.start_next_player_turn rng choice (Engine.with_game s g')).1)
                = Some (p_id q)) as Hstart.
  { intros g' Ho' Hcur'.
    rewrite (start_next_player_turn_next rng choice (Engine.with_game s g') order i c q
               Ho' Hnd Hi Hcur' Hnext).
    cbn [Engine.s_game Engine.with_game].
    set (g0 := if decide _ then _ else _).
    pose proof (process_candidate_turn_fields rng choice order (Some (p_id c)) q
                  (Engine.with_game s g') g0) as Hf.
    unfold turn_fields in Hf. congruence. }
  destruct (bottle_match_context_just_ended g) eqn:Hflag.
  - by apply Hstart.
  - destruct Hpending as [|Hctx]; [done|]. rewrite Hctx.
    apply Hstart; by destruct (decide _).
Qed.

Lemma plain_discard_passes_the_turn_witness :
  current_player_id
    (Engine.s_game
       (Engine.process_discarded_card [] 0 0 1 [] (IntId 2)
          (Character "The Witness" 10 "No special ability" 0) table_session).1)
  = Some (StrId "ai_1_1000").
Proof.
  apply (plain_discard_passes_the_turn [] 0 0 1 [] table_session
           (turn_order_players table_game) 1
           (example_player (IntId 2) [Bottle 5; Bottle 3; Bottle 1; Bottle 1] false)
           (example_player (StrId "ai_1_1000") [Bottle 5; Bottle 9; Bottle 9; Bottle 9] true));
    [apply list_elem_of_here|reflexivity| |reflexivity| | |reflexivity|by right].
  - apply (bool_decide_unpack _). vm_compute. exact I.
  - exists 0. split_and!; [simpl; lia|reflexivity|done|intros k' Hk'; lia].
  - by repeat constructor.
Defined.
(** ** Opening a bottle-match window *)

(** X27. A bottle opens a window in the name of the current player.
    When its timer closes it with nobody having matched, the engine is asked
    to go on, and it gives the turn to the first player after the one who
    opened the window who is not inactive. *)
Theorem unmatched_window_passes_the_turn (rng : list nat) (choice : nat) (now : Z)
    (new_obj : positive) (rolls : list Engine.ai_roll) (discarded_bottle_card : card)
    (s : Engine.session) (order : list player) (i : nat) (c q : player) :
  ¬ (phase (Engine.s_game s) = BOTTLE_MATCHING_WINDOW
     ∧ is_Some (bottle_match_context (Engine.s_game s))) →
  turn_order_players (Engine.s_game s) = order →
  NoDup (p_id <$> order) →
  order !! i = Some c →
  current_player_id (Engine.s_game s) = Some (p_id c) →
  next_in_turn order i q →
  Forall (λ x, p_status x = ACTIVE → p_hand x ≠ []) (all_participants (Engine.s_game s)) →
  let s1 := (Engine.initiate_bottle_matching_window now new_obj rolls
               discarded_bottle_card s).1 in
  let closed := end_bottle_match_window_job (Some new_obj) (Engine.s_game s1) in
  phase (Engine.s_game s1) = BOTTLE_MATCHING_WINDOW
  ∧ bc_triggering_player_id <$> bottle_match_context (Engine.s_game s1)
    = Some (Some (p_id c))
  ∧ last closed.2 = Some advance_turn_or_continue_sequence
  ∧ bottle_match_context closed.1 = None
  ∧ current_player_id
      (Engine.s_game
         (Engine.advance_turn_or_continue_sequence rng choice
            (Engine.with_game s1 closed.1)).1)
    = Some (p_id q).
Proof.
  intros Hopen Ho Hnd Hi Hcur Hnext Hhands.
  unfold Engine.initiate_bottle_matching_window.
  set (g := Engine.s_game s) in *.
  replace (bool_decide (phase g = BOTTLE_MATCHING_WINDOW)
           && bool_decide (is_Some (bottle_match_context g))) with false.
  2:{ symmetry. apply andb_false_iff.
      destruct (decide (phase g = BOTTLE_MATCHING_WINDOW)) as [Hp|Hp].
      - right. apply bool_decide_eq_false_2. intros Hc. by apply Hopen.
      - left. by apply bool_decide_eq_false_2. }
  cbn [fst Engine.s_game Engine.with_game].
  unfold end_bottle_match_window_job.
  cbn [bottle_match_context set_bottle_match_context phase set_phase bc_obj
       bc_triggering_player_id bc_fastest_matcher_id].
  rewrite !bool_decide_eq_true_2 by done. cbn [negb orb truthy_opt fst snd].
  rewrite Hcur.
  split_and!; [done|done|done|by destruct (truthy_opt _)|].
  set (g2 := if truthy_opt (Some (p_id c)) then _ else _).
  assert (all_participants g2 = all_participants g
          ∧ turn_order_players g2 = order
          ∧ current_player_id g2 = Some (p_id c)
          ∧ phase g2 = BOTTLE_MATCHING_WINDOW
          ∧ bottle_match_context_just_ended g2 = true) as (Hparts & Ho2 & Hcur2 & Hph2 & Hfl2).
  { unfold g2. destruct (truthy_opt _); simpl; by rewrite ?Hcur. }
  clearbody g2.
  unfold Engine.advance_turn_or_continue_sequence.
  cbn [Engine.s_game Engine.with_game]. rewrite Hparts.
  rewrite find_none_Forall.
  2:{ eapply Forall_impl; [exact Hhands|]. intros x Hx. simpl in Hx.
      destruct (decide (p_status x = ACTIVE)) as [Ha|Ha].
      - rewrite bool_decide_eq_true_2 by done. specialize (Hx Ha).
        by destruct (p_hand x).
      - by rewrite bool_decide_eq_false_2. }
  rewrite Hph2, Hfl2. cbn [round_is_over].
  replace (round_is_over BOTTLE_MATCHING_WINDOW) with false by done.
  set (s2 := Engine.with_game _ _).
  rewrite (start_next_player_turn_next rng choice s2 order i c q); [|done..].
  set (g0 := if decide _ then _ else _).
  pose proof (process_candidate_turn_fields rng choice order (Some (p_id c)) q s2 g0) as Hf.
  unfold turn_fields in Hf. congruence.
Qed.

Lemma unmatched_window_passes_the_turn_witness :
  current_player_id
    (Engine.s_game
       (Engine.advance_turn_or_continue_sequence [] 0
          (Engine.with_game table_session
             (end_bottle_match_window_job (Some 7%positive)
                (Engine.s_game
                   (Engine.initiate_bottle_matching_window 100 7 [] (Bottle 7)
                      table_session).1)).1)).1)
  = Some (IntId 2).
Proof.
  destruct (unmatched_window_passes_the_turn [] 0 100 7 [] (Bottle 7) table_session
              (turn_order_players table_game) 0
              (example_player (IntId 1) [Bottle 2; Bottle 3; Bottle 4; Bottle 6] false)
              (example_player (IntId 2) [Bottle 5; Bottle 3; Bottle 1; Bottle 1] false))
    as (_ & _ & _ & _ & H);
    [by intros [? _]|reflexivity| |reflexivity|reflexivity| | |exact H].
  - apply (bool_decide_unpack _). vm_compute. exact I.
  - exists 0. split_and!; [simpl; lia|reflexivity|done|intros k' Hk'; lia].
  - by repeat constructor.
Defined.

Lemma prompt_players_human now sig v g ps rolls p :
  p ∈ ps → p_is_ai p = false → p_hand p ≠ [] →
  Engine.send_bottle_match_prompt (Engine.pm_player_id (p_id p))
    (get_bottle_match_prompt_keyboard (p_id p) (p_hand p) (blocked_indices g (str (p_id p))))
  ∈ Engine.prompt_players now sig v g ps rolls.
Proof.
  intros Hin Hai Hhand. revert rolls.
  induction ps as [|a ps IH]; intros rolls; [by apply elem_of_nil in Hin|].
  simpl. apply elem_of_cons in Hin as [<-|Hin].
  - rewrite Hai. replace (Py.nonempty (p_hand p)) with true by by destruct (p_hand p).
    simpl. apply list_elem_of_here.
  - destruct (p_is_ai a).
    + destruct (Py.nonempty _); [|by apply IH].
      apply elem_of_app. right. by apply IH.
    + destruct (negb _); [by apply IH|]. apply list_elem_of_further. by apply IH.
Qed.

(** X28. A card blocked by Police Patrol cannot be offered for
    a bottle match: in the prompt the next window sends to the blocked
    player its position carries no discard button, while every other
    position that was free still does. *)
Theorem bottle_prompt_respects_police_block (now : Z) (new_obj : positive)
    (rolls : list Engine.ai_roll) (discarded_bottle_card : card) (police : player_id)
    (s : Engine.session) (t : player) (k : nat) :
  is_Some (get_player_by_id (Engine.s_game s) police) →
  t ∈ get_active_players_in_turn_order (Engine.s_game s) →
  p_is_ai t = false →
  k < length (p_hand t) →
  ¬ (phase (Engine.s_game s) = BOTTLE_MATCHING_WINDOW
     ∧ is_Some (bottle_match_context (Engine.s_game s))) →
  ∃ kbd,
    Engine.send_bottle_match_prompt (Engine.pm_player_id (p_id t)) kbd
    ∈ (Engine.initiate_bottle_matching_window now new_obj rolls discarded_bottle_card
         (Engine.with_game s
            (execute_police_patrol_ability police (p_id t) k (Engine.s_game s)).1)).2
    ∧ prompt_no_action_card_blocked k (p_id t) ∈ kbd
    ∧ (bottle_match_do_discard k (p_id t) ∉ kbd)
    ∧ ∀ i, i < length (p_hand t) → i ≠ k →
        (i ∉ blocked_indices (Engine.s_game s) (str (p_id t))) →
        bottle_match_do_discard i (p_id t) ∈ kbd.
Proof.
  intros [pp Hp] Ht Hai Hk Hopen.
  set (g := Engine.s_game s) in *.
  assert (get_player_by_id g (p_id t) = Some t) as Hget.
  { apply turn_order_players_lookup.
    unfold get_active_players_in_turn_order in Ht.
    by apply list_elem_of_filter in Ht as [_ ?]. }
  unfold execute_police_patrol_ability. rewrite Hp, Hget.
  rewrite bool_decide_eq_true_2 by done.
  unfold finish_ability. cbn [fst].
  set (g1 := set_active_ability_context None _).
  unfold Engine.initiate_bottle_matching_window.
  cbn [Engine.s_game Engine.with_game].
  replace (phase g1) with (phase g) by done.
  replace (bottle_match_context g1) with (bottle_match_context g) by done.
  replace (bool_decide (phase g = BOTTLE_MATCHING_WINDOW)
           && bool_decide (is_Some (bottle_match_context g))) with false.
  2:{ symmetry. apply andb_false_iff.
      destruct (decide (phase g = BOTTLE_MATCHING_WINDOW)) as [Hph|Hph].
      - right. apply bool_decide_eq_false_2. intros Hc. by apply Hopen.
      - left. by apply bool_decide_eq_false_2. }
  cbn [snd].
  set (g2 := set_bottle_match_context _ _).
  assert (get_active_players_in_turn_order g2 = get_active_players_in_turn_order g) as Hact
    by done.
  assert (blocked_indices g2 (str (p_id t)) = {[k]} ∪ blocked_indices g (str (p_id t))) as Hb.
  { unfold blocked_indices, g2, g1. simpl. rewrite lookup_insert_eq. simpl.
    by rewrite dom_insert_L. }
  exists (get_bottle_match_prompt_keyboard (p_id t) (p_hand t)
            (blocked_indices g2 (str (p_id t)))).
  split_and!.
  - apply elem_of_app. right. apply elem_of_app. left.
    apply prompt_players_human; [by rewrite Hact|done|].
    destruct (p_hand t); [simpl in Hk; lia|done].
  - unfold get_bottle_match_prompt_keyboard. apply elem_of_app. left.
    apply list_elem_of_fmap. exists k. split; [|apply elem_of_seq; lia].
    rewrite bool_decide_eq_true_2; [done|]. rewrite Hb.
    by apply elem_of_union_l, elem_of_singleton_2.
  - unfold get_bottle_match_prompt_keyboard. intros Hin.
    apply elem_of_app in Hin as [Hin|Hin]; [|by apply list_elem_of_singleton in Hin].
    apply list_elem_of_fmap in Hin as (j & Hj & _).
    destruct (bool_decide (j ∈ _)) eqn:Hjb; [done|].
    injection Hj as <-. apply bool_decide_eq_false_1 in Hjb. apply Hjb.
    rewrite Hb. by apply elem_of_union_l, elem_of_singleton_2.
  - intros j Hj Hjk Hfree. unfold get_bottle_match_prompt_keyboard.
    apply elem_of_app. left. apply list_elem_of_fmap. exists j.
    split; [|apply elem_of_seq; lia].
    rewrite bool_decide_eq_false_2; [done|]. rewrite Hb.
    intros [H%elem_of_singleton|H]%elem_of_union; done.
Qed.

Lemma bottle_prompt_respects_police_block_witness :
  ∃ kbd,
    Engine.send_bottle_match_prompt (IntId 2) kbd
    ∈ (Engine.initiate_bottle_matching_window 100 7 [] (Bottle 7)
         (Engine.with_game table_session
            (execute_police_patrol_ability (IntId 1) (IntId 2) 1 table_game).1)).2
    ∧ (bottle_match_do_discard 1 (IntId 2) ∉ kbd).
Proof.
  destruct (bottle_prompt_respects_police_block 100 7 [] (Bottle 7) (IntId 1) table_session
              (example_player (IntId 2) [Bottle 5; Bottle 3; Bottle 1; Bottle 1] false) 1)
    as (kbd & H1 & _ & H2 & _);
    [by eexists| |reflexivity|simpl; lia|by intros [? _]|by exists kbd].
  apply (bool_decide_unpack _). vm_compute. exact I.
Defined.

Lemma prompt_players_ai_job now sig v g ps rolls name delay ai idx sig' :
  Engine.emit (run_once name delay (ai_attempt_bottle_match_job_data ai idx sig'))
  ∈ Engine.prompt_players now sig v g ps rolls →
  sig' = sig ∧ ∃ p, p ∈ ps ∧ p_id p = ai ∧ idx ∈ Engine.matchable_indices g p v.
Proof.
  revert rolls. induction ps as [|a ps IH]; intros rolls Hin; simpl in Hin.
  { by apply elem_of_nil in Hin. }
  assert (sig' = sig ∧ (∃ p, p ∈ ps ∧ p_id p = ai ∧ idx ∈ Engine.matchable_indices g p v) →
          sig' = sig ∧ ∃ p, p ∈ a :: ps ∧ p_id p = ai ∧ idx ∈ Engine.matchable_indices g p v)
    as Hrest.
  { intros (-> & p & Hp & Hid & Hidx). split; [done|]. exists p.
    split; [by apply list_elem_of_further|done]. }
  destruct (p_is_ai a).
  - destruct (Py.nonempty _); [|by apply Hrest, (IH rolls)].
    apply elem_of_app in Hin as [Hin|Hin]; [|by apply Hrest, (IH (tail rolls))].
    destruct (Engine.roll_attempts _); [|by apply elem_of_nil in Hin].
    destruct (Engine.matchable_indices g a v !! _) as [i|] eqn:Hi;
      [|by apply elem_of_nil in Hin].
    apply list_elem_of_singleton in Hin. injection Hin as _ _ -> -> ->.
    split; [done|]. exists a. split_and!; [apply list_elem_of_here|done|].
    by eapply list_elem_of_lookup_2.
  - destruct (negb _); [by apply Hrest, (IH rolls)|].
    apply elem_of_cons in Hin as [Hin|Hin]; [done|by apply Hrest, (IH rolls)].
Qed.

(** X29. The attempt a window schedules for an AI player is
    always a legal match: it names the window just opened and a position of
    the AI's hand holding an unblocked bottle of the discarded value, so
    that, run before anything else changes, it wins the window -- the card
    goes on the discard pile, the window is closed and the engine is asked
    to go on. *)
Theorem scheduled_ai_attempt_is_a_match (now : Z) (new_obj : positive)
    (rolls : list Engine.ai_roll) (discarded_bottle_card : card) (s : Engine.session)
    (name : job_name) (delay : Z) (ai : player_id) (idx : nat) (sig : positive) :
  ¬ (phase (Engine.s_game s) = BOTTLE_MATCHING_WINDOW
     ∧ is_Some (bottle_match_context (Engine.s_game s))) →
  Engine.emit (run_once name delay (ai_attempt_bottle_match_job_data ai idx sig))
  ∈ (Engine.initiate_bottle_matching_window now new_obj rolls discarded_bottle_card s).2 →
  let g1 := Engine.s_game
              (Engine.initiate_bottle_matching_window now new_obj rolls
                 discarded_bottle_card s).1 in
  sig = new_obj
  ∧ ∃ p c,
      get_player_by_id (Engine.s_game s) ai = Some p
      ∧ p_hand p !! idx = Some c
      ∧ is_bottle c = true
      ∧ card_value c = card_value discarded_bottle_card
      ∧ (idx ∉ blocked_indices (Engine.s_game s) (str ai))
      ∧ discard_pile (ai_attempt_bottle_match_job ai idx sig g1).1
        = discard_pile (Engine.s_game s) ++ [c]
      ∧ (p_hand <$> get_player_by_id (ai_attempt_bottle_match_job ai idx sig g1).1 ai)
        = Some (delete idx (p_hand p))
      ∧ bottle_match_context (ai_attempt_bottle_match_job ai idx sig g1).1 = None
      ∧ last (ai_attempt_bottle_match_job ai idx sig g1).2
        = Some advance_turn_or_continue_sequence.
Proof.
  intros Hopen Hin. unfold Engine.initiate_bottle_matching_window in *.
  set (g := Engine.s_game s) in *.
  replace (bool_decide (phase g = BOTTLE_MATCHING_WINDOW)
           && bool_decide (is_Some (bottle_match_context g))) with false in *.
  2:{ symmetry. apply andb_false_iff.
      destruct (decide (phase g = BOTTLE_MATCHING_WINDOW)) as [Hph|Hph].
      - right. apply bool_decide_eq_false_2. intros Hc. by apply Hopen.
      - left. by apply bool_decide_eq_false_2. }
  cbn [fst snd Engine.s_game Engine.with_game] in *.
  set (ctx := mk_bottle_context _ _ _ _ _ _ _) in *.
  set (g1 := set_bottle_match_context (Some ctx) (set_phase BOTTLE_MATCHING_WINDOW g)) in *.
  apply elem_of_cons in Hin as [Hin|Hin]; [done|].
  apply elem_of_app in Hin as [Hin|Hin]; [|by apply list_elem_of_singleton in Hin].
  apply prompt_players_ai_job in Hin as (-> & p & Hp & <- & Hidx).
  split; [done|].
  assert (get_player_by_id g (p_id p) = Some p) as Hget.
  { apply turn_order_players_lookup.
    unfold get_active_players_in_turn_order in Hp.
    by apply list_elem_of_filter in Hp as [_ ?]. }
  unfold Engine.matchable_indices in Hidx.
  apply list_elem_of_In, filter_In in Hidx as [_ Hm].
  unfold Engine.is_matchable in Hm.
  destruct (p_hand p !! idx) as [c|] eqn:Hc; [|done].
  apply andb_true_iff in Hm as [Hm Hblk]. apply andb_true_iff in Hm as [Hkind Hval].
  apply bool_decide_eq_true in Hkind. apply bool_decide_eq_true in Hval.
  apply negb_true_iff, bool_decide_eq_false in Hblk.
  assert (is_bottle c = true) as Hbot by by destruct c.
  exists p, c. split_and!; [done|done|done|done|done| | | |].
  all: unfold ai_attempt_bottle_match_job;
    replace (phase g1) with BOTTLE_MATCHING_WINDOW by done;
    rewrite bool_decide_eq_true_2 by done; cbn [negb];
    replace (bottle_match_context g1) with (Some ctx) by done;
    replace (bc_obj ctx) with new_obj by done;
    rewrite bool_decide_eq_true_2 by done; cbn [negb];
    replace (truthy_opt (bc_fastest_matcher_id ctx)) with false by done;
    unfold handle_bottle_match_attempt, bottle_match_attempt_step;
    assert (classify_attempt g1 (p_id p) idx = att_matched c) as ->.
  all: try (unfold classify_attempt;
    replace (get_player_by_id g1 (p_id p)) with (get_player_by_id g (p_id p)) by done;
    rewrite Hget; replace (bottle_match_context g1) with (Some ctx) by done;
    replace (phase g1) with BOTTLE_MATCHING_WINDOW by done;
    rewrite bool_decide_eq_true_2 by done; cbn [negb];
    replace (truthy_opt (bc_fastest_matcher_id ctx)) with false by done;
    replace (bc_failed_matchers ctx) with (∅ : gset player_id) by done;
    rewrite bool_decide_eq_false_2 by apply not_elem_of_empty;
    rewrite Hc, Hbot; replace (bc_discarded_card_value ctx)
      with (card_value discarded_bottle_card) by done;
    by rewrite bool_decide_eq_true_2 by done).
  all: replace (bottle_match_context g1) with (Some ctx) by done; cbn [fst snd].
  - unfold close_matched_window. cbn [fst]. simpl.
    by rewrite discard_pile_update_player.
  - unfold close_matched_window. cbn [fst].
    set (f := λ q, set_hand (delete idx (p_hand q)) q).
    match goal with
    | |- p_hand <$> get_player_by_id ?G _ = _ =>
        replace (get_player_by_id G (p_id p))
          with (get_player_by_id
                  (update_player (p_id p) f
                     (update_bottle_context (bc_set_fastest_matcher_id (Some (p_id p))) g1))
                  (p_id p)) by done
    end.
    rewrite get_player_by_id_update_player by done.
    replace (get_player_by_id (update_bottle_context _ g1) (p_id p))
      with (get_player_by_id g (p_id p)) by done.
    by rewrite Hget.
  - done.
  - unfold close_matched_window. cbn [snd]. by rewrite !last_app.
Qed.

Lemma scheduled_ai_attempt_is_a_match_witness :
  discard_pile
    (ai_attempt_bottle_match_job (StrId "ai_1_1000") 2 7
       (Engine.s_game
          (Engine.initiate_bottle_matching_window 100 7 [Engine.mk_ai_roll true 1 2]
             (Bottle 9) table_session).1)).1
  = [Bottle 7; Bottle 9].
Proof.
  destruct (scheduled_ai_attempt_is_a_match 100 7 [Engine.mk_ai_roll true 1 2] (Bottle 9)
              table_session (mk_job_name "ai_bottle_match" (Some (StrId "ai_1_1000")) 100)
              2 (StrId "ai_1_1000") 2 7)
    as (_ & p & c & Hp & Hc & _ & _ & _ & Hd & _); [by intros [? _]| |].
  - do 3 apply list_elem_of_further. apply list_elem_of_here.
  - vm_compute in Hp. injection Hp as <-. vm_compute in Hc. injection Hc as <-. exact Hd.
Defined.
(** ** Al Capone *)

Lemma remove_first_absent x l : NoDup l → x ∉ remove_first x l.
Proof.
  induction 1 as [|y l Hy Hnd IH]; simpl; [apply not_elem_of_nil|].
  destruct (decide (y = x)) as [<-|Hne]; [done|].
  apply not_elem_of_cons. by split.
Qed.

Lemma remove_first_sublist x l : remove_first x l `sublist_of` l.
Proof.
  induction l as [|y l IH]; simpl; [done|].
  destruct (decide (y = x)); [by apply sublist_cons|by apply sublist_skip].
Qed.

Lemma remove_first_length x l : x ∈ l → S (length (remove_first x l)) = length l.
Proof.
  induction l as [|y l IH]; simpl; intros Hin; [by apply elem_of_nil in Hin|].
  destruct (decide (y = x)) as [|Hne]; [done|]. simpl.
  apply elem_of_cons in Hin as [|Hin]; [congruence|]. by rewrite IH.
Qed.

(** Within the capacity of a game the pool holds one name for each
    participant, all different, Al Capone among them. *)
Lemma assigned_gangsters_list_spec rng1 rng2 n :
  0 < n ≤ MAX_PLAYERS →
  length (assigned_gangsters_list rng1 rng2 n) = n
  ∧ NoDup (assigned_gangsters_list rng1 rng2 n)
  ∧ "Al Capone" ∈ assigned_gangsters_list rng1 rng2 n.
Proof.
  intros Hn. unfold MAX_PLAYERS in Hn. unfold assigned_gangsters_list.
  pose proof (shuffle_perm rng1 FAMOUS_GANGSTERS) as Hperm.
  pose proof (shuffle_length rng1 FAMOUS_GANGSTERS) as Hlen.
  assert (NoDup FAMOUS_GANGSTERS) as Hnd0 by (apply (bool_decide_unpack _); by vm_compute).
  assert ("Al Capone" ∈ FAMOUS_GANGSTERS) as Hin0 by apply list_elem_of_here.
  generalize dependent (Py.shuffle rng1 FAMOUS_GANGSTERS). intros avail Hperm Hlen.
  change (length FAMOUS_GANGSTERS) with 9 in Hlen.
  assert (NoDup avail) as Hnd by by rewrite Hperm.
  assert ("Al Capone" ∈ avail) as Hin by by rewrite Hperm.
  rewrite bool_decide_eq_true_2 by lia.
  case_bool_decide as Hac.
  - assert (length (take n avail) = n) as Hl by (rewrite length_take; lia).
    rewrite Hl, Nat.sub_diag. simpl. rewrite app_nil_r.
    split_and!; [done| |done].
    eapply sublist_NoDup; [done|apply sublist_take].
  - set (base := take (n - 1) (remove_first "Al Capone" avail) ++ ["Al Capone"]).
    pose proof (remove_first_length _ _ Hin) as Hrl.
    assert (length base = n) as Hl.
    { unfold base. rewrite length_app, length_take. simpl. lia. }
    assert (NoDup base) as Hndb.
    { unfold base. apply NoDup_app. split_and!.
      - eapply sublist_NoDup; [|apply sublist_take].
        eapply sublist_NoDup; [done|apply remove_first_sublist].
      - intros x Hx Hx'. apply list_elem_of_singleton in Hx' as ->.
        apply (remove_first_absent "Al Capone" avail Hnd).
        eapply elem_of_sublist; [exact Hx|apply sublist_take].
      - apply NoDup_singleton. }
    pose proof (shuffle_perm rng2 base) as Hp2.
    rewrite shuffle_length, Hl, Nat.sub_diag. simpl. rewrite app_nil_r.
    split_and!; [by rewrite shuffle_length|by rewrite Hp2|].
    rewrite Hp2. unfold base. apply elem_of_app. right. apply list_elem_of_here.
Qed.

(** The loop over participants of distinct ids, each with a name waiting. *)
Lemma assign_loop_assignments names i ps m ac :
  NoDup (p_id <$> ps) →
  (∀ j, j < length ps → is_Some (names !! (i + j))) →
  (∀ j p, ps !! j = Some p → (assign_loop names i ps (m, ac)).1 !! p_id p = names !! (i + j))
  ∧ (∀ x, x ∉ p_id <$> ps → (assign_loop names i ps (m, ac)).1 !! x = m !! x).
Proof.
  revert i m ac. induction ps as [|p ps IH]; intros i m ac Hnd Hnames.
  { split; [intros j q Hq; by rewrite lookup_nil in Hq|done]. }
  rewrite fmap_cons in Hnd. apply NoDup_cons in Hnd as [Hp Hnd].
  destruct (Hnames 0) as [name Hname]; [simpl; lia|].
  rewrite Nat.add_0_r in Hname. simpl. rewrite Hname.
  destruct (IH (S i) (<[p_id p := name]> m)
              (if decide (name = "Al Capone") then Some (p_id p) else ac) Hnd) as [IH1 IH2].
  { intros j Hj. replace (S i + j) with (i + S j) by lia. apply Hnames. simpl. lia. }
  split.
  - intros [|j] q Hq; simpl in Hq.
    + injection Hq as <-. rewrite IH2 by done. by rewrite lookup_insert_eq, Nat.add_0_r.
    + rewrite (IH1 j q Hq). f_equal. lia.
  - intros x Hx. rewrite ?fmap_cons in Hx. apply not_elem_of_cons in Hx as [Hne Hx].
    rewrite IH2 by done. by rewrite lookup_insert_ne.
Qed.

Lemma assign_loop_no_al_capone names i ps m ac :
  (∀ j, j < length ps → names !! (i + j) ≠ Some "Al Capone") →
  (assign_loop names i ps (m, ac)).2 = ac.
Proof.
  revert i m ac. induction ps as [|p ps IH]; intros i m ac Hnames; [done|].
  simpl. pose proof (Hnames 0) as H0. rewrite Nat.add_0_r in H0.
  assert (∀ j, j < length ps → names !! (S i + j) ≠ Some "Al Capone") as Hrest.
  { intros j Hj. replace (S i + j) with (i + S j) by lia. apply Hnames. simpl. lia. }
  destruct (names !! i) as [name|] eqn:Hname.
  - rewrite IH by done. rewrite decide_False; [done|].
    intros ->. apply H0; [simpl; lia|done].
  - by rewrite IH.
Qed.

Lemma assign_loop_al_capone names i ps m ac j0 p0 :
  ps !! j0 = Some p0 →
  names !! (i + j0) = Some "Al Capone" →
  (∀ j, j < length ps → j ≠ j0 → names !! (i + j) ≠ Some "Al Capone") →
  (assign_loop names i ps (m, ac)).2 = Some (p_id p0).
Proof.
  revert i m ac j0. induction ps as [|p ps IH]; intros i m ac j0 Hp0 Hname Hother.
  { by rewrite lookup_nil in Hp0. }
  simpl. destruct j0 as [|j0]; simpl in Hp0.
  - injection Hp0 as ->. rewrite Nat.add_0_r in Hname. rewrite Hname.
    rewrite decide_True by done. apply assign_loop_no_al_capone.
    intros j Hj. replace (S i + j) with (i + S j) by lia. apply Hother; simpl; lia.
  - assert (names !! i ≠ Some "Al Capone") as H0.
    { rewrite <-(Nat.add_0_r i). apply Hother; simpl; lia. }
    assert (names !! (S i + j0) = Some "Al Capone") as Hname'
      by by replace (S i + j0) with (i + S j0) by lia.
    assert (∀ j, j < length ps → j ≠ j0 → names !! (S i + j) ≠ Some "Al Capone") as Hother'.
    { intros j Hj Hne. replace (S i + j) with (i + S j) by lia. apply Hother; simpl; lia. }
    destruct (names !! i) as [name|] eqn:Hn.
    + rewrite decide_False by congruence. by apply (IH _ _ _ j0).
    + by apply (IH _ _ _ j0).
Qed.

(** X30. For a lobby within the capacity of a game whose
    participants have distinct ids, the assignment names exactly one of them
    Al Capone, records that participant's id in the session, and gives every
    participant a gangster. *)
Theorem exactly_one_al_capone (rng1 rng2 rng3 : list nat)
    (gangster_assignments : gmap player_id string) (g : game) :
  all_participants g ≠ [] →
  length (all_participants g) ≤ MAX_PLAYERS →
  NoDup (participant_ids g) →
  (assign_gangsters_to_players rng1 rng2 rng3 gangster_assignments g).2 = true
  ∧ ∃ ac,
      al_capone_player_id
        (assign_gangsters_to_players rng1 rng2 rng3 gangster_assignments g).1.1 = Some ac
      ∧ ac ∈ participant_ids g
      ∧ ∀ x, x ∈ participant_ids g →
          is_Some ((assign_gangsters_to_players rng1 rng2 rng3 gangster_assignments g).1.2 !! x)
          ∧ ((assign_gangsters_to_players rng1 rng2 rng3 gangster_assignments g).1.2 !! x
             = Some "Al Capone" ↔ x = ac).
Proof.
  intros Hne Hcap Hnd. unfold assign_gangsters_to_players.
  replace (Py.nonempty (all_participants g)) with true by by destruct (all_participants g).
  cbn [negb].
  assert (0 < length (all_participants g)) as Hpos
    by (destruct (all_participants g); [done|simpl; lia]).
  destruct (assigned_gangsters_list_spec rng1 rng2 (length (all_participants g)))
    as (Hlen & Hndn & Hac); [lia|].
  set (names := assigned_gangsters_list _ _ _) in *.
  pose proof (shuffle_perm rng3 (all_participants g)) as Hperm.
  pose proof (shuffle_length rng3 (all_participants g)) as Hslen.
  set (ps := Py.shuffle rng3 (all_participants g)) in *.
  assert (NoDup (p_id <$> ps)) as Hndp by (by rewrite Hperm).
  assert (∀ x, x ∈ participant_ids g ↔ x ∈ p_id <$> ps) as Hids
    by (intros x; unfold participant_ids; by rewrite Hperm).
  assert (∀ j, j < length ps → is_Some (names !! (0 + j))) as Hnames.
  { intros j Hj. apply lookup_lt_is_Some. lia. }
  destruct (assign_loop_assignments names 0 ps gangster_assignments None Hndp Hnames)
    as [Hm _].
  apply list_elem_of_lookup in Hac as [j0 Hj0].
  assert (j0 < length ps) as Hj0lt by (apply lookup_lt_Some in Hj0; lia).
  destruct (lookup_lt_is_Some_2 ps j0 Hj0lt) as [p0 Hp0].
  assert ((assign_loop names 0 ps (gangster_assignments, None)).2 = Some (p_id p0)) as Hacid.
  { apply (assign_loop_al_capone names 0 ps gangster_assignments None j0 p0 Hp0 Hj0).
    intros j Hj Hjne Hj'. apply Hjne.
    eapply NoDup_lookup; [exact Hndn|exact Hj'|exact Hj0]. }
  destruct (assign_loop names 0 ps (gangster_assignments, None)) as [m1 ac1] eqn:Hloop.
  simpl in Hm, Hacid. subst ac1.
  assert (∀ x, x ∈ p_id <$> ps → ∃ j q, ps !! j = Some q ∧ p_id q = x ∧ m1 !! x = names !! j)
    as Hlook.
  { intros x Hx. apply list_elem_of_fmap in Hx as (q & -> & Hq).
    apply list_elem_of_lookup in Hq as [j Hj]. exists j, q. split_and!; [done|done|].
    by rewrite (Hm j q Hj). }
  destruct (truthy (p_id p0)) eqn:Htr; cbn [negb truthy_opt].
  - rewrite Htr. cbn [negb fst snd].
    split; [done|]. exists (p_id p0). split_and!; [done| |].
    { apply Hids. apply list_elem_of_fmap. exists p0. split; [done|].
      by eapply list_elem_of_lookup_2. }
    intros x Hx%Hids. destruct (Hlook x Hx) as (j & q & Hj & <- & Hmq).
    rewrite Hmq. split; [apply lookup_lt_is_Some; apply lookup_lt_Some in Hj; lia|].
    split.
    + intros Hn. assert (j = j0) as ->; [|congruence].
      eapply NoDup_lookup; [exact Hndn|exact Hn|exact Hj0].
    + intros Heq.
      assert (j = j0) as ->; [|done].
      eapply NoDup_lookup; [exact Hndp| |].
      * by rewrite list_lookup_fmap, Hj.
      * rewrite list_lookup_fmap, Hp0. simpl. by rewrite Heq.
  - rewrite Htr. cbn [negb].
    destruct ps as [|first rest] eqn:Hps; [simpl in Hj0lt; lia|]. cbn [fst snd].
    split; [done|]. exists (p_id first). split_and!; [done| |].
    { apply Hids. apply list_elem_of_here. }
    intros x Hx%Hids. destruct (decide (x = p_id first)) as [->|Hxne].
    + rewrite lookup_insert_eq. by split; [eexists|].
    + rewrite lookup_insert_ne by done. rewrite lookup_fmap.
      destruct (Hlook x Hx) as (j & q & Hj & <- & Hmq). rewrite Hmq.
      destruct (lookup_lt_is_Some_2 names j) as [name Hname];
        [apply lookup_lt_Some in Hj; lia|].
      rewrite Hname. simpl. split; [by eexists|].
      split; [|done]. destruct (decide (name = "Al Capone")); [done|congruence].
Qed.

Lemma exactly_one_al_capone_witness :
  (assign_gangsters_to_players [1; 2] [] [2; 0] ∅ lobby_game).2 = true.
Proof.
  destruct (exactly_one_al_capone [1; 2] [] [2; 0] ∅ lobby_game) as [H _];
    [done|vm_compute; lia| |exact H].
  apply (bool_decide_unpack _). vm_compute. exact I.
Defined.
